(** * Word-level recurrent network on Sherlock Holmes: batch feeder, hand-coded
    GRU cell, moving-average loss buffer and greedy generator.

    The development embeds the notebook code of [sherlock_hand_GRU.ipynb]
    (feeder, epoch_len, init_rnn_cell, cell, model, loss predictor, training
    loop) and the prediction cell of the LSTM notebook.  Python integers are
    [Z]; NumPy arrays of rank one and two are lists and lists of rows;
    exceptions are explicit results; the Python random generator is an explicit
    state.  A session run is the graph checked when it is built, the feeds
    converted to [int32], and the table lookups checked when they run.
    TensorFlow tensors are modelled over an abstract scalar interface with
    three instances: IEEE binary32, the real numbers the graph denotes, and
    formal expressions. *)

From Stdlib Require Import ZArith Lia Reals Lra.
From Stdlib Require SpecFloat.
From stdpp Require Import base list gmap strings.

(* ===================================================================== *)
(** * Part I: definitions                                                 *)
(* ===================================================================== *)

(** ** Python and NumPy primitives used by the notebook *)
Module Py.

Local Open Scope Z_scope.

(** The exceptions the modelled statements can raise. *)
Inductive exn : Type :=
| ZeroDivisionError
| ValueError
| IndexError
| InvalidArgumentError
| NotFoundError.

Inductive result (A : Type) : Type :=
| Ok (a : A)
| Raise (e : exn).
Arguments Ok {A} a.
Arguments Raise {A} e.

Definition bind {A B : Type} (r : result A) (k : A -> result B) : result B :=
  match r with
  | Ok a => k a
  | Raise e => Raise e
  end.

Notation "x <- e ;; k" := (bind e (fun x => k))
  (at level 100, e at next level, k at level 200, right associativity).

(** [a // b] on Python integers: floor division, [ZeroDivisionError] on a
    zero divisor.  [Z.div] rounds to minus infinity as Python does. *)
Definition floordiv (a b : Z) : result Z :=
  if b =? 0 then Raise ZeroDivisionError else Ok (a / b).

(** [len(l)] *)
Definition len {A : Type} (l : list A) : Z := Z.of_nat (length l).

(** [range(n)]: [0, 1, ..., n-1], empty when [n <= 0]. *)
Definition range (n : Z) : list Z := seqZ 0 n.

(** A slice bound [k] of a sequence of length [n], as Python normalises it:
    a negative bound counts from the end, and the result is clipped to
    [0..n]. *)
Definition slice_bound (n k : Z) : Z :=
  if k <? 0 then Z.max 0 (k + n) else Z.min k n.

(** [l[lo:hi]] *)
Definition slice {A : Type} (l : list A) (lo hi : Z) : list A :=
  let n := len l in
  let lo' := slice_bound n lo in
  let hi' := slice_bound n hi in
  take (Z.to_nat (hi' - lo')) (drop (Z.to_nat lo') l).

(** [l[k]] with an integer index: a negative index counts from the end,
    [IndexError] out of range. *)
Definition index {A : Type} (l : list A) (k : Z) : result A :=
  let k' := if k <? 0 then k + len l else k in
  if k' <? 0 then Raise IndexError
  else match l !! Z.to_nat k' with
       | Some a => Ok a
       | None => Raise IndexError
       end.

(** [mapM] for [result]: the first exception wins. *)
Fixpoint mapR {A B : Type} (f : A -> result B) (l : list A) : result (list B) :=
  match l with
  | [] => Ok []
  | a :: l' =>
      match f a with
      | Raise e => Raise e
      | Ok b => match mapR f l' with
                | Raise e => Raise e
                | Ok bs => Ok (b :: bs)
                end
      end
  end.

(** Row-major split of a flat array into [r] rows of [c] cells. *)
Fixpoint rows_of {A : Type} (r c : nat) (a : list A) : list (list A) :=
  match r with
  | O => []
  | S r' => take c a :: rows_of r' c (drop c a)
  end.

(** [np.reshape(a, (r, c))] of a rank-one array.  A negative entry of the
    shape stands for the dimension to infer; two of them, an inferred
    dimension next to a zero, and a size that does not match are
    [ValueError]. *)
Definition reshape {A : Type} (a : list A) (r c : Z) : result (list (list A)) :=
  if (r <? 0) && (c <? 0) then Raise ValueError
  else if r <? 0 then
    if (c =? 0) || negb (len a mod c =? 0) then Raise ValueError
    else Ok (rows_of (Z.to_nat (len a / c)) (Z.to_nat c) a)
  else if c <? 0 then
    if (r =? 0) || negb (len a mod r =? 0) then Raise ValueError
    else Ok (rows_of (Z.to_nat r) (Z.to_nat (len a / r)) a)
  else if len a =? r * c then Ok (rows_of (Z.to_nat r) (Z.to_nat c) a)
  else Raise ValueError.

(** [data[:, lo:hi]] of a rank-two array. *)
Definition columns {A : Type} (data : list (list A)) (lo hi : Z) : list (list A) :=
  (fun row => slice row lo hi) <$> data.

(** [data[:, k]] of a rank-two array with at least one row. *)
Definition column {A : Type} (data : list (list A)) (k : Z) : result (list A) :=
  mapR (fun row => index row k) data.

(** [v.reshape((-1, 1))] of a rank-one array: one cell per row. *)
Definition as_column {A : Type} (v : list A) : list (list A) :=
  (fun a => [a]) <$> v.

(** The state of Python's [random] module: the raw numbers it will hand out
    and how many were consumed.  [randbelow n] is [Random._randbelow(n)]: a
    number in [0, n). *)
Record rng : Type := mk_rng { draws : nat -> nat; consumed : nat }.

Definition randbelow (g : rng) (n : nat) : nat * rng :=
  (draws g (consumed g) `mod` n, mk_rng (draws g) (S (consumed g)))%nat.

(** [x[i], x[j] = x[j], x[i]] *)
Definition swap {A : Type} (x : list A) (i j : nat) : list A :=
  match x !! i, x !! j with
  | Some xi, Some xj => <[j:=xi]> (<[i:=xj]> x)
  | _, _ => x
  end.

(** [random.shuffle(x)]:
    [for i in reversed(range(1, len(x))): j = randbelow(i+1); swap]. *)
Fixpoint shuffle_from {A : Type} (i : nat) (x : list A) (g : rng) : list A * rng :=
  match i with
  | O => (x, g)
  | S i' =>
      let '(j, g') := randbelow g (S i) in
      shuffle_from i' (swap x i j) g'
  end.

Definition shuffle {A : Type} (x : list A) (g : rng) : list A * rng :=
  shuffle_from (length x - 1)%nat x g.

End Py.

(** ** The batch feeder (notebook cell 5) *)
Module Feeder.
Import Py.
Local Open Scope Z_scope.

(** [class Config]: the integer hyperparameters. *)
Record Config : Type := mk_Config {
  vocab_size : Z;
  batch_size : Z;
  num_rnn_steps : Z;
  embed_size : Z;
  rnn_size : Z;
  hidden_size : Z;
  neg_samples : Z;
  epochs : Z;
  embed_vis_depth : Z
}.

(** [Config(num_words)] *)
Definition Config_init (num_words : Z) : Config :=
  {| vocab_size := num_words;
     batch_size := 32;
     num_rnn_steps := 20;
     embed_size := 64;
     rnn_size := 128;
     hidden_size := 196;
     neg_samples := 64;
     epochs := 2;
     embed_vis_depth := 2048 |}.

(** One training example: the input window and the target column. *)
Definition batch : Type := list (list Z) * list (list Z).

(** What a generator did when drained: the values it yielded, and the
    exception that ended it, if any. *)
Record drained (A : Type) : Type := mk_drained {
  yielded : list A;
  raised : option exn
}.
Arguments mk_drained {A} yielded raised.
Arguments yielded {A} d.
Arguments raised {A} d.

(** [batch_width = len(word_array) // config.batch_size] *)
Definition batch_width (config : Config) (word_array : list Z) : result Z :=
  floordiv (len word_array) (batch_size config).

(** [data = np.reshape(word_array[0 : batch_size*batch_width],
                       (batch_size, batch_width))] *)
Definition data (config : Config) (word_array : list Z) : result (list (list Z)) :=
  bw <- batch_width config word_array ;;
  reshape (slice word_array 0 (batch_size config * bw)) (batch_size config) bw.

(** [shuffle_index = [x for x in range(batch_width - num_rnn_steps - 1)];
    random.shuffle(shuffle_index)] *)
Definition shuffle_index (config : Config) (bw : Z) (g : rng) : list Z * rng :=
  shuffle (range (bw - num_rnn_steps config - 1)) g.

(** The body of [for i in shuffle_index: ...; yield (x, y)]. *)
Fixpoint feed (config : Config) (dat : list (list Z)) (idx : list Z) : drained batch :=
  match idx with
  | [] => mk_drained [] None
  | i :: rest =>
      let x := columns dat i (i + num_rnn_steps config) in
      match column dat (i + num_rnn_steps config) with
      | Raise e => mk_drained [] (Some e)
      | Ok col =>
          let y := as_column col in
          let d := feed config dat rest in
          mk_drained ((x, y) :: yielded d) (raised d)
      end
  end.

(** [feeder(config, word_array)], drained. *)
Definition feeder (config : Config) (word_array : list Z) (g : rng)
  : drained batch * rng :=
  match batch_width config word_array with
  | Raise e => (mk_drained [] (Some e), g)
  | Ok bw =>
      match reshape (slice word_array 0 (batch_size config * bw))
                    (batch_size config) bw with
      | Raise e => (mk_drained [] (Some e), g)
      | Ok dat =>
          let '(idx, g') := shuffle_index config bw g in
          (feed config dat idx, g')
      end
  end.

(** [epoch_len(config, word_array)] *)
Definition epoch_len (config : Config) (word_array : list Z) : result Z :=
  bw <- batch_width config word_array ;;
  Ok (bw - num_rnn_steps config - 1).

(** *** The grid and the examples as the design document words them *)

(** Row [r] of the token grid holds
    [token_stream[r*row_width : r*row_width + row_width]]. *)
Definition spec_grid (token_stream : list Z) (num_rows row_width : Z) : list (list Z) :=
  (fun r : nat => take (Z.to_nat row_width) (drop (r * Z.to_nat row_width) token_stream))
    <$> seq 0 (Z.to_nat num_rows).

(** [input_window = grid[:, i : i+num_steps]] *)
Definition spec_input_window (grid : list (list Z)) (num_steps i : Z) : list (list Z) :=
  (fun row => take (Z.to_nat num_steps) (drop (Z.to_nat i) row)) <$> grid.

(** [target = grid[:, i+num_steps]], reshaped to a column. *)
Definition spec_target (grid : list (list Z)) (num_steps i : Z) : list (list Z) :=
  (fun row => [nth (Z.to_nat (i + num_steps)) row 0]) <$> grid.

Definition spec_batch (grid : list (list Z)) (num_steps i : Z) : batch :=
  (spec_input_window grid num_steps i, spec_target grid num_steps i).

End Feeder.

(** ** TensorFlow: scalars, tensors of rank one and two, the variable store *)
Module TF.
Import Py.

(** The float32 operations the graph uses, as an interface. *)
Class Scalar (T : Type) : Type := {
  s_zero : T;
  s_one : T;
  s_add : T -> T -> T;
  s_sub : T -> T -> T;
  s_mul : T -> T -> T;
  s_div : T -> T -> T;
  s_of_Z : Z -> T;
  s_sigmoid : T -> T;
  s_tanh : T -> T;
  s_ltb : T -> T -> bool
}.

Section Tensors.
Context {T : Type} {ST : Scalar T}.

(** Sum of the products, in index order. *)
Definition dot (u v : list T) : T :=
  foldl s_add s_zero (zip_with s_mul u v).

Definition ncols (m : list (list T)) : nat :=
  match m with
  | [] => O
  | row :: _ => length row
  end.

(** Column [j] of a matrix. *)
Definition col (m : list (list T)) (j : nat) : list T :=
  (fun row => nth j row s_zero) <$> m.

Definition transpose (m : list (list T)) : list (list T) :=
  col m <$> seq 0 (ncols m).

(** [tf.matmul(a, b)] *)
Definition matmul (a b : list (list T)) : list (list T) :=
  (fun row => dot row <$> transpose b) <$> a.

(** [tf.matmul(a, b, transpose_b=True)] *)
Definition matmul_transpose_b (a b : list (list T)) : list (list T) :=
  (fun row => dot row <$> b) <$> a.

(** [tf.concat([a, b], axis=1)] *)
Definition concat1 (a b : list (list T)) : list (list T) :=
  zip_with app a b.

(** [m + bias]: the bias is broadcast over the rows. *)
Definition add_bias (m : list (list T)) (bias : list T) : list (list T) :=
  (fun row => zip_with s_add row bias) <$> m.

(** Elementwise [a * b] and [a + b]. *)
Definition mul2 (a b : list (list T)) : list (list T) :=
  zip_with (zip_with s_mul) a b.

Definition add2 (a b : list (list T)) : list (list T) :=
  zip_with (zip_with s_add) a b.

(** [1 - z]: the scalar is broadcast. *)
Definition one_minus (z : list (list T)) : list (list T) :=
  (fun row : list T => s_sub s_one <$> row) <$> z.

Definition sigmoid2 (m : list (list T)) : list (list T) :=
  (fun row : list T => s_sigmoid <$> row) <$> m.

Definition tanh2 (m : list (list T)) : list (list T) :=
  (fun row : list T => s_tanh <$> row) <$> m.

(** [tf.argmax] of a vector: the first index holding the largest value. *)
Fixpoint argmax_from (best_i : nat) (best : T) (i : nat) (l : list T) : nat :=
  match l with
  | [] => best_i
  | a :: l' =>
      if s_ltb best a then argmax_from i a (S i) l'
      else argmax_from best_i best (S i) l'
  end.

Definition argmax (l : list T) : nat :=
  match l with
  | [] => O
  | a :: l' => argmax_from O a 1 l'
  end.

(** [tf.argmax(m, axis=1)] *)
Definition argmax1 (m : list (list T)) : list Z :=
  (fun row => Z.of_nat (argmax row)) <$> m.

(** The comparison [<] of the scalars orders the values of [l]: no value is
    below itself, and both [<] and its negation are transitive.  It fails
    for a list that holds a float that is not a number. *)
Definition ordered (l : list T) : bool :=
  forallb (fun a =>
    negb (s_ltb a a)
    && forallb (fun b =>
         forallb (fun c =>
           (negb (s_ltb a b && s_ltb b c) || s_ltb a c)
           && (s_ltb a b || s_ltb b c || negb (s_ltb a c))) l) l) l.

Inductive tensor : Type :=
| Vec (v : list T)
| Mat (m : list (list T)).

(** The value [t] has the shape [shape]. *)
Definition has_shape (t : tensor) (shape : list Z) : Prop :=
  match t, shape with
  | Vec v, [n] => len v = n
  | Mat m, [r; c] => len m = r /\ Forall (fun row => len row = c) m
  | _, _ => False
  end.

Inductive initializer : Type :=
| zero_initializer
| one_initializer
| vsi_initializer
| rui_initializer.

(** A variable of the graph: its declared shape, whether it is in the
    trainable collection, and its current value. *)
Record variable : Type := mk_variable {
  var_shape : list Z;
  var_init : initializer;
  var_trainable : bool;
  var_value : tensor
}.

Definition constant (c : T) (shape : list Z) : tensor :=
  match shape with
  | [n] => Vec (replicate (Z.to_nat n) c)
  | [n; m] => Mat (replicate (Z.to_nat n) (replicate (Z.to_nat m) c))
  | _ => Vec []
  end.

(** The value an initializer gives a new variable; [rand] stands for the
    numbers the random initializers draw. *)
Definition initial_value (rand : string -> tensor) (name : string)
    (shape : list Z) (init : initializer) : tensor :=
  match init with
  | zero_initializer => constant s_zero shape
  | one_initializer => constant s_one shape
  | vsi_initializer | rui_initializer => rand name
  end.

(** [tf.get_variable(name, shape, tf.float32, initializer)] inside
    [tf.variable_scope(scope)]: a new trainable variable. *)
Definition new_variable (rand : string -> tensor) (scope name : string)
    (shape : list Z) (init : initializer) (vs : gmap string variable) : gmap string variable :=
  let full := scope +:+ "/" +:+ name in
  <[full := mk_variable shape init true (initial_value rand full shape init)]> vs.

(** [tf.get_variable(name)] inside [tf.variable_scope(scope, reuse=True)]. *)
Definition get_variable (vs : gmap string variable) (scope name : string) : result tensor :=
  match vs !! (scope +:+ "/" +:+ name) with
  | Some v => Ok (var_value v)
  | None => Raise ValueError
  end.

Definition get_mat (vs : gmap string variable) (scope name : string) : result (list (list T)) :=
  t <- get_variable vs scope name ;;
  match t with
  | Mat m => Ok m
  | Vec _ => Raise ValueError
  end.

Definition get_vec (vs : gmap string variable) (scope name : string) : result (list T) :=
  t <- get_variable vs scope name ;;
  match t with
  | Vec v => Ok v
  | Mat _ => Raise ValueError
  end.

End Tensors.

Arguments tensor T : clear implicits.
Arguments variable T : clear implicits.

(** The variable store, keyed by ["scope/name"]. *)
Abbreviation varstore T := (gmap string (variable T)).

(** The value a [tf.int32] placeholder holds for a fed NumPy integer: the
    conversion [np.asarray(value, dtype=np.int32)] keeps the low 32 bits. *)
Definition int32 (z : Z) : Z :=
  ((z + 2147483648) `mod` 4294967296 - 2147483648)%Z.

(** Feeding a rank-two array to a [tf.int32] placeholder of shape
    [(rows, cols)]: another shape is a [ValueError]. *)
Definition feed_int32 (rows cols : Z) (x : list (list Z)) : result (list (list Z)) :=
  if bool_decide (len x = rows)
     && forallb (fun row => bool_decide (len row = cols)) x
  then Ok ((fun row : list Z => int32 <$> row) <$> x) else Raise ValueError.

End TF.

(** ** The hand-coded GRU and the model around it (notebook cells 6 and 7) *)
Module GRU.
Import Py Feeder TF.

Section Cell.
Context {T : Type} {ST : Scalar T}.

(** [init_rnn_cell(x, num_cells, batch_size)]: the seven variables of scope
    [GRU]; [x_cols] is [x.shape[1]].  The node it returns is the variable
    [GRU/h_init], read by [h_init] below. *)
Definition init_rnn_cell (rand : string -> tensor T)
    (x_cols num_cells batch_size : Z) (vs : varstore T) : varstore T :=
  let i_sz := (x_cols + num_cells)%Z in
  let o_sz := num_cells in
  let vs := new_variable rand "GRU" "Wr" [i_sz; o_sz] vsi_initializer vs in
  let vs := new_variable rand "GRU" "Wz" [i_sz; o_sz] vsi_initializer vs in
  let vs := new_variable rand "GRU" "W" [i_sz; o_sz] vsi_initializer vs in
  let vs := new_variable rand "GRU" "br" [o_sz] one_initializer vs in
  let vs := new_variable rand "GRU" "bz" [o_sz] one_initializer vs in
  let vs := new_variable rand "GRU" "b" [o_sz] zero_initializer vs in
  new_variable rand "GRU" "h_init" [batch_size; o_sz] zero_initializer vs.

Definition h_init (vs : varstore T) : result (list (list T)) :=
  get_mat vs "GRU" "h_init".

(** [cell(x, h_1)]: the hand-coded GRU. *)
Definition cell (vs : varstore T) (x h_1 : list (list T)) : result (list (list T)) :=
  Wr <- get_mat vs "GRU" "Wr" ;;
  Wz <- get_mat vs "GRU" "Wz" ;;
  W <- get_mat vs "GRU" "W" ;;
  br <- get_vec vs "GRU" "br" ;;
  bz <- get_vec vs "GRU" "bz" ;;
  b <- get_vec vs "GRU" "b" ;;
  let xh := concat1 x h_1 in
  let r := sigmoid2 (add_bias (matmul xh Wr) br) in
  let rh_1 := mul2 r h_1 in
  let xrh_1 := concat1 x rh_1 in
  let z := sigmoid2 (add_bias (matmul xh Wz) bz) in
  let h_tild := tanh2 (add_bias (matmul xrh_1 W) b) in
  let h := add2 (mul2 z h_1) (mul2 (one_minus z) h_tild) in
  Ok h.

(** Feeding the placeholder [x], of type [tf.int32] and shape
    [(batch_size, num_rnn_steps)]. *)
Definition placeholder_x (config : Config) (x : list (list Z)) : result (list (list Z)) :=
  feed_int32 (batch_size config) (num_rnn_steps config) x.

(** Building the graph of [model(config)].  The shapes are checked when the
    nodes are made, and a shape that does not fit is a [ValueError]: a
    negative dimension of the placeholder or of a variable; the copy
    [top_embed.assign(embed_w[:embed_vis_depth, :])], whose two sides have
    [embed_vis_depth] and [min(embed_vis_depth, vocab_size)] rows; and the
    slice [embed_out[:, 0, :]] handed to [init_rnn_cell], which needs a first
    step.  These are the checks a run of the graph rests on; the initial
    values of the variables are made by [MyGraph], in the cells below. *)
Definition model_graph (config : Config) : result unit :=
  if (0 <=? batch_size config)%Z && (0 <=? num_rnn_steps config)%Z
     && (0 <=? vocab_size config)%Z && (0 <=? embed_size config)%Z
     && (0 <=? embed_vis_depth config)%Z
     && (embed_vis_depth config <=? vocab_size config)%Z
     && (1 <=? num_rnn_steps config)%Z
     && (0 <=? rnn_size config)%Z && (0 <=? hidden_size config)%Z
  then Ok tt else Raise ValueError.

(** [tf.nn.embedding_lookup(embed_w, x)] *)
Definition embedding_lookup (embed_w : list (list T)) (x : list (list Z))
  : result (list (list (list T))) :=
  mapR (mapR (fun id : Z =>
    if (id <? 0)%Z then Raise InvalidArgumentError
    else match embed_w !! Z.to_nat id with
         | Some v => Ok v
         | None => Raise InvalidArgumentError
         end)) x.

(** [embed_out[:, i, :]] *)
Definition step_input (embed_out : list (list (list T))) (i : nat) : list (list T) :=
  (fun lane : list (list T) => nth i lane []) <$> embed_out.

(** One turn of [for i in range(num_rnn_steps): s_1 = s[-1];
    s.append(cell(embed_out[:, i, :], s_1))]. *)
Definition rnn_step (vs : varstore T) (embed_out : list (list (list T)))
    (acc : result (list (list (list T)))) (i : nat) : result (list (list (list T))) :=
  s <- acc ;;
  match last s with
  | None => Raise IndexError
  | Some s_1 =>
      h <- cell vs (step_input embed_out i) s_1 ;;
      Ok (s ++ [h])
  end.

(** The list [s] after the loop: [s[0]] is the node [init_rnn_cell] returns,
    the variable [h_init].  Its argument [embed_out[:, 0, :]] gives the
    variables their sizes; that slice is checked in [model_graph]. *)
Definition rnn_states (vs : varstore T) (embed_out : list (list (list T)))
    (num_steps : Z) : result (list (list (list T))) :=
  h0 <- h_init vs ;;
  foldl (rnn_step vs embed_out) (Ok [h0]) (seq 0 (Z.to_nat num_steps)).

(** The variables [model(config)] declares.  The TensorBoard copy
    [top_n_embedding] is left out of the store. *)
Definition model_variables (rand : string -> tensor T) (config : Config)
    (vs : varstore T) : varstore T :=
  let vs := new_variable rand "embedding" "w"
              [vocab_size config; embed_size config] rui_initializer vs in
  let vs := init_rnn_cell rand (embed_size config) (rnn_size config)
              (batch_size config) vs in
  let vs := new_variable rand "hidden" "w"
              [rnn_size config; hidden_size config] vsi_initializer vs in
  new_variable rand "hidden" "b" [hidden_size config] zero_initializer vs.

(** [hid_out] of [model(config)], built and then evaluated on a fed window
    [x] in a session that holds the variables [vs]. *)
Definition model (vs : varstore T) (config : Config) (x : list (list Z))
  : result (list (list T)) :=
  _ <- model_graph config ;;
  x <- placeholder_x config x ;;
  embed_w <- get_mat vs "embedding" "w" ;;
  embed_out <- embedding_lookup embed_w x ;;
  s <- rnn_states vs embed_out (num_rnn_steps config) ;;
  match last s with
  | None => Raise IndexError
  | Some rnn_last_output =>
      hid_w <- get_mat vs "hidden" "w" ;;
      hid_b <- get_vec vs "hidden" "b" ;;
      Ok (tanh2 (add_bias (matmul rnn_last_output hid_w) hid_b))
  end.

(** *** The update of one lane as the design document words it *)

Record gru_params : Type := mk_gru_params {
  p_Wr : list (list T);
  p_Wz : list (list T);
  p_W : list (list T);
  p_br : list T;
  p_bz : list T;
  p_b : list T
}.

(** [v . M + bias] for a vector [v]. *)
Definition spec_affine (v : list T) (M : list (list T)) (bias : list T) : list T :=
  zip_with s_add ((fun j => dot v (col M j)) <$> seq 0 (ncols M)) bias.

(** [reset_gate = sigmoid(concat(x, h_prev) . Wr + br)] *)
Definition spec_reset_gate (p : gru_params) (x h_prev : list T) : list T :=
  s_sigmoid <$> spec_affine (x ++ h_prev) (p_Wr p) (p_br p).

(** [update_gate = sigmoid(concat(x, h_prev) . Wz + bz)] *)
Definition spec_update_gate (p : gru_params) (x h_prev : list T) : list T :=
  s_sigmoid <$> spec_affine (x ++ h_prev) (p_Wz p) (p_bz p).

(** [candidate = tanh(concat(x, reset_gate * h_prev) . W + b)] *)
Definition spec_candidate (p : gru_params) (x h_prev : list T) : list T :=
  s_tanh <$> spec_affine
    (x ++ zip_with s_mul (spec_reset_gate p x h_prev) h_prev) (p_W p) (p_b p).

(** [h_next = update_gate * h_prev + (1 - update_gate) * candidate] *)
Definition spec_h_next (p : gru_params) (x h_prev : list T) : list T :=
  zip_with s_add
    (zip_with s_mul (spec_update_gate p x h_prev) h_prev)
    (zip_with s_mul (s_sub s_one <$> spec_update_gate p x h_prev)
                    (spec_candidate p x h_prev)).

(** The six parameters as found in a variable store. *)
Definition gru_params_of (vs : varstore T) : result gru_params :=
  Wr <- get_mat vs "GRU" "Wr" ;;
  Wz <- get_mat vs "GRU" "Wz" ;;
  W <- get_mat vs "GRU" "W" ;;
  br <- get_vec vs "GRU" "br" ;;
  bz <- get_vec vs "GRU" "bz" ;;
  b <- get_vec vs "GRU" "b" ;;
  Ok (mk_gru_params Wr Wz W br bz b).

(** The body of [cell] once the six variables are read. *)
Definition cell_body (p : gru_params) (x h_1 : list (list T)) : list (list T) :=
  let xh := concat1 x h_1 in
  let r := sigmoid2 (add_bias (matmul xh (p_Wr p)) (p_br p)) in
  let rh_1 := mul2 r h_1 in
  let xrh_1 := concat1 x rh_1 in
  let z := sigmoid2 (add_bias (matmul xh (p_Wz p)) (p_bz p)) in
  let h_tild := tanh2 (add_bias (matmul xrh_1 (p_W p)) (p_b p)) in
  add2 (mul2 z h_1) (mul2 (one_minus z) h_tild).

(** The states of one lane: [h_0], then one update per input vector. *)
Fixpoint spec_lane_states (p : gru_params) (h : list T) (xs : list (list T))
  : list (list T) :=
  match xs with
  | [] => [h]
  | x :: xs' => h :: spec_lane_states p (spec_h_next p x h) xs'
  end.

End Cell.

Arguments gru_params T : clear implicits.

End GRU.

(** ** The predictor of the loss head (notebook cell 8) *)
Module Loss.
Import Py Feeder TF.

Section Head.
Context {T : Type} {ST : Scalar T}.

(** Building the graph of [loss(config, hid_out)]: a [ValueError] for a
    negative dimension of the placeholder [y] or of a variable, for a number
    of sampled or of all classes below one, which the candidate sampler of
    [tf.nn.nce_loss] refuses, and for the copy
    [top_embed.assign(w[:embed_vis_depth, :])] when its sides differ. *)
Definition loss_graph (config : Config) : result unit :=
  if (0 <=? batch_size config)%Z
     && (0 <=? vocab_size config)%Z && (0 <=? hidden_size config)%Z
     && (1 <=? neg_samples config)%Z && (1 <=? vocab_size config)%Z
     && (0 <=? embed_vis_depth config)%Z
     && (embed_vis_depth config <=? vocab_size config)%Z
  then Ok tt else Raise ValueError.

(** Feeding the placeholder [y], of type [tf.int32] and shape
    [(batch_size, 1)]. *)
Definition placeholder_y (config : Config) (y : list (list Z)) : result (list (list Z)) :=
  feed_int32 (batch_size config) 1 y.

(** What evaluating [tf.nn.nce_loss] needs of its inputs.  The sampler draws
    [neg_samples] different classes out of [vocab_size], and the rows of [w]
    of the labels are looked up: too few classes and a label that is no row
    of [w] are an [InvalidArgumentError]. *)
Definition nce_run (config : Config) (w : list (list T)) (y : list (list Z))
  : result unit :=
  if (neg_samples config <=? vocab_size config)%Z
     && forallb (forallb (fun label => (0 <=? label)%Z && (label <? len w)%Z)) y
  then Ok tt else Raise InvalidArgumentError.

(** The variables [loss(config, hid_out)] declares.  The TensorBoard copy
    [top_n_embedding] is left out of the store. *)
Definition loss_variables (rand : string -> tensor T) (config : Config)
    (vs : varstore T) : varstore T :=
  let vs := new_variable rand "output" "w"
              [vocab_size config; hidden_size config] vsi_initializer vs in
  new_variable rand "output" "b" [vocab_size config] zero_initializer vs.

(** The dense scores of one lane as the design document words them,
    [representation . W^T + b]: the score of word [j] is the sum over [k] of
    [representation_k * W_jk], plus [b_j]. *)
Fixpoint spec_sum_products (acc : T) (u v : list T) : T :=
  match u, v with
  | a :: u', c :: v' => spec_sum_products (s_add acc (s_mul a c)) u' v'
  | _, _ => acc
  end.

Fixpoint spec_dense_scores (representation : list T) (w : list (list T))
    (b : list T) : list T :=
  match w, b with
  | w_j :: w', b_j :: b' =>
      s_add (spec_sum_products s_zero representation w_j) b_j
      :: spec_dense_scores representation w' b'
  | _, _ => []
  end.

(** [y_hat = tf.argmax(tf.matmul(hid_out, w, transpose_b=True) + b, axis=1)] *)
Definition y_hat (vs : varstore T) (hid_out : list (list T)) : result (list Z) :=
  w <- get_mat vs "output" "w" ;;
  b <- get_vec vs "output" "b" ;;
  Ok (argmax1 (add_bias (matmul_transpose_b hid_out w) b)).

End Head.

End Loss.

(** ** The training loop (notebook cell 13) *)
Module Trainer.
Import Py Feeder TF.
Local Open Scope Z_scope.

(** The parts of the graph that TensorFlow supplies: the sampled (NCE) batch
    loss, which draws negative samples, and the value the momentum optimizer
    gives a trainable variable. *)
Class Backend (T : Type) : Type := {
  nce_batch_loss : varstore T -> batch -> nat -> T;
  momentum_step : varstore T -> batch -> nat -> string -> tensor T -> tensor T
}.

Section Training.
Context {T : Type} {ST : Scalar T} {BT : Backend T}.

(** A session: the variables, the counter [global_step] (not trainable),
    and the state of the candidate sampler. *)
Record session : Type := mk_session {
  vars : varstore T;
  global_step : Z;
  sampler : nat
}.

(** [optimizer.minimize(batch_loss, global_step=step)]: every trainable
    variable is updated, then the counter is incremented. *)
Definition train_op (s : session) (t : batch) : session :=
  mk_session
    (map_imap (fun name v =>
       Some (if var_trainable v
             then mk_variable (var_shape v) (var_init v) true
                    (momentum_step (vars s) t (sampler s) name (var_value v))
             else v)) (vars s))
    (global_step s + 1)%Z
    (S (sampler s)).

(** What [sess.run([g.train_op, g.batch_loss, g.step], feed_dict=feed)]
    leaves and returns when it succeeds: the session after the update, the
    loss of the batch computed from the variables the step started from, and
    the counter as it is fetched, after [train_op] has incremented it. *)
Definition train_step (s : session) (t : batch) : session * T * Z :=
  (train_op s t, nce_batch_loss (vars s) t (sampler s), (global_step s + 1)%Z).

(** What the run evaluates on the way.  The graph must have been built; both
    feeds are converted before any node runs; then the forward pass looks up
    the tokens of the window, and the loss the labels. *)
Definition run_feed (config : Config) (vs : varstore T) (t : batch) : result unit :=
  _ <- GRU.model_graph config ;;
  _ <- Loss.loss_graph config ;;
  _ <- GRU.placeholder_x config t.1 ;;
  y <- Loss.placeholder_y config t.2 ;;
  _ <- GRU.model vs config t.1 ;;
  w <- get_mat vs "output" "w" ;;
  Loss.nce_run config w y.

(** [sess.run([g.train_op, g.batch_loss, g.step], feed_dict=feed)] *)
Definition run_train (config : Config) (s : session) (t : batch)
  : result (session * T * Z) :=
  _ <- run_feed config (vars s) t ;;
  Ok (train_step s t).

Definition move_avg_len : Z := 20.

(** [np.zeros(n)] *)
Definition np_zeros (n : Z) : list T := replicate (Z.to_nat n) s_zero.

(** [np.mean(a)] *)
Definition np_mean (a : list T) : T :=
  s_div (foldl s_add s_zero a) (s_of_Z (len a)).

Record train_state : Type := mk_train_state {
  sess : session;
  move_avg_loss : list T
}.

Definition train_init (s : session) : train_state :=
  mk_train_state s (np_zeros move_avg_len).

Definition summary_interval : Z := 250.

(** [sess.run([g.assign_embed_in, g.assign_embed_out]);
     writer.add_summary(sess.run(g.summ, feed_dict=feed), step)]:
    the merged summaries evaluate the batch loss once more, which draws new
    negative samples.  The TensorBoard copies of the embeddings and the log
    file are left out. *)
Definition run_summaries (s : session) : session :=
  mk_session (vars s) (global_step s) (S (sampler s)).

(** The statements of the inner loop after the run:
    [move_avg_loss[step % move_avg_len] = batch_loss], then the summaries
    every [summary_interval] steps. *)
Definition record_step (st : train_state) (r : session * T * Z) : train_state :=
  let '(s', batch_loss, step) := r in
  let buffer :=
    <[Z.to_nat (step `mod` move_avg_len) := batch_loss]> (move_avg_loss st) in
  mk_train_state
    (if (step `mod` summary_interval =? 0)%Z then run_summaries s' else s')
    buffer.

(** The state after one turn of the inner loop whose run succeeds. *)
Definition train_batch (st : train_state) (t : batch) : train_state :=
  record_step st (train_step (sess st) t).

(** One turn of the inner loop. *)
Definition loop_body (config : Config) (st : train_state) (t : batch)
  : result train_state :=
  r <- run_train config (sess st) t ;;
  Ok (record_step st r).

(** The inner loop over the batches [ts]: the state it reaches, and the
    exception that ended it, if any. *)
Fixpoint train_batches (config : Config) (st : train_state) (ts : list batch)
  : train_state * option exn :=
  match ts with
  | [] => (st, None)
  | t :: ts' =>
      match loop_body config st t with
      | Raise e => (st, Some e)
      | Ok st' => train_batches config st' ts'
      end
  end.

(** The session after one turn of the inner loop. *)
Definition session_after (s : session) (t : batch) : session :=
  sess (train_batch (mk_train_state s []) t).

(** One epoch.  The progress bar is given [total=epoch_len(config,
    word_array)] before the feeder takes its first step; then the batches of
    the feeder are processed, and the mean of the buffer is reported.  An
    exception of a run ends the epoch where it is raised, an exception of
    the feeder after the batches it yielded. *)
Definition train_epoch (config : Config) (word_array : list Z)
    (st : train_state) (g : rng) : train_state * rng * result T :=
  match epoch_len config word_array with
  | Raise e => (st, g, Raise e)
  | Ok _ =>
      let '(d, g') := feeder config word_array g in
      let '(st', stopped) := train_batches config st (yielded d) in
      match stopped with
      | Some e => (st', g', Raise e)
      | None =>
          match raised d with
          | Some e => (st', g', Raise e)
          | None => (st', g', Ok (np_mean (move_avg_loss st')))
          end
      end
  end.

(** [for e in range(config.epochs): ...], collecting what is printed. *)
Fixpoint train_epochs (n : nat) (config : Config) (word_array : list Z)
    (st : train_state) (g : rng) : train_state * rng * result (list T) :=
  match n with
  | O => (st, g, Ok [])
  | S n' =>
      let '(st', g', r) := train_epoch config word_array st g in
      match r with
      | Raise e => (st', g', Raise e)
      | Ok m =>
          let '(st'', g'', rs) := train_epochs n' config word_array st' g' in
          (st'', g'', ms <- rs ;; Ok (m :: ms))
      end
  end.

(** The losses of the batches [ts], processed in order from session [s]. *)
Fixpoint batch_losses (s : session) (ts : list batch) : list T :=
  match ts with
  | [] => []
  | t :: ts' =>
      nce_batch_loss (vars s) t (sampler s) :: batch_losses (session_after s t) ts'
  end.

Definition train (config : Config) (word_array : list Z) (s : session) (g : rng)
  : train_state * rng * result (list T) :=
  train_epochs (Z.to_nat (epochs config)) config word_array (train_init s) g.

End Training.

Arguments session T : clear implicits.
Arguments train_state T : clear implicits.

End Trainer.

(** ** Greedy generation (prediction cell of the LSTM notebook) *)
Module Generator.
Import Py Feeder TF Trainer.

Section Generation.
Context {T : Type} {ST : Scalar T}.

(** [hid_out] as a function of the variables and the fed window: the
    notebook's [model], whichever recurrent cell it is built from. *)
Variable encoder : varstore T -> Config -> list (list Z) -> result (list (list T)).

(** [sess.run([g.y_hat], feed_dict={g.x: x})] *)
Definition run_y_hat (s : session T) (config : Config) (x : list (list Z))
  : result (list Z) :=
  hid_out <- encoder (vars s) config x ;;
  Loss.y_hat (vars s) hid_out.

(** [n] turns of the loop, from turn [i]:
    [feed = {g.x: np.reshape(input[i:(i+num_rnn_steps)], (1, -1))};
     [pred] = sess.run([g.y_hat], feed_dict=feed);
     input = np.append(input, [pred])]. *)
Fixpoint generate_from (s : session T) (config : Config) (n : nat) (i : Z)
    (input : list Z) : result (list Z) :=
  match n with
  | O => Ok input
  | S n' =>
      x <- reshape (slice input i (i + num_rnn_steps config)) 1 (-1) ;;
      pred <- run_y_hat s config x ;;
      generate_from s config n' (i + 1) (input ++ pred)
  end.

Definition with_batch_size (config : Config) (bs : Z) : Config :=
  mk_Config (vocab_size config) bs (num_rnn_steps config) (embed_size config)
    (rnn_size config) (hidden_size config) (neg_samples config)
    (epochs config) (embed_vis_depth config).

(** The prediction cell: [config.batch_size = 1], the seed is
    [word_array[start:(start+num_rnn_steps)]], and [n] tokens are appended
    (the notebook runs [n = 250]). *)
Definition generate (s : session T) (config : Config) (word_array : list Z)
    (start : Z) (n : nat) : result (list Z) :=
  let config := with_batch_size config 1 in
  let input := slice word_array start (start + num_rnn_steps config) in
  generate_from s config n 0 input.

End Generation.

End Generator.

(** ** Scalars: the real numbers, float32, and formal expressions *)
Module Scalars.
Import TF.

(** [tf.sigmoid] on the reals. *)
Definition sigmoid (x : R) : R := (1 / (1 + exp (- x)))%R.

#[export] Instance R_Scalar : Scalar R := {|
  s_zero := 0%R;
  s_one := 1%R;
  s_add := Rplus;
  s_sub := Rminus;
  s_mul := Rmult;
  s_div := Rdiv;
  s_of_Z := IZR;
  s_sigmoid := sigmoid;
  s_tanh := tanh;
  s_ltb := fun a b => if Rlt_dec a b then true else false
|}.

(** *** The float32 numbers of the graph

    A float32 is an IEEE 754 binary32 number: 24 bits of precision, exponents
    below 128.  Sums, differences, products, quotients and comparisons are
    those of the standard, rounded to the nearest float, ties to even. *)
Definition float32 : Type := SpecFloat.spec_float.

Definition f32_prec : Z := 24.
Definition f32_emax : Z := 128.

Definition f32_zero : float32 := SpecFloat.S754_zero false.
Definition f32_one : float32 := SpecFloat.SFone f32_prec f32_emax.
Definition f32_add : float32 -> float32 -> float32 := SpecFloat.SFadd f32_prec f32_emax.
Definition f32_sub : float32 -> float32 -> float32 := SpecFloat.SFsub f32_prec f32_emax.
Definition f32_mul : float32 -> float32 -> float32 := SpecFloat.SFmul f32_prec f32_emax.
Definition f32_div : float32 -> float32 -> float32 := SpecFloat.SFdiv f32_prec f32_emax.
Definition f32_ltb : float32 -> float32 -> bool := SpecFloat.SFltb.

(** The float32 nearest to an integer. *)
Definition f32_of_Z (z : Z) : float32 :=
  SpecFloat.binary_normalize f32_prec f32_emax z 0 false.

(** The exponential and the hyperbolic tangent are kernels of the library,
    not code of the notebook.  They are taken to return the float32 nearest
    to the exact value, which is computed in a wider format, 96 bits of
    precision: the exponential from its series after halving the argument
    until it is below one eighth, the hyperbolic tangent from the
    exponential, [1 - 2 / (exp(2 x) + 1)], and below [2^-12] from
    [x - x^3 / 3]. *)
Definition wide_prec : Z := 96.
Definition wide_emax : Z := 65536.

Definition wide_one : SpecFloat.spec_float := SpecFloat.SFone wide_prec wide_emax.

Definition wide_of_Z (z : Z) : SpecFloat.spec_float :=
  SpecFloat.binary_normalize wide_prec wide_emax z 0 false.

Definition wide_add := SpecFloat.SFadd wide_prec wide_emax.
Definition wide_sub := SpecFloat.SFsub wide_prec wide_emax.
Definition wide_mul := SpecFloat.SFmul wide_prec wide_emax.
Definition wide_div := SpecFloat.SFdiv wide_prec wide_emax.

(** Rounding a number of the wider format to float32. *)
Definition narrow (x : SpecFloat.spec_float) : float32 :=
  match x with
  | SpecFloat.S754_finite s m e => SpecFloat.binary_round f32_prec f32_emax s m e
  | _ => x
  end.

(** [1 + y/1 (1 + y/2 (... (1 + y/n)))], the first [n + 1] terms of the
    series of [exp y]. *)
Fixpoint exp_series (y : SpecFloat.spec_float) (n : nat) (acc : SpecFloat.spec_float)
  : SpecFloat.spec_float :=
  match n with
  | O => acc
  | S n' =>
      exp_series y n'
        (wide_add wide_one (wide_div (wide_mul y acc) (wide_of_Z (Z.of_nat n))))
  end.

Definition exp_wide (x : SpecFloat.spec_float) : SpecFloat.spec_float :=
  match x with
  | SpecFloat.S754_nan => x
  | SpecFloat.S754_infinity false => x
  | SpecFloat.S754_infinity true => SpecFloat.S754_zero false
  | SpecFloat.S754_zero _ => wide_one
  | SpecFloat.S754_finite s m e =>
      let k := Z.max 0 (Zpos (SpecFloat.digits2_pos m) + e + 3) in
      Nat.iter (Z.to_nat k) (fun t => wide_mul t t)
        (exp_series (SpecFloat.S754_finite s m (e - k)) 24 wide_one)
  end.

Definition tanh_wide (x : SpecFloat.spec_float) : SpecFloat.spec_float :=
  match x with
  | SpecFloat.S754_nan => x
  | SpecFloat.S754_infinity s => if s then SpecFloat.SFopp wide_one else wide_one
  | SpecFloat.S754_zero _ => x
  | SpecFloat.S754_finite s m e =>
      if (Zpos (SpecFloat.digits2_pos m) + e <=? -12)%Z
      then wide_sub x (wide_div (wide_mul x (wide_mul x x)) (wide_of_Z 3))
      else
        let t := exp_wide (SpecFloat.S754_finite false m (e + 1)) in
        let r := wide_sub wide_one (wide_div (wide_of_Z 2) (wide_add t wide_one)) in
        if s then SpecFloat.SFopp r else r
  end.

Definition f32_exp (x : float32) : float32 := narrow (exp_wide x).

Definition f32_tanh (x : float32) : float32 := narrow (tanh_wide x).

(** [tf.sigmoid] on float32: the kernel computes [1 / (1 + exp(-x))] in
    float32 arithmetic. *)
Definition f32_sigmoid (x : float32) : float32 :=
  f32_div f32_one (f32_add f32_one (f32_exp (SpecFloat.SFopp x))).

#[export] Instance f32_Scalar : Scalar float32 := {|
  s_zero := f32_zero;
  s_one := f32_one;
  s_add := f32_add;
  s_sub := f32_sub;
  s_mul := f32_mul;
  s_div := f32_div;
  s_of_Z := f32_of_Z;
  s_sigmoid := f32_sigmoid;
  s_tanh := f32_tanh;
  s_ltb := f32_ltb
|}.

(** Expressions over named inputs: evaluating the graph on them shows the
    formula it computes. *)
Inductive expr : Type :=
| Var (name : string)
| Const (c : Z)
| Add (a b : expr)
| Sub (a b : expr)
| Mul (a b : expr)
| Div (a b : expr)
| Sigmoid (a : expr)
| Tanh (a : expr).

#[export] Instance expr_Scalar : Scalar expr := {|
  s_zero := Const 0;
  s_one := Const 1;
  s_add := Add;
  s_sub := Sub;
  s_mul := Mul;
  s_div := Div;
  s_of_Z := Const;
  s_sigmoid := Sigmoid;
  s_tanh := Tanh;
  s_ltb := fun _ _ => false
|}.

End Scalars.

(** ** Concrete runs used as examples *)
Module Scenarios.
Import Py Feeder Scalars.
Local Open Scope Z_scope.

(** Scenario A of the design: ten tokens, two rows, windows of two steps
    (the other sizes are those of scenario B). *)
Definition scenario_A_config : Config :=
  mk_Config 100 2 2 8 16 12 4 1 10.

Definition scenario_A_stream : list Z := [0; 1; 2; 3; 4; 5; 6; 7; 8; 9].

(** The same with rows too short for a window of five steps. *)
Definition narrow_config : Config :=
  mk_Config 100 2 5 8 16 12 4 1 10.

Definition narrow_stream : list Z := [0; 1; 2; 3].

Definition zero_rows_config : Config :=
  mk_Config 100 0 2 8 16 12 4 1 10.

Definition negative_rows_config : Config :=
  mk_Config 100 (-2) 2 8 16 12 4 1 10.

(** A generator that always draws zero. *)
Definition rng0 : rng := mk_rng (fun _ => O) O.

(** A GRU of one unit on inputs of size one, two lanes, with named weights. *)
Definition named_weights (name : string) : TF.tensor Scalars.expr :=
  if decide (name = "GRU/Wr") then TF.Mat [[Scalars.Var "wr0"]; [Scalars.Var "wr1"]]
  else if decide (name = "GRU/Wz") then TF.Mat [[Scalars.Var "wz0"]; [Scalars.Var "wz1"]]
  else if decide (name = "GRU/W") then TF.Mat [[Scalars.Var "w0"]; [Scalars.Var "w1"]]
  else TF.Mat [].

Definition named_store : TF.varstore Scalars.expr :=
  GRU.init_rnn_cell named_weights 1 1 2 ∅.

(** The same store with one more variable, outside the scope [GRU]. *)
Definition named_store_more : TF.varstore Scalars.expr :=
  TF.new_variable named_weights "hidden" "b" [1] TF.zero_initializer named_store.

(** The same GRU over the reals, all weights equal to one. *)
Definition unit_weights (name : string) : TF.tensor R :=
  TF.Mat [[1%R]; [1%R]].

Definition unit_store : TF.varstore R :=
  GRU.init_rnn_cell unit_weights 1 1 2 ∅.

(** The named store after its initial state has been given the rows
    [a] and [b]. *)
Definition lanes_store : TF.varstore Scalars.expr :=
  <["GRU/h_init" := TF.mk_variable [2; 1]%Z TF.zero_initializer true
       (TF.Mat [[Scalars.Var "a"]; [Scalars.Var "b"]])]> named_store.

(** A backend for running the loop: the loss of a batch is the number of
    batches sampled before it, and the optimizer leaves the variables alone. *)
Definition counting_backend : Trainer.Backend Scalars.expr :=
  {| Trainer.nce_batch_loss := fun _ _ n => Scalars.Const (Z.of_nat n);
     Trainer.momentum_step := fun _ _ _ _ v => v |}.

Definition fresh_session : Trainer.session Scalars.expr :=
  Trainer.mk_session named_store 0 O.

(** A complete model with three words, one unit per layer and windows of
    two steps, one lane. *)
Definition tiny_config : Config := mk_Config 3 1 2 1 1 1 1 1 3.

Definition tiny_weights (name : string) : TF.tensor Scalars.expr :=
  if decide (name = "embedding/w")
  then TF.Mat [[Scalars.Var "e0"]; [Scalars.Var "e1"]; [Scalars.Var "e2"]]
  else if decide (name = "hidden/w") then TF.Mat [[Scalars.Var "hw"]]
  else if decide (name = "output/w")
  then TF.Mat [[Scalars.Var "o0"]; [Scalars.Var "o1"]; [Scalars.Var "o2"]]
  else named_weights name.

Definition tiny_store : TF.varstore Scalars.expr :=
  Loss.loss_variables tiny_weights tiny_config
    (GRU.model_variables tiny_weights tiny_config ∅).

End Scenarios.

(** ** The encoder as a function of the tokens of one lane *)
Module Encoder.
Import Py Feeder TF GRU.

Section Lane.
Context {T : Type} {ST : Scalar T}.

(** The embedding vectors of the tokens of a lane. *)
Definition spec_embed (embed_w : list (list T)) (tokens : list Z) : list (list T) :=
  (fun id : Z => nth (Z.to_nat id) embed_w []) <$> tokens.

(** The state of a lane after its inputs: one gated update per input. *)
Definition spec_final_state (p : gru_params T) (h0 : list T)
    (inputs : list (list T)) : list T :=
  foldl (fun h x => spec_h_next p x h) h0 inputs.

(** The representation of a lane: the dense [tanh] layer on its final
    state. *)
Definition spec_lane_hidden (p : gru_params T) (hid_w : list (list T))
    (hid_b h0 : list T) (inputs : list (list T)) : list T :=
  s_tanh <$> spec_affine (spec_final_state p h0 inputs) hid_w hid_b.

End Lane.

(** A window of the shape the placeholder declares. *)
Definition window_shape (config : Config) (x : list (list Z)) : Prop :=
  len x = batch_size config
  /\ Forall (fun row => len row = num_rnn_steps config) x.

(** Every token is a row index of a table of [n] rows. *)
Definition tokens_in (n : Z) (x : list (list Z)) : Prop :=
  Forall (Forall (fun id => 0 <= id < n)%Z) x.

(** The window as the placeholder holds it. *)
Definition as_int32 (x : list (list Z)) : list (list Z) :=
  (fun row : list Z => int32 <$> row) <$> x.

(** A configuration of the kind the notebook is run with: every size is at
    least one, the vocabulary fits the [int32] tokens, no more classes are
    sampled than there are, and no more embeddings are shown than there
    are. *)
Definition well_sized (config : Config) : Prop :=
  (1 <= batch_size config /\ 1 <= num_rnn_steps config
   /\ 1 <= vocab_size config <= 2147483648
   /\ 1 <= embed_size config /\ 1 <= rnn_size config /\ 1 <= hidden_size config
   /\ 1 <= neg_samples config <= vocab_size config
   /\ 0 <= embed_vis_depth config <= vocab_size config)%Z.

End Encoder.


(** ** The cells around the model: word table, metadata file, readable text *)
Module Notebook.
Import Py.

(** [reverse_dict = {v: k for k, v in dictionary.items()}]; [items] are the
    entries of [dictionary] in the order the comprehension visits them. *)
Definition reverse_dict (items : list (string * Z)) : gmap Z string :=
  foldl (fun d kv => <[kv.2 := kv.1]> d) ∅ items.

(** What a loop of writes did: the strings it wrote, and the key of the
    [KeyError] that ended it, if any. *)
Record written : Type := mk_written {
  lines : list string;
  key_error : option Z
}.

Definition newline : string := String (Ascii.ascii_of_nat 10) EmptyString.

(** The body of [for i in ...: f.write(reverse_dict[i]+'\n')]. *)
Fixpoint write_words (rd : gmap Z string) (idx : list Z) : written :=
  match idx with
  | [] => mk_written [] None
  | i :: rest =>
      match rd !! i with
      | None => mk_written [] (Some i)
      | Some word =>
          let w := write_words rd rest in
          mk_written ((word +:+ newline) :: lines w) (key_error w)
      end
  end.

(** [for i in range(config.embed_vis_depth): f.write(reverse_dict[i]+'\n')] *)
Definition write_metadata (rd : gmap Z string) (embed_vis_depth : Z) : written :=
  write_words rd (range embed_vis_depth).

(** The characters of the string the words are tested against: the two
    parentheses, the double quote, and [?!,.;:]. *)
Definition punctuation : string :=
  "()" +:+ String (Ascii.ascii_of_nat 34) "?!,.;:".

(** [w in s] on strings: [w] occurs in [s] as a run of characters. *)
Fixpoint contains (s w : string) : bool :=
  String.prefix w s
  || match s with
     | EmptyString => false
     | String _ s' => contains s' w
     end.

(** [readable = ''; for word in passage_predict: if word in punctuation:
    readable += word else: readable += ' ' + word] *)
Definition readable (passage_predict : list string) : string :=
  foldl (fun acc word =>
           if contains punctuation word then acc +:+ word
           else acc +:+ " " +:+ word)
        EmptyString passage_predict.

End Notebook.

(** ** Checkpoints: the saver of the graph and the training loop that uses it *)
Module Checkpoints.
Import Py Feeder TF Trainer.

Section Saving.
Context {T : Type} {ST : Scalar T} {BT : Backend T}.

(** A checkpoint file: the tag in its name and the saved values, the
    variables and the step counter. *)
Record checkpoint : Type := mk_checkpoint {
  ck_tag : Z;
  ck_vars : varstore T;
  ck_step : Z
}.

(** [tf.train.Saver(max_to_keep=2)] *)
Definition max_to_keep : nat := 2.

(** [g.saver.save(sess, logfile_name, global_step=e)], on the list of
    checkpoints the saver keeps, oldest first: a checkpoint of the same name
    is replaced, the new one is the most recent, and the oldest is deleted
    when more than [max_to_keep] are left. *)
Definition saver_save (kept : list checkpoint) (s : session T) (e : Z)
  : list checkpoint :=
  let kept := filter (fun c => ck_tag c <> e) kept
              ++ [mk_checkpoint e (vars s) (global_step s)] in
  if decide (max_to_keep < length kept) then drop 1 kept else kept.

(** The training loop with its last statement,
    [last_saved = g.saver.save(sess, logfile_name, global_step=e)],
    from epoch [e] on. *)
Fixpoint train_epochs_saving (n : nat) (e : Z) (config : Config)
    (word_array : list Z) (st : train_state T) (g : rng) (kept : list checkpoint)
  : train_state T * rng * result (list T) * list checkpoint :=
  match n with
  | O => (st, g, Ok [], kept)
  | S n' =>
      let '(st', g', r) := train_epoch config word_array st g in
      match r with
      | Raise ex => (st', g', Raise ex, kept)
      | Ok m =>
          let kept' := saver_save kept (sess st') e in
          let '(st'', g'', rs, kept'') :=
            train_epochs_saving n' (e + 1) config word_array st' g' kept' in
          (st'', g'', (ms <- rs ;; Ok (m :: ms)), kept'')
      end
  end.

Definition train_saving (config : Config) (word_array : list Z) (s : session T)
    (g : rng) : train_state T * rng * result (list T) * list checkpoint :=
  train_epochs_saving (Z.to_nat (epochs config)) 0 config word_array
    (train_init s) g [].

End Saving.

Arguments checkpoint T : clear implicits.

End Checkpoints.

(** ** The cells as a whole: building the graph, training, predicting *)
Module Cells.
Import Py Feeder TF Trainer Checkpoints Generator.
Local Open Scope Z_scope.

Section Whole.
Context {T : Type} {ST : Scalar T} {BT : Backend T}.

(** Building the graph, statement by statement.  A shape that does not fit
    is a [ValueError], as in [GRU.model_graph] and [Loss.loss_graph].  The
    initial value of a variable is made when the variable is declared, and
    [vsi_initializer] divides by the number of inputs of the weight, its
    first dimension: a weight without inputs is a [ZeroDivisionError], for
    [GRU/Wr] when [embed_size + rnn_size = 0], for [hidden/w] when
    [rnn_size = 0], for [output/w] when [vocab_size = 0]. *)
Definition build_graph (config : Config) : result unit :=
  (* model: the placeholder, the embedding table and its copy, the first step *)
  if negb ((0 <=? batch_size config) && (0 <=? num_rnn_steps config)
           && (0 <=? vocab_size config) && (0 <=? embed_size config)
           && (0 <=? embed_vis_depth config)
           && (embed_vis_depth config <=? vocab_size config)
           && (1 <=? num_rnn_steps config))
  then Raise ValueError
  (* init_rnn_cell *)
  else if negb (0 <=? rnn_size config) then Raise ValueError
  else if embed_size config + rnn_size config =? 0 then Raise ZeroDivisionError
  (* the hidden layer *)
  else if negb (0 <=? hidden_size config) then Raise ValueError
  else if rnn_size config =? 0 then Raise ZeroDivisionError
  (* loss: the output layer, then the candidate sampler *)
  else if vocab_size config =? 0 then Raise ZeroDivisionError
  else if negb (1 <=? neg_samples config) then Raise ValueError
  else Ok tt.

(** [g = MyGraph(config)] and [sess.run(g.init)]: the graph of [model] and
    of [loss] is built, and the variables get their initial values. *)
Definition MyGraph (rand : string -> tensor T) (config : Config)
  : result (varstore T) :=
  _ <- build_graph config ;;
  Ok (Loss.loss_variables rand config (GRU.model_variables rand config ∅)).

(** The variables [model(config)] and [loss(config, hid_out)] declare, by
    name, shape and initializer. *)
Definition declarations (config : Config) : list (string * list Z * initializer) :=
  [("embedding/w", [vocab_size config; embed_size config], rui_initializer);
   ("GRU/Wr", [embed_size config + rnn_size config; rnn_size config], vsi_initializer);
   ("GRU/Wz", [embed_size config + rnn_size config; rnn_size config], vsi_initializer);
   ("GRU/W", [embed_size config + rnn_size config; rnn_size config], vsi_initializer);
   ("GRU/br", [rnn_size config], one_initializer);
   ("GRU/bz", [rnn_size config], one_initializer);
   ("GRU/b", [rnn_size config], zero_initializer);
   ("GRU/h_init", [batch_size config; rnn_size config], zero_initializer);
   ("hidden/w", [rnn_size config; hidden_size config], vsi_initializer);
   ("hidden/b", [hidden_size config], zero_initializer);
   ("output/w", [vocab_size config; hidden_size config], vsi_initializer);
   ("output/b", [vocab_size config], zero_initializer)].

(** The variables the graph of [config] declares, as a store. *)
Definition graph_variables (config : Config) : varstore T :=
  Loss.loss_variables (fun _ => Vec []) config
    (GRU.model_variables (fun _ => Vec []) config ∅).

(** The store [vs] holds every variable of [declared], declared with the
    same shape, and its value has that shape. *)
Definition holds_variables (declared vs : varstore T) : Prop :=
  forall (name : string) (v : variable T),
    declared !! name = Some v ->
    exists v' : variable T,
      vs !! name = Some v'
      /\ var_shape v' = var_shape v
      /\ has_shape (var_value v') (var_shape v).

(** A store of a session of the graph of [config]. *)
Definition session_of (config : Config) (vs : varstore T) : Prop :=
  holds_variables (graph_variables config) vs.



(** The training cell: the graph is built and initialised, then the epochs
    run, each followed by a checkpoint. *)
Definition training_cell (rand : string -> tensor T) (config : Config)
    (word_array : list Z) (g : rng)
  : result (train_state T * rng * result (list T) * list (checkpoint T)) :=
  vs <- MyGraph rand config ;;
  Ok (train_saving config word_array (mk_session vs 0 O) g).

(** [g.saver.restore(sess, last_saved)] into the variables [declared] of a
    new graph: a variable the checkpoint does not hold is a [NotFoundError],
    one it holds with another shape an [InvalidArgumentError]; the values
    and the step counter are those of the checkpoint. *)
Definition saver_restore (declared : varstore T) (c : checkpoint T)
  : result (session T) :=
  if bool_decide (map_Forall (fun name (_ : variable T) =>
                                is_Some (ck_vars c !! name)) declared)
  then
    if bool_decide (map_Forall (fun name (v : variable T) =>
                                  var_shape <$> (ck_vars c !! name)
                                  = Some (var_shape v)) declared)
    then Ok (mk_session
               (map_imap (fun name (v : variable T) =>
                  (fun saved : variable T =>
                     mk_variable (var_shape v) (var_init v) (var_trainable v)
                       (var_value saved)) <$> (ck_vars c !! name)) declared)
               (ck_step c) O)
    else Raise InvalidArgumentError
  else Raise NotFoundError.

(** The prediction cell on the graph of the hand-coded model:
    [config.batch_size = 1], the graph is built anew, the last checkpoint is
    restored, and the loop of [generate] runs. *)
Definition prediction_cell (rand : string -> tensor T) (last_saved : checkpoint T)
    (config : Config) (word_array : list Z) (start : Z) (n : nat)
  : result (list Z) :=
  declared <- MyGraph rand (with_batch_size config 1) ;;
  s <- saver_restore declared last_saved ;;
  generate GRU.model s config word_array start n.

End Whole.

End Cells.

(** ** More concrete runs *)
Module MoreScenarios.
Import Py Feeder Scalars Scenarios.
Local Open Scope Z_scope.

(** A generator whose draws count up from one. *)
Definition rng_up : rng := mk_rng (fun n => (n + 1)%nat) O.

(** Twelve tokens in two rows: three start columns for windows of two. *)
Definition twelve_stream : list Z := [0; 1; 2; 3; 4; 5; 6; 7; 8; 9; 10; 11].

(** The same run over three epochs. *)
Definition three_epoch_config : Config := mk_Config 100 2 2 8 16 12 4 3 10.

(** The tiny model with two lanes, and a stream of its three words. *)
Definition two_lane_config : Config := mk_Config 3 2 2 1 1 1 1 1 3.

Definition two_lane_store : TF.varstore expr :=
  GRU.model_variables tiny_weights two_lane_config ∅.

Definition three_word_stream : list Z := [0; 1; 2; 0; 1; 2; 0; 1].

(** An output layer over the reals for two words: unit weights, zero
    bias. *)
Definition unit_head_store : TF.varstore R :=
  Loss.loss_variables unit_weights (mk_Config 2 1 1 1 1 1 1 1 2) ∅.

(** A backend over the reals whose every batch has loss two and whose
    optimizer leaves the variables alone. *)
Definition constant_backend : Trainer.Backend R :=
  {| Trainer.nce_batch_loss := fun _ _ _ => 2%R;
     Trainer.momentum_step := fun _ _ _ _ v => v |}.

Definition unit_session : Trainer.session R := Trainer.mk_session unit_store 0 O.

Definition one_batch : batch := ([[1; 2]], [[3]]).

(** The tiny model run over three epochs, a session that holds its
    variables, and a backend whose losses count up from five. *)
Definition tiny_three_epochs : Config := mk_Config 3 1 2 1 1 1 1 3 3.

Definition tiny_session : Trainer.session expr := Trainer.mk_session tiny_store 0 O.

Definition offset_backend : Trainer.Backend expr :=
  {| Trainer.nce_batch_loss := fun _ _ n => Const (Z.of_nat n + 5);
     Trainer.momentum_step := fun _ _ _ _ v => v |}.

(** The tiny model over float32: the three words are embedded as -1, 0
    and 1, every weight of the GRU and of the hidden layer is one, and the
    output layer scores a representation [h] as [-h], [0] and [h]. *)
Definition f32_tiny_weights (name : string) : TF.tensor float32 :=
  if bool_decide (name = "embedding/w") || bool_decide (name = "output/w")
  then TF.Mat [[f32_of_Z (-1)]; [f32_of_Z 0]; [f32_of_Z 1]]
  else if decide (name = "hidden/w") then TF.Mat [[f32_one]]
  else TF.Mat [[f32_one]; [f32_one]].

Definition f32_tiny_store : TF.varstore float32 :=
  Loss.loss_variables f32_tiny_weights tiny_config
    (GRU.model_variables f32_tiny_weights tiny_config ∅).

(** A GRU of one unit over float32, one lane, every weight one. *)
Definition f32_unit_store : TF.varstore float32 :=
  GRU.init_rnn_cell (fun _ => TF.Mat [[f32_one]; [f32_one]]) 1 1 1 ∅.

(** The parameters of that GRU as the cell reads them. *)
Definition f32_unit_params : GRU.gru_params float32 :=
  GRU.mk_gru_params [[f32_one]; [f32_one]] [[f32_one]; [f32_one]] [[f32_one]; [f32_one]]
    [f32_one] [f32_one] [f32_zero].

(** Parameters of a GRU of one unit whose update gate weighs the input by
    [10^30] and the previous state by [-10^30]. *)
Definition f32_steep_params : GRU.gru_params float32 :=
  GRU.mk_gru_params [[f32_one]; [f32_one]]
    [[f32_of_Z (10 ^ 30)]; [f32_of_Z (- 10 ^ 30)]] [[f32_one]; [f32_one]]
    [f32_one] [f32_one] [f32_zero].

(** An output layer over float32 that scores the representation [h] as
    [h], [3 h] and [2 h]. *)
Definition f32_head_store : TF.varstore float32 :=
  Loss.loss_variables
    (fun _ => TF.Mat [[f32_of_Z 1]; [f32_of_Z 3]; [f32_of_Z 2]])
    (mk_Config 3 1 1 1 1 1 1 1 3) ∅.

(** A dictionary of three words. *)
Definition three_words : list (string * Z) := [("the", 0); ("holmes", 1); (",", 2)].

End MoreScenarios.

(* ===================================================================== *)
(** * Part II: properties                                                 *)
(* ===================================================================== *)

Import Py Feeder TF.

(** ** The shuffle is a permutation, whatever numbers are drawn *)

Section ShuffleFacts.
Context {A : Type}.
Implicit Types x : list A.

Lemma swap_length x i j : length (swap x i j) = length x.
Proof.
  unfold swap. destruct (x !! i), (x !! j); trivial.
  now rewrite !length_insert.
Qed.

Lemma swap_Permutation x i j : swap x i j ≡ₚ x.
Proof.
  unfold swap.
  destruct (x !! i) as [xi|] eqn:Hi; [|reflexivity].
  destruct (x !! j) as [xj|] eqn:Hj; [|reflexivity].
  pose proof (lookup_lt_Some _ _ _ Hi) as Hli.
  pose proof (lookup_lt_Some _ _ _ Hj) as Hlj.
  symmetry. apply Permutation_inj. split.
  - now rewrite !length_insert.
  - exists (fun k => if decide (k = i) then j else if decide (k = j) then i else k).
    split.
    + intros a b. repeat case_decide; intros; subst; congruence.
    + intros k. repeat case_decide; subst.
      * rewrite list_lookup_insert_eq; [assumption|now rewrite length_insert].
      * rewrite list_lookup_insert_ne by congruence.
        rewrite list_lookup_insert_eq; assumption.
      * rewrite !list_lookup_insert_ne by congruence. reflexivity.
Qed.

Lemma shuffle_from_Permutation i x g : (shuffle_from i x g).1 ≡ₚ x.
Proof.
  revert x g. induction i as [|i IH]; intros x g; simpl; [reflexivity|].
  rewrite IH. apply swap_Permutation.
Qed.

Lemma shuffle_Permutation x g : (shuffle x g).1 ≡ₚ x.
Proof. apply shuffle_from_Permutation. Qed.

Lemma shuffle_nil g : shuffle (@nil A) g = ([], g).
Proof. reflexivity. Qed.

End ShuffleFacts.

(** ** Slices, rows and columns *)

Section ArrayFacts.
Context {A : Type}.
Implicit Types l a row : list A.
Local Open Scope Z_scope.

Lemma len_nonneg l : 0 <= len l.
Proof. unfold len. lia. Qed.

(** A slice with bounds inside the sequence is a [take] of a [drop]. *)
Lemma slice_inside l lo hi :
  0 <= lo -> lo <= hi -> hi <= len l ->
  slice l lo hi = take (Z.to_nat (hi - lo)) (drop (Z.to_nat lo) l).
Proof.
  intros Hlo Hlh Hhi. unfold slice, slice_bound.
  destruct (Z.ltb_spec lo 0); [lia|]. destruct (Z.ltb_spec hi 0); [lia|].
  now rewrite !Z.min_l by lia.
Qed.

Lemma slice_prefix l hi :
  0 <= hi -> hi <= len l -> slice l 0 hi = take (Z.to_nat hi) l.
Proof.
  intros. rewrite slice_inside by lia. now rewrite Z.sub_0_r.
Qed.

Lemma index_inside l k (v : A) :
  0 <= k -> l !! Z.to_nat k = Some v -> index l k = Ok v.
Proof.
  intros Hk Hl. unfold index.
  destruct (Z.ltb_spec k 0) as [|_]; [lia|].
  destruct (Z.ltb_spec k 0) as [|_]; [lia|]. now rewrite Hl.
Qed.

Lemma length_rows_of r c a : length (rows_of r c a) = r.
Proof. revert a. induction r; intros; simpl; auto. Qed.

Lemma lookup_rows_of r c a i :
  (i < r)%nat -> rows_of r c a !! i = Some (take c (drop (i * c) a)).
Proof.
  revert a i. induction r as [|r IH]; intros a i Hi; [lia|].
  destruct i as [|i]; simpl.
  - reflexivity.
  - rewrite IH by lia. rewrite drop_drop. reflexivity.
Qed.

Lemma concat_rows_of r c a :
  (r * c <= length a)%nat -> concat (rows_of r c a) = take (r * c) a.
Proof.
  revert a. induction r as [|r IH]; intros a Ha; simpl; [reflexivity|].
  rewrite IH by (rewrite length_drop; lia).
  apply take_take_drop.
Qed.

Lemma take_drop_window l (c m i n : nat) :
  (i + n <= c)%nat ->
  take n (drop i (take c (drop m l))) = take n (drop (m + i) l).
Proof.
  intros Hin. rewrite take_drop_commute, take_take.
  rewrite Nat.min_l by lia.
  now rewrite <- take_drop_commute, drop_drop.
Qed.

Lemma lookup_window l (c m k : nat) :
  (k < c)%nat -> take c (drop m l) !! k = l !! (m + k)%nat.
Proof.
  intros Hk. rewrite lookup_take_lt by assumption. apply lookup_drop.
Qed.

Lemma mapR_Ok {B : Type} (f : A -> result B) (h : A -> B) (l : list A) :
  (forall v : A, v ∈ l -> f v = Ok (h v)) -> mapR f l = Ok (h <$> l).
Proof.
  induction l as [|v l IH]; intros Hf; simpl; [reflexivity|].
  rewrite Hf by constructor.
  rewrite IH; [reflexivity|]. intros b Hb. apply Hf. now constructor.
Qed.

End ArrayFacts.

(** ** The feeder on a configuration with a positive batch size *)

Section FeederFacts.
Local Open Scope Z_scope.
Variable config : Config.
Variable word_array : list Z.

Let bs := batch_size config.
Let ns := num_rnn_steps config.
Let rw := len word_array / batch_size config.

Hypothesis bs_pos : 0 < batch_size config.

Lemma batch_width_pos : batch_width config word_array = Ok rw.
Proof.
  unfold batch_width, floordiv.
  destruct (Z.eqb_spec (batch_size config) 0); [lia|reflexivity].
Qed.

Lemma row_width_nonneg : 0 <= rw.
Proof. apply Z.div_pos; [apply len_nonneg|assumption]. Qed.

Lemma grid_fits : bs * rw <= len word_array.
Proof. apply Z.mul_div_le. assumption. Qed.

Lemma rows_of_spec_grid (r c : nat) (a : list Z) :
  rows_of r c a = (fun i : nat => take c (drop (i * c) a)) <$> seq 0 r.
Proof.
  apply list_eq. intros i. rewrite list_lookup_fmap.
  destruct (decide (i < r)%nat) as [Hi|Hi].
  - rewrite lookup_rows_of by assumption.
    rewrite lookup_seq_lt by assumption. reflexivity.
  - rewrite lookup_seq_ge by lia. apply lookup_ge_None.
    rewrite length_rows_of. lia.
Qed.

Lemma data_spec_grid : data config word_array = Ok (spec_grid word_array bs rw).
Proof.
  pose proof row_width_nonneg as Hrw. pose proof grid_fits as Hfit.
  unfold data. rewrite batch_width_pos. simpl. fold bs.
  assert (0 <= bs * rw) as Hprod by (subst bs; lia).
  rewrite slice_prefix by lia.
  assert (len (take (Z.to_nat (bs * rw)) word_array) = bs * rw) as Hlen.
  { unfold len in *. rewrite length_take_le by lia. lia. }
  unfold reshape.
  destruct (Z.ltb_spec bs 0) as [|_]; [subst bs; lia|].
  destruct (Z.ltb_spec rw 0) as [|_]; [lia|]. simpl.
  rewrite Hlen, Z.eqb_refl. f_equal.
  rewrite rows_of_spec_grid. unfold spec_grid.
  apply list_fmap_ext. intros i r Hr.
  apply lookup_seq in Hr as [-> Hr]. simpl.
  rewrite take_drop_commute, take_take, take_drop_commute.
  f_equal. f_equal. apply Nat.min_l.
  rewrite Z2Nat.inj_mul by (subst bs; lia). nia.
Qed.

Lemma length_spec_grid : length (spec_grid word_array bs rw) = Z.to_nat bs.
Proof. unfold spec_grid. now rewrite length_fmap, length_seq. Qed.

Lemma spec_grid_row (r : nat) row :
  spec_grid word_array bs rw !! r = Some row ->
  (r < Z.to_nat bs)%nat /\
  row = take (Z.to_nat rw) (drop (r * Z.to_nat rw) word_array) /\
  len row = rw.
Proof.
  pose proof row_width_nonneg as Hrw. pose proof grid_fits as Hfit.
  unfold spec_grid. rewrite list_lookup_fmap.
  intros Hr. apply fmap_Some in Hr as (i & Hi & ->).
  apply lookup_seq in Hi as [-> Hi]. simpl.
  split; [assumption|]. split; [reflexivity|].
  unfold len in *. rewrite length_take_le; [lia|].
  rewrite length_drop.
  assert (Z.to_nat bs * Z.to_nat rw <= length word_array)%nat.
  { rewrite <- Z2Nat.inj_mul by (subst bs; lia). lia. }
  nia.
Qed.

Lemma concat_spec_grid :
  concat (spec_grid word_array bs rw) = take (Z.to_nat (bs * rw)) word_array.
Proof.
  pose proof row_width_nonneg as Hrw. pose proof grid_fits as Hfit.
  unfold spec_grid. rewrite <- rows_of_spec_grid.
  rewrite Z2Nat.inj_mul by (subst bs; lia).
  apply concat_rows_of.
  rewrite <- Z2Nat.inj_mul by (subst bs; lia). unfold len in Hfit. lia.
Qed.

End FeederFacts.

(** ** What the feeder yields *)

Section FeederRuns.
Local Open Scope Z_scope.
Variable config : Config.

Lemma shuffle_index_Permutation bw g :
  (shuffle_index config bw g).1 ≡ₚ range (bw - num_rnn_steps config - 1).
Proof. apply shuffle_Permutation. Qed.

Lemma elem_of_shuffle_index bw g i :
  i ∈ (shuffle_index config bw g).1 <-> 0 <= i <= bw - num_rnn_steps config - 2.
Proof.
  rewrite shuffle_index_Permutation. unfold range.
  rewrite elem_of_seqZ. lia.
Qed.

Lemma NoDup_shuffle_index bw g : NoDup (shuffle_index config bw g).1.
Proof. rewrite shuffle_index_Permutation. apply NoDup_seqZ. Qed.

Lemma length_shuffle_index bw g :
  length (shuffle_index config bw g).1 = Z.to_nat (bw - num_rnn_steps config - 1).
Proof.
  rewrite shuffle_index_Permutation. apply length_seqZ.
Qed.

Lemma shuffle_index_empty bw g :
  bw <= num_rnn_steps config + 1 -> shuffle_index config bw g = ([], g).
Proof.
  intros Hbw. unfold shuffle_index, range.
  rewrite seqZ_nil by lia. reflexivity.
Qed.

(** Inside the grid the NumPy slices are the windows of the design. *)
Lemma feed_spec (grid : list (list Z)) (bw : Z) (idx : list Z) :
  0 <= num_rnn_steps config ->
  (forall row, row ∈ grid -> len row = bw) ->
  (forall i, i ∈ idx -> 0 <= i /\ i + num_rnn_steps config < bw) ->
  feed config grid idx
  = mk_drained (spec_batch grid (num_rnn_steps config) <$> idx) None.
Proof.
  intros Hns Hrows. induction idx as [|i idx IH]; intros Hidx; [reflexivity|].
  destruct (Hidx i) as [Hi0 Hi1]; [constructor|].
  cbn [feed].
  assert (column grid (i + num_rnn_steps config)
          = Ok ((fun row => nth (Z.to_nat (i + num_rnn_steps config)) row 0) <$> grid))
    as ->.
  { apply mapR_Ok. intros row Hrow. apply index_inside; [lia|].
    specialize (Hrows row Hrow). unfold len in Hrows.
    destruct (nth_lookup_or_length row (Z.to_nat (i + num_rnn_steps config)) 0)
      as [E|E]; [exact E|lia]. }
  rewrite IH by (intros j Hj; apply Hidx; now constructor).
  cbn [yielded raised fmap list_fmap]. f_equal. f_equal.
  unfold spec_batch, spec_input_window, spec_target, columns, as_column.
  f_equal.
  - apply list_fmap_ext. intros k row Hrow.
    apply list_elem_of_lookup_2 in Hrow. specialize (Hrows row Hrow).
    rewrite slice_inside by lia. do 2 f_equal. lia.
  - now rewrite <- list_fmap_compose.
Qed.

Variable word_array : list Z.
Hypothesis bs_pos : 0 < batch_size config.

Lemma feeder_unfold g :
  feeder config word_array g
  = (feed config
       (spec_grid word_array (batch_size config) (len word_array / batch_size config))
       (shuffle_index config (len word_array / batch_size config) g).1,
     (shuffle_index config (len word_array / batch_size config) g).2).
Proof.
  pose proof (data_spec_grid config word_array bs_pos) as Hd.
  unfold data in Hd. unfold feeder.
  rewrite (batch_width_pos config word_array bs_pos) in *. simpl in Hd.
  rewrite Hd. now destruct (shuffle_index _ _ _).
Qed.

Lemma feeder_spec g :
  0 <= num_rnn_steps config ->
  feeder config word_array g
  = (mk_drained
       (spec_batch
          (spec_grid word_array (batch_size config) (len word_array / batch_size config))
          (num_rnn_steps config)
        <$> (shuffle_index config (len word_array / batch_size config) g).1)
       None,
     (shuffle_index config (len word_array / batch_size config) g).2).
Proof.
  intros Hns. rewrite feeder_unfold. f_equal.
  apply feed_spec with (bw := len word_array / batch_size config); [assumption| |].
  - intros row Hrow. apply list_elem_of_lookup in Hrow as [r Hr].
    now apply (spec_grid_row config word_array bs_pos) in Hr.
  - intros i Hi. apply elem_of_shuffle_index in Hi. lia.
Qed.

Lemma feeder_empty g :
  len word_array / batch_size config <= num_rnn_steps config + 1 ->
  feeder config word_array g = (mk_drained [] None, g).
Proof.
  intros Hbw. rewrite feeder_unfold.
  now rewrite shuffle_index_empty.
Qed.

End FeederRuns.

(** ** The feeder: grid, windows, epoch length, start columns *)

Section FeederClaims.
Import Scenarios.
Local Open Scope Z_scope.

(** C2.  For every token stream and every positive number of rows, the grid
    has [row_width = L // num_rows] columns, [num_rows * row_width <= L], row
    [r] is [token_stream[r*row_width : r*row_width + row_width]], the grid
    holds the first [num_rows * row_width] tokens only, and the feeder yields,
    for each start column [i] of its shuffled index, the window
    [grid[:, i : i+num_steps]] and the target [grid[:, i+num_steps]] as a
    column of shape [(num_rows, 1)]: in lane [r] the [num_steps] tokens from
    position [r*row_width + i] of the stream and the token after them, all
    before position [num_rows * row_width]. *)
Theorem feeder_grid_and_windows (config : Config) (word_array : list Z) (g : rng) :
  0 < batch_size config ->
  0 <= num_rnn_steps config ->
  let num_rows := batch_size config in
  let num_steps := num_rnn_steps config in
  let row_width := len word_array / num_rows in
  let grid := spec_grid word_array num_rows row_width in
  let idx := (shuffle_index config row_width g).1 in
  batch_width config word_array = Ok row_width
  /\ num_rows * row_width <= len word_array
  /\ data config word_array = Ok grid
  /\ length grid = Z.to_nat num_rows
  /\ (forall (r : nat) row, grid !! r = Some row ->
        row = take (Z.to_nat row_width) (drop (r * Z.to_nat row_width) word_array)
        /\ len row = row_width)
  /\ concat grid = take (Z.to_nat (num_rows * row_width)) word_array
  /\ (feeder config word_array g).1
     = mk_drained (spec_batch grid num_steps <$> idx) None
  /\ (forall i, i ∈ idx ->
        0 <= i /\ i + num_steps < row_width
        /\ length (spec_input_window grid num_steps i) = Z.to_nat num_rows
        /\ Forall (fun xrow => len xrow = num_steps) (spec_input_window grid num_steps i)
        /\ length (spec_target grid num_steps i) = Z.to_nat num_rows
        /\ Forall (fun yrow => length yrow = 1%nat) (spec_target grid num_steps i)
        /\ forall r : nat, (r < Z.to_nat num_rows)%nat ->
             let first := (r * Z.to_nat row_width + Z.to_nat i)%nat in
             (first + Z.to_nat num_steps < Z.to_nat (num_rows * row_width))%nat
             /\ spec_input_window grid num_steps i !! r
                = Some (take (Z.to_nat num_steps) (drop first word_array))
             /\ spec_target grid num_steps i !! r
                = Some [nth (first + Z.to_nat num_steps) word_array 0]).
Proof.
  intros Hbs Hns num_rows num_steps row_width grid idx.
  split; [now apply batch_width_pos|].
  split; [now apply grid_fits|].
  split; [now apply data_spec_grid|].
  split; [now apply length_spec_grid|].
  split.
  { intros r row Hr. now apply (spec_grid_row config word_array Hbs) in Hr. }
  split; [now apply concat_spec_grid|].
  split; [now rewrite feeder_spec|].
  intros i Hi. apply elem_of_shuffle_index in Hi. fold num_steps in Hi.
  split; [lia|]. split; [lia|].
  unfold spec_input_window, spec_target. rewrite !length_fmap.
  split; [now apply length_spec_grid|].
  split.
  - apply Forall_fmap, Forall_forall. intros row Hrow. simpl.
    apply list_elem_of_lookup in Hrow as [r Hr].
    apply (spec_grid_row config word_array Hbs) in Hr as (_ & _ & Hlen).
    subst num_rows num_steps row_width. unfold len in *.
    rewrite length_take_le; [lia|]. rewrite length_drop. lia.
  - split; [now apply length_spec_grid|]. split.
    { apply Forall_fmap, Forall_forall. intros row _. reflexivity. }
    intros r Hr. set (first := (r * Z.to_nat row_width + Z.to_nat i)%nat).
    pose proof (row_width_nonneg config word_array Hbs) as Hrw.
    pose proof (grid_fits config word_array Hbs) as Hfit.
    assert (grid !! r
            = Some (take (Z.to_nat row_width) (drop (r * Z.to_nat row_width) word_array)))
      as Hrow.
    { subst grid. unfold spec_grid.
      rewrite list_lookup_fmap, lookup_seq_lt by assumption. reflexivity. }
    assert (first + Z.to_nat num_steps < Z.to_nat (num_rows * row_width))%nat as Hin.
    { subst first num_rows num_steps row_width.
      rewrite Z2Nat.inj_mul by lia. nia. }
    split; [exact Hin|]. rewrite !list_lookup_fmap, Hrow. simpl. split.
    + f_equal. subst first. apply take_drop_window.
      subst num_steps row_width. lia.
    + do 2 f_equal. rewrite !nth_lookup. f_equal.
      rewrite lookup_window by (subst num_steps row_width; lia).
      f_equal. subst first. rewrite Z2Nat.inj_add by (subst num_steps; lia). lia.
Qed.

Lemma feeder_grid_and_windows_witness :
  data scenario_A_config scenario_A_stream
  = Ok [[0; 1; 2; 3; 4]; [5; 6; 7; 8; 9]]
  /\ (feeder scenario_A_config scenario_A_stream rng0).1
     = mk_drained [([[1; 2]; [6; 7]], [[3]; [8]]); ([[0; 1]; [5; 6]], [[2]; [7]])] None.
Proof.
  destruct (feeder_grid_and_windows scenario_A_config scenario_A_stream rng0)
    as (_ & _ & Hgrid & _ & _ & _ & Hfeed & _).
  - reflexivity.
  - discriminate.
  - split; [exact Hgrid | exact Hfeed].
Defined.

(** C3, as the code has it.  When a window and its target fit in a row
    ([num_steps + 1 <= row_width]), one pass of the feeder ends normally
    after exactly [row_width - num_steps - 1] batches; the start columns it
    visits are a permutation without repeats of
    [0 .. row_width - num_steps - 2]; and [epoch_len] returns that count. *)
Theorem feeder_epoch_length (config : Config) (word_array : list Z) (g : rng) :
  0 < batch_size config ->
  0 <= num_rnn_steps config ->
  num_rnn_steps config + 1 <= len word_array / batch_size config ->
  let num_steps := num_rnn_steps config in
  let row_width := len word_array / batch_size config in
  let grid := spec_grid word_array (batch_size config) row_width in
  let idx := (shuffle_index config row_width g).1 in
  let d := (feeder config word_array g).1 in
  raised d = None
  /\ len (yielded d) = row_width - num_steps - 1
  /\ yielded d = spec_batch grid num_steps <$> idx
  /\ idx ≡ₚ range (row_width - num_steps - 1)
  /\ NoDup idx
  /\ (forall i, i ∈ idx <-> 0 <= i <= row_width - num_steps - 2)
  /\ epoch_len config word_array = Ok (len (yielded d)).
Proof.
  intros Hbs Hns Hfit num_steps row_width grid idx d.
  assert (d = mk_drained (spec_batch grid num_steps <$> idx) None) as Hd.
  { subst d. now rewrite feeder_spec. }
  assert (len (yielded d) = row_width - num_steps - 1) as Hlen.
  { rewrite Hd. simpl. unfold len. rewrite length_fmap.
    subst idx. rewrite length_shuffle_index. fold num_steps. lia. }
  split; [now rewrite Hd|].
  split; [exact Hlen|].
  split; [now rewrite Hd|].
  split; [apply shuffle_index_Permutation|].
  split; [apply NoDup_shuffle_index|].
  split; [intros i; apply elem_of_shuffle_index|].
  unfold epoch_len. rewrite batch_width_pos by assumption. simpl.
  now rewrite Hlen.
Qed.

Lemma feeder_epoch_length_witness :
  len (yielded (feeder scenario_A_config scenario_A_stream rng0).1) = 2
  /\ epoch_len scenario_A_config scenario_A_stream = Ok 2.
Proof.
  destruct (feeder_epoch_length scenario_A_config scenario_A_stream rng0)
    as (_ & Hlen & _ & _ & _ & _ & Hepoch).
  - reflexivity.
  - discriminate.
  - discriminate.
  - split; [exact Hlen|]. rewrite Hepoch, Hlen. reflexivity.
Defined.

(** C3 as stated fails when the rows are too short: with two rows of width
    two and windows of five steps the feeder ends normally after no batch at
    all, which is not [row_width - num_steps - 1 = -4] batches, and
    [epoch_len] returns [-4], not the number of batches. *)
Lemma epoch_length_counterexample :
  batch_width narrow_config narrow_stream = Ok 2
  /\ raised (feeder narrow_config narrow_stream rng0).1 = None
  /\ len (yielded (feeder narrow_config narrow_stream rng0).1) = 0
  /\ len (yielded (feeder narrow_config narrow_stream rng0).1)
     <> 2 - num_rnn_steps narrow_config - 1
  /\ epoch_len narrow_config narrow_stream = Ok (-4)
  /\ epoch_len narrow_config narrow_stream
     <> Ok (len (yielded (feeder narrow_config narrow_stream rng0).1)).
Proof. repeat split; discriminate. Qed.

(** C4, as the code has it.  The start columns the feeder enumerates are a
    permutation of [0 .. row_width - num_steps - 2]: the start column
    [row_width - num_steps - 1] is not among them, and no yielded target is
    the last column of the grid. *)
Theorem feeder_start_columns (config : Config) (word_array : list Z) (g : rng) :
  0 < batch_size config ->
  0 <= num_rnn_steps config ->
  let num_steps := num_rnn_steps config in
  let row_width := len word_array / batch_size config in
  let grid := spec_grid word_array (batch_size config) row_width in
  let idx := (shuffle_index config row_width g).1 in
  yielded (feeder config word_array g).1 = spec_batch grid num_steps <$> idx
  /\ idx ≡ₚ range (row_width - num_steps - 1)
  /\ (forall i, 0 <= i <= row_width - num_steps - 2 -> i ∈ idx)
  /\ ((row_width - num_steps - 1) ∉ idx)
  /\ (forall i, i ∈ idx -> i + num_steps < row_width - 1).
Proof.
  intros Hbs Hns num_steps row_width grid idx.
  split; [now rewrite feeder_spec|].
  split; [apply shuffle_index_Permutation|].
  split; [intros i Hi; now apply elem_of_shuffle_index|].
  split.
  - intros Hin. apply elem_of_shuffle_index in Hin. fold num_steps in Hin. lia.
  - intros i Hin. apply elem_of_shuffle_index in Hin. fold num_steps in Hin. lia.
Qed.

Lemma feeder_start_columns_witness :
  (shuffle_index scenario_A_config 5 rng0).1 ≡ₚ [0; 1]
  /\ 2 ∉ (shuffle_index scenario_A_config 5 rng0).1.
Proof.
  destruct (feeder_start_columns scenario_A_config scenario_A_stream rng0)
    as (_ & Hperm & _ & Hnot & _).
  - reflexivity.
  - discriminate.
  - split; [exact Hperm | exact Hnot].
Defined.

(** C4 as stated fails in scenario A: the row width is 5 and the windows
    have 2 steps, so the claim asks for start column [5 - 2 - 1 = 2]; the
    feeder visits the columns 1 and 0 only. *)
Lemma last_start_column_counterexample :
  batch_width scenario_A_config scenario_A_stream = Ok 5
  /\ (shuffle_index scenario_A_config 5 rng0).1 = [1; 0]
  /\ ((5 - num_rnn_steps scenario_A_config - 1)
      ∉ (shuffle_index scenario_A_config 5 rng0).1)
  /\ ~ (shuffle_index scenario_A_config 5 rng0).1
       ≡ₚ seqZ 0 (5 - num_rnn_steps scenario_A_config - 1 + 1).
Proof.
  split; [reflexivity|]. split; [reflexivity|]. split.
  - intros Hin. vm_compute in Hin.
    repeat (apply elem_of_cons in Hin as [Hin|Hin]; [discriminate|]).
    now apply elem_of_nil in Hin.
  - intros Hperm. apply Permutation_length in Hperm. vm_compute in Hperm.
    discriminate.
Qed.

End FeederClaims.

(** ** Configurations in which no window fits *)

Section NoWindow.
Import Scenarios Trainer.
Local Open Scope Z_scope.

Lemma floordiv_negative (a b : Z) : 0 <= a -> b < 0 -> a / b <= 0.
Proof.
  intros Ha Hb.
  pose proof (Z.div_mod a b ltac:(lia)) as Hdm.
  pose proof (Z.mod_neg_bound a b Hb) as Hm. nia.
Qed.

Lemma feeder_zero_rows (config : Config) (word_array : list Z) (g : rng) :
  batch_size config = 0 ->
  feeder config word_array g = (mk_drained [] (Some ZeroDivisionError), g).
Proof.
  intros Hbs. unfold feeder, batch_width, floordiv. now rewrite Hbs.
Qed.

Lemma feeder_negative_rows (config : Config) (word_array : list Z) (g : rng) :
  batch_size config < 0 ->
  feeder config word_array g = (mk_drained [] (Some ValueError), g).
Proof.
  intros Hbs. unfold feeder, batch_width, floordiv.
  destruct (Z.eqb_spec (batch_size config) 0) as [|_]; [lia|].
  pose proof (floordiv_negative (len word_array) (batch_size config)
                (len_nonneg word_array) Hbs) as Hrw.
  unfold reshape.
  destruct (Z.ltb_spec (batch_size config) 0) as [_|]; [|lia].
  destruct (Z.ltb_spec (len word_array / batch_size config) 0) as [|Hge];
    [reflexivity|].
  assert (len word_array / batch_size config = 0) as -> by lia.
  reflexivity.
Qed.

(** C8, as the code has it.  The code has no [ConfigError] and no check of
    the configuration.  With zero rows the feeder ends with
    [ZeroDivisionError], with a negative number of rows with [ValueError],
    both before any batch; with a positive number of rows that are too short
    for a window ([row_width < num_steps + 1]) nothing fails: the feeder
    yields no batch and ends normally. *)
Theorem feeder_invalid_config (config : Config) (word_array : list Z) (g : rng) :
  (batch_size config = 0 ->
     feeder config word_array g = (mk_drained [] (Some ZeroDivisionError), g))
  /\ (batch_size config < 0 ->
     feeder config word_array g = (mk_drained [] (Some ValueError), g))
  /\ (0 < batch_size config ->
      len word_array / batch_size config < num_rnn_steps config + 1 ->
      feeder config word_array g = (mk_drained [] None, g)
      /\ data config word_array
         = Ok (spec_grid word_array (batch_size config)
                 (len word_array / batch_size config))).
Proof.
  split; [apply feeder_zero_rows|].
  split; [apply feeder_negative_rows|].
  intros Hbs Hrw. split.
  - apply feeder_empty; [assumption|lia].
  - now apply data_spec_grid.
Qed.

Lemma feeder_invalid_config_witness :
  feeder zero_rows_config scenario_A_stream rng0
  = (mk_drained [] (Some ZeroDivisionError), rng0)
  /\ feeder negative_rows_config scenario_A_stream rng0
     = (mk_drained [] (Some ValueError), rng0)
  /\ feeder narrow_config narrow_stream rng0 = (mk_drained [] None, rng0).
Proof.
  split; [|split].
  - apply (feeder_invalid_config zero_rows_config scenario_A_stream rng0).
    reflexivity.
  - apply (feeder_invalid_config negative_rows_config scenario_A_stream rng0).
    reflexivity.
  - apply (feeder_invalid_config narrow_config narrow_stream rng0);
      reflexivity.
Defined.

(** C8 as stated fails: with two rows of width two and windows of five steps
    no window fits ([row_width < num_steps + 1]), yet the feeder raises
    nothing, the grid is built, and [epoch_len] returns [-4]. *)
Lemma no_ConfigError_counterexample :
  len narrow_stream / batch_size narrow_config < num_rnn_steps narrow_config + 1
  /\ raised (feeder narrow_config narrow_stream rng0).1 = None
  /\ data narrow_config narrow_stream = Ok [[0; 1]; [2; 3]]
  /\ epoch_len narrow_config narrow_stream = Ok (-4).
Proof. repeat split. Qed.

(** C10.  With a positive batch size and [row_width <= num_steps + 1] the
    feeder yields no batch and raises nothing (the random generator is left
    as it was), and an epoch over it performs no training step: the session
    and the loss buffer are unchanged. *)
Theorem feeder_no_window (config : Config) (word_array : list Z) (g : rng) :
  0 < batch_size config ->
  len word_array / batch_size config <= num_rnn_steps config + 1 ->
  feeder config word_array g = (mk_drained [] None, g)
  /\ forall (T : Type) (ST : Scalar T) (BT : Backend T) (st : train_state T),
       train_epoch config word_array st g
       = (st, g, Ok (np_mean (move_avg_loss st))).
Proof.
  intros Hbs Hrw.
  pose proof (feeder_empty config word_array Hbs g Hrw) as Hf.
  split; [exact Hf|].
  intros T ST BT st. unfold train_epoch, epoch_len.
  rewrite batch_width_pos by assumption. cbn [bind]. rewrite Hf. reflexivity.
Qed.

Lemma feeder_no_window_witness :
  feeder narrow_config narrow_stream rng0 = (mk_drained [] None, rng0).
Proof.
  apply (feeder_no_window narrow_config narrow_stream rng0).
  - reflexivity.
  - discriminate.
Defined.

End NoWindow.

(** ** The GRU cell computes the gated update, lane by lane *)

Section CellFacts.
Import GRU.
Context {T : Type} {ST : Scalar T}.

Lemma spec_affine_matmul (v : list T) (M : list (list T)) (bias : list T) :
  spec_affine v M bias = zip_with s_add (dot v <$> transpose M) bias.
Proof.
  unfold spec_affine, transpose. now rewrite <- list_fmap_compose.
Qed.

Lemma cell_body_lanes (p : gru_params T) (x h_1 : list (list T)) :
  cell_body p x h_1 = zip_with (spec_h_next p) x h_1.
Proof.
  revert h_1. induction x as [|xr x IH]; intros [|hr h_1]; try reflexivity.
  specialize (IH h_1). unfold cell_body in *.
  unfold concat1, sigmoid2, tanh2, add_bias, matmul, mul2, add2, one_minus in *.
  cbn [zip_with fmap list_fmap]. f_equal; [|exact IH].
  unfold spec_h_next, spec_update_gate, spec_candidate, spec_reset_gate.
  now rewrite !spec_affine_matmul.
Qed.

Lemma cell_params (vs : varstore T) (x h_1 : list (list T)) :
  cell vs x h_1 = (p <- gru_params_of vs ;; Ok (cell_body p x h_1)).
Proof.
  unfold cell, gru_params_of.
  destruct (get_mat vs "GRU" "Wr"); [|reflexivity].
  destruct (get_mat vs "GRU" "Wz"); [|reflexivity].
  destruct (get_mat vs "GRU" "W"); [|reflexivity].
  destruct (get_vec vs "GRU" "br"); [|reflexivity].
  destruct (get_vec vs "GRU" "bz"); [|reflexivity].
  destruct (get_vec vs "GRU" "b"); reflexivity.
Qed.

Lemma cell_lanes (vs : varstore T) (x h_1 : list (list T)) :
  cell vs x h_1 = (p <- gru_params_of vs ;; Ok (zip_with (spec_h_next p) x h_1)).
Proof.
  rewrite cell_params. destruct (gru_params_of vs); [|reflexivity].
  simpl. now rewrite cell_body_lanes.
Qed.

End CellFacts.

Section CellClaims.
Import GRU Scalars Scenarios.

(** C1.  One transition of the cell computes, for every lane,
    [reset_gate = sigmoid(concat(x, h_prev) . Wr + br)],
    [update_gate = sigmoid(concat(x, h_prev) . Wz + bz)],
    [candidate = tanh(concat(x, reset_gate * h_prev) . W + b)] and
    [h_next = update_gate * h_prev + (1 - update_gate) * candidate]; and it
    is a function of [x], [h_prev] and the six parameters alone: in two
    variable stores that hold the same six parameters it returns the same
    result. *)
Theorem cell_computes_gru (T : Type) (ST : Scalar T) (vs : varstore T)
    (x h_1 : list (list T)) :
  cell vs x h_1
  = (p <- gru_params_of vs ;;
     Ok (zip_with (fun x_lane h_prev =>
           let reset_gate := s_sigmoid <$> spec_affine (x_lane ++ h_prev) (p_Wr p) (p_br p) in
           let update_gate := s_sigmoid <$> spec_affine (x_lane ++ h_prev) (p_Wz p) (p_bz p) in
           let candidate :=
             s_tanh <$> spec_affine (x_lane ++ zip_with s_mul reset_gate h_prev)
                          (p_W p) (p_b p) in
           zip_with s_add (zip_with s_mul update_gate h_prev)
                          (zip_with s_mul (s_sub s_one <$> update_gate) candidate))
         x h_1))
  /\ forall vs' : varstore T,
       gru_params_of vs' = gru_params_of vs -> cell vs' x h_1 = cell vs x h_1.
Proof.
  split.
  - apply cell_lanes.
  - intros vs' Hp. rewrite !cell_lanes. now rewrite Hp.
Qed.

Lemma cell_computes_gru_witness :
  cell named_store_more [[Var "x"]] [[Var "h"]]
  = cell named_store [[Var "x"]] [[Var "h"]].
Proof.
  apply (cell_computes_gru expr expr_Scalar named_store [[Var "x"]] [[Var "h"]]).
  reflexivity.
Defined.

(** The cell run on named inputs: the formula it builds. *)
Example cell_symbolic :
  let xh_z := Add (Add (Add (Const 0) (Mul (Var "x") (Var "wz0")))
                        (Mul (Var "h") (Var "wz1"))) (Const 1) in
  let xh_r := Add (Add (Add (Const 0) (Mul (Var "x") (Var "wr0")))
                        (Mul (Var "h") (Var "wr1"))) (Const 1) in
  let rh := Mul (Sigmoid xh_r) (Var "h") in
  let cand := Tanh (Add (Add (Add (Const 0) (Mul (Var "x") (Var "w0")))
                              (Mul rh (Var "w1"))) (Const 0)) in
  cell named_store [[Var "x"]] [[Var "h"]]
  = Ok [[Add (Mul (Sigmoid xh_z) (Var "h"))
             (Mul (Sub (Const 1) (Sigmoid xh_z)) cand)]].
Proof. reflexivity. Qed.

End CellClaims.

(** ** Bounds of the gates and of the state, over the reals *)

Section RealBounds.
Import GRU Scalars Scenarios.
Local Open Scope R_scope.

Lemma sigmoid_bounds (x : R) : 0 < sigmoid x < 1.
Proof.
  unfold sigmoid. pose proof (exp_pos (- x)) as He.
  assert (0 < 1 + exp (- x)) as Hd by lra.
  split.
  - apply Rdiv_lt_0_compat; lra.
  - apply (Rmult_lt_reg_r (1 + exp (- x))); [assumption|].
    unfold Rdiv. rewrite Rmult_assoc, Rinv_l by lra. lra.
Qed.

Lemma tanh_bounds (x : R) : -1 < tanh x < 1.
Proof.
  unfold tanh, sinh, cosh.
  pose proof (exp_pos x) as Hp. pose proof (exp_pos (- x)) as Hn.
  set (a := exp x) in *. set (b := exp (- x)) in *.
  assert (0 < (a + b) / 2) as Hc by lra.
  set (t := (a - b) / 2 / ((a + b) / 2)).
  assert (t * ((a + b) / 2) = (a - b) / 2) as Ht by (unfold t; field; lra).
  split; nra.
Qed.

Lemma convex_between (z h c : R) :
  0 < z < 1 -> Rmin h c <= z * h + (1 - z) * c <= Rmax h c.
Proof.
  intros Hz. unfold Rmin, Rmax. destruct (Rle_dec h c); nra.
Qed.

Lemma Forall_fmap_bounds (f : R -> R) (P : R -> Prop) (l : list R) :
  (forall v, P (f v)) -> Forall P (f <$> l).
Proof.
  intros Hf. apply Forall_fmap, Forall_forall. intros v _. apply Hf.
Qed.

(** C5, as it holds: over the real numbers the graph denotes.  Whenever the
    cell returns a state, every lane of it
    is the gated update of that lane, and for every input vector and previous
    state the components of the reset and update gates lie strictly between 0
    and 1, those of the candidate strictly between -1 and 1, and each
    component of [h_next] lies between the minimum and the maximum of the
    matching components of [h_prev] and of the candidate. *)
Theorem cell_bounds (vs : varstore R) (x h_1 h : list (list R)) :
  cell vs x h_1 = Ok h ->
  exists p : gru_params R,
    gru_params_of vs = Ok p
    /\ h = zip_with (spec_h_next p) x h_1
    /\ forall x_lane h_prev : list R,
         Forall (fun r => 0 < r < 1) (spec_reset_gate p x_lane h_prev)
         /\ Forall (fun z => 0 < z < 1) (spec_update_gate p x_lane h_prev)
         /\ Forall (fun c => -1 < c < 1) (spec_candidate p x_lane h_prev)
         /\ forall (j : nat) (v : R),
              spec_h_next p x_lane h_prev !! j = Some v ->
              exists hj cj : R,
                h_prev !! j = Some hj
                /\ spec_candidate p x_lane h_prev !! j = Some cj
                /\ Rmin hj cj <= v <= Rmax hj cj.
Proof.
  intros Hcell. rewrite cell_lanes in Hcell.
  destruct (gru_params_of vs) as [p|e]; [|discriminate].
  simpl in Hcell. injection Hcell as <-.
  exists p. split; [reflexivity|]. split; [reflexivity|].
  intros x_lane h_prev.
  split; [apply Forall_fmap_bounds, sigmoid_bounds|].
  split; [apply Forall_fmap_bounds, sigmoid_bounds|].
  split; [apply Forall_fmap_bounds, tanh_bounds|].
  intros j v Hv. unfold spec_h_next in Hv.
  apply lookup_zip_with_Some in Hv as (zh & zc & -> & Hzh & Hzc).
  apply lookup_zip_with_Some in Hzh as (z & hj & -> & Hz & Hhj).
  apply lookup_zip_with_Some in Hzc as (z1 & cj & -> & Hz1 & Hcj).
  rewrite list_lookup_fmap, Hz in Hz1. injection Hz1 as <-.
  exists hj, cj. split; [assumption|]. split; [assumption|].
  apply convex_between.
  assert (Forall (fun z => 0 < z < 1) (spec_update_gate p x_lane h_prev)) as Hall
    by apply Forall_fmap_bounds, sigmoid_bounds.
  exact (Forall_lookup_1 _ _ _ _ Hall Hz).
Qed.

Lemma cell_bounds_witness :
  exists p : gru_params R,
    gru_params_of unit_store = Ok p
    /\ forall x_lane h_prev : list R,
         Forall (fun z => 0 < z < 1) (spec_update_gate p x_lane h_prev).
Proof.
  destruct (cell_bounds unit_store [[2]] [[3]]
              (zip_with (spec_h_next (mk_gru_params [[1]; [1]] [[1]; [1]] [[1]; [1]]
                                        [1] [1] [0]))
                        [[2]] [[3]]))
    as (p & Hp & _ & Hb).
  - reflexivity.
  - exists p. split; [exact Hp|]. intros x_lane h_prev.
    destruct (Hb x_lane h_prev) as (_ & Hz & _). exact Hz.
Defined.

End RealBounds.

Section Float32Bounds.
Import GRU Scalars MoreScenarios.

(** C5 as stated fails in float32, the numbers of the graph: the bounds of
    the gates and of the candidate are reached on finite inputs.
    The GRU of one unit with every weight one, run from the state 0: on the
    input 20 the two gates are exactly 1 and the candidate is exactly 1, and
    the cell returns the state 0; on the input -200 the two gates are
    exactly 0 and the candidate is exactly -1, and the cell returns -1.  No
    one of these values is strictly inside its interval. *)
Lemma strict_bounds_counterexample :
  gru_params_of f32_unit_store = Ok f32_unit_params
  /\ cell f32_unit_store [[f32_of_Z 20]] [[f32_zero]] = Ok [[f32_zero]]
  /\ spec_reset_gate f32_unit_params [f32_of_Z 20] [f32_zero] = [f32_one]
  /\ spec_update_gate f32_unit_params [f32_of_Z 20] [f32_zero] = [f32_one]
  /\ spec_candidate f32_unit_params [f32_of_Z 20] [f32_zero] = [f32_one]
  /\ f32_ltb f32_one f32_one = false
  /\ cell f32_unit_store [[f32_of_Z (-200)]] [[f32_zero]] = Ok [[f32_of_Z (-1)]]
  /\ spec_reset_gate f32_unit_params [f32_of_Z (-200)] [f32_zero] = [f32_zero]
  /\ spec_update_gate f32_unit_params [f32_of_Z (-200)] [f32_zero] = [f32_zero]
  /\ spec_candidate f32_unit_params [f32_of_Z (-200)] [f32_zero] = [f32_of_Z (-1)]
  /\ f32_ltb f32_zero f32_zero = false
  /\ f32_ltb (f32_of_Z (-1)) (f32_of_Z (-1)) = false.
Proof. vm_compute. repeat split. Qed.

(** Finite float32 inputs can leave the intervals altogether: when the two
    products of the update gate overflow with opposite signs their sum is
    not a number, and so are the gate and the next state. *)
Example float32_gate_overflow :
  spec_update_gate f32_steep_params [f32_of_Z (10 ^ 30)] [f32_of_Z (10 ^ 30)]
  = [SpecFloat.S754_nan]
  /\ spec_h_next f32_steep_params [f32_of_Z (10 ^ 30)] [f32_of_Z (10 ^ 30)]
     = [SpecFloat.S754_nan].
Proof. vm_compute. split; reflexivity. Qed.

End Float32Bounds.

(** ** The unrolled loop: every lane starts from its row of [h_init] *)

Section UnrollFacts.
Import GRU.
Context {T : Type} {ST : Scalar T}.
Implicit Types (p : gru_params T) (h x : list T) (lane : list (list T)).

Lemma spec_lane_states_0 p h lane : spec_lane_states p h lane !! O = Some h.
Proof. now destruct lane. Qed.

Lemma spec_lane_states_S p h lane (j : nat) hj xj :
  spec_lane_states p h lane !! j = Some hj ->
  lane !! j = Some xj ->
  spec_lane_states p h lane !! S j = Some (spec_h_next p xj hj).
Proof.
  revert h j. induction lane as [|x0 lane IH]; intros h j Hj Hx; [discriminate|].
  destruct j as [|j]; simpl in *.
  - injection Hj as <-. injection Hx as <-. apply spec_lane_states_0.
  - now apply IH.
Qed.

(** The list [s] after [k] turns of the loop. *)
Lemma rnn_loop_lanes (vs : varstore T) p (embed_out : list (list (list T)))
    (h0 : list (list T)) (k : nat) :
  gru_params_of vs = Ok p ->
  exists s : list (list (list T)),
    foldl (rnn_step vs embed_out) (Ok [h0]) (seq 0 k) = Ok s
    /\ length s = S k
    /\ s !! O = Some h0
    /\ forall (r : nat) lane h0r (j : nat) (m : list (list T)),
         embed_out !! r = Some lane -> h0 !! r = Some h0r ->
         (j <= k)%nat -> (k <= length lane)%nat ->
         s !! j = Some m ->
         m !! r = spec_lane_states p h0r lane !! j.
Proof.
  intros Hp. induction k as [|k IH].
  - exists [h0]. split; [reflexivity|]. split; [reflexivity|].
    split; [reflexivity|].
    intros r lane h0r j m _ Hh0 Hj _ Hm.
    assert (j = O) as -> by lia. injection Hm as <-.
    now rewrite spec_lane_states_0.
  - destruct IH as (s & Hs & Hlen & Hs0 & Hlanes).
    rewrite seq_S, foldl_app, Hs. cbn [foldl rnn_step bind].
    destruct (last s) as [s_1|] eqn:Hlast.
    2: { apply last_None in Hlast. subst s. discriminate. }
    rewrite cell_lanes, Hp. cbn [bind].
    exists (s ++ [zip_with (spec_h_next p) (step_input embed_out (0 + k)) s_1]).
    split; [reflexivity|].
    split; [rewrite length_app; simpl; lia|].
    split; [now apply lookup_app_l_Some|].
    intros r lane h0r j m Hlane Hh0 Hj Hk Hm.
    apply lookup_snoc_Some in Hm as [[Hjlt Hm]|[Hjeq <-]].
    + apply (Hlanes r lane h0r j m); trivial; lia.
    + assert (j = S k) as -> by lia.
      rewrite last_lookup, Hlen in Hlast. simpl in Hlast.
      pose proof (Hlanes r lane h0r k s_1 Hlane Hh0 ltac:(lia) ltac:(lia) Hlast)
        as Hprev.
      destruct (lookup_lt_is_Some_2 lane k ltac:(lia)) as [xk Hxk].
      destruct (spec_lane_states p h0r lane !! k) as [hk|] eqn:Hhk.
      * rewrite (spec_lane_states_S p h0r lane k hk xk Hhk Hxk).
        apply lookup_zip_with_Some. exists xk, hk.
        split; [reflexivity|]. split; [|assumption].
        unfold step_input. rewrite list_lookup_fmap, Hlane. simpl.
        f_equal. now apply nth_lookup_Some.
      * exfalso. apply lookup_ge_None in Hhk.
        assert (length (spec_lane_states p h0r lane) = S (length lane)) as E.
        { clear. revert h0r. induction lane; intros; simpl; auto. }
        lia.
Qed.

Lemma lookup_new_variable_eq (rand : string -> tensor T) (scope name : string)
    (shape : list Z) (init : initializer) (vs : varstore T) :
  new_variable rand scope name shape init vs !! (scope +:+ "/" +:+ name)
  = Some (mk_variable shape init true
            (initial_value rand (scope +:+ "/" +:+ name) shape init)).
Proof. unfold new_variable. apply lookup_insert_eq. Qed.

End UnrollFacts.

Section InitialState.
Import GRU Scalars Scenarios Trainer.

(** C6, as the code has it.  [h_init] is a trainable variable, initialised
    to zero and updated by the optimizer like every trainable variable; its
    shape is [(batch_size, num_cells)], one row per lane; and for every
    window the list of states of the unrolled loop starts with the current
    value of [h_init]: lane [r] runs the gated update from row [r] of it. *)
Theorem h_init_learned_per_lane (T : Type) (ST : Scalar T) :
  (forall (rand : string -> tensor T) (x_cols num_cells batch_size : Z)
          (vs0 : varstore T),
     init_rnn_cell rand x_cols num_cells batch_size vs0 !! "GRU/h_init"
     = Some (mk_variable [batch_size; num_cells] zero_initializer true
               (Mat (replicate (Z.to_nat batch_size)
                       (replicate (Z.to_nat num_cells) s_zero)))))
  /\ (forall (BT : Backend T) (s : session T) (t : batch) (v : variable T),
        vars s !! "GRU/h_init" = Some v ->
        var_trainable v = true ->
        vars (train_op s t) !! "GRU/h_init"
        = Some (mk_variable (var_shape v) (var_init v) true
                  (momentum_step (vars s) t (sampler s) "GRU/h_init" (var_value v))))
  /\ (forall (vs : varstore T) (p : gru_params T) (h0 : list (list T))
             (embed_out : list (list (list T))) (num_steps : Z),
        gru_params_of vs = Ok p ->
        h_init vs = Ok h0 ->
        exists s : list (list (list T)),
          rnn_states vs embed_out num_steps = Ok s
          /\ s !! O = Some h0
          /\ forall (r : nat) lane h0r (j : nat) (m : list (list T)),
               embed_out !! r = Some lane -> h0 !! r = Some h0r ->
               (j <= Z.to_nat num_steps)%nat ->
               (Z.to_nat num_steps <= length lane)%nat ->
               s !! j = Some m ->
               m !! r = spec_lane_states p h0r lane !! j).
Proof.
  split; [|split].
  - intros. unfold init_rnn_cell.
    exact (lookup_new_variable_eq rand "GRU" "h_init" _ _ _).
  - intros BT s t v Hv Htr. unfold train_op. cbn [vars].
    rewrite map_lookup_imap, Hv. simpl. now rewrite Htr.
  - intros vs p h0 embed_out num_steps Hp Hh.
    unfold rnn_states. rewrite Hh. cbn [bind].
    destruct (rnn_loop_lanes vs p embed_out h0 (Z.to_nat num_steps) Hp)
      as (s & Hs & _ & Hs0 & Hlanes).
    exists s. split; [exact Hs|]. split; [exact Hs0|]. exact Hlanes.
Qed.

Lemma h_init_learned_per_lane_witness :
  var_trainable <$> (named_store !! "GRU/h_init") = Some true
  /\ exists s : list (list (list expr)),
       rnn_states named_store [[[Var "x"]]; [[Var "y"]]] 1 = Ok s
       /\ s !! O = Some [[Const 0]; [Const 0]].
Proof.
  destruct (h_init_learned_per_lane expr expr_Scalar) as (Hdecl & _ & Hrun).
  split.
  - unfold named_store. now rewrite Hdecl.
  - destruct (Hrun named_store
                (mk_gru_params [[Var "wr0"]; [Var "wr1"]] [[Var "wz0"]; [Var "wz1"]]
                   [[Var "w0"]; [Var "w1"]] [Const 1] [Const 1] [Const 0])
                [[Const 0]; [Const 0]] [[[Var "x"]]; [[Var "y"]]] 1%Z)
      as (s & Hs & Hs0 & _).
    + reflexivity.
    + reflexivity.
    + exists s. split; [exact Hs | exact Hs0].
Defined.

(** C6 as stated fails: for the notebook's configuration the variable
    [h_init] has shape [(32, 128)], not [(128)]; and in a store whose
    [h_init] holds the rows [a] and [b] there is no single vector that all
    lanes start from: two lanes fed the same token start from different
    states. *)
Lemma h_init_not_shared_counterexample :
  var_shape <$> (init_rnn_cell named_weights 64 128 32 ∅ !! "GRU/h_init")
  = Some [32; 128]%Z
  /\ h_init lanes_store = Ok [[Var "a"]; [Var "b"]]
  /\ rnn_states lanes_store [[[Var "x"]]; [[Var "x"]]] 0
     = Ok [[[Var "a"]; [Var "b"]]]
  /\ ~ (exists v : list expr, h_init lanes_store = Ok (replicate 2 v)).
Proof.
  split; [reflexivity|]. split; [reflexivity|]. split; [reflexivity|].
  intros [v Hv]. vm_compute in Hv. congruence.
Qed.

End InitialState.

(** ** The moving-average buffer of the training loop *)

Section BufferFacts.
Import Trainer.
Context {T : Type} {ST : Scalar T} {BT : Backend T}.
Local Open Scope Z_scope.

(** The slot written by the batch whose run fetches the step [s0 + k]. *)
Local Abbreviation slot s0 k := (Z.to_nat ((s0 + Z.of_nat k) `mod` move_avg_len)).

Lemma slot_lt (s0 : Z) (k : nat) : (slot s0 k < 20)%nat.
Proof.
  unfold move_avg_len.
  pose proof (Z.mod_pos_bound (s0 + Z.of_nat k) 20 ltac:(lia)). lia.
Qed.

Lemma slot_ne (s0 : Z) (j k : nat) :
  (j < k)%nat -> (k < j + 20)%nat -> slot s0 j <> slot s0 k.
Proof.
  intros Hjk Hk. unfold move_avg_len.
  pose proof (Z.mod_pos_bound (s0 + Z.of_nat j) 20 ltac:(lia)).
  pose proof (Z.mod_pos_bound (s0 + Z.of_nat k) 20 ltac:(lia)).
  pose proof (Z.div_mod (s0 + Z.of_nat j) 20 ltac:(lia)).
  pose proof (Z.div_mod (s0 + Z.of_nat k) 20 ltac:(lia)).
  lia.
Qed.

Lemma sess_train_batch (st : train_state T) (t : batch) :
  sess (train_batch st t) = session_after (sess st) t.
Proof. reflexivity. Qed.

Lemma global_step_session_after (s : session T) (t : batch) :
  global_step (session_after s t) = global_step s + 1.
Proof.
  unfold session_after, train_batch. cbn.
  now destruct ((global_step s + 1) `mod` summary_interval =? 0).
Qed.

Lemma sess_foldl_train_batch (st : train_state T) (ts : list batch) :
  sess (foldl train_batch st ts) = foldl session_after (sess st) ts.
Proof.
  revert st. induction ts as [|t ts IH]; intros st; [reflexivity|].
  cbn [foldl]. now rewrite IH, sess_train_batch.
Qed.

Lemma global_step_foldl_session_after (s : session T) (ts : list batch) :
  global_step (foldl session_after s ts) = global_step s + len ts.
Proof.
  revert s. induction ts as [|t ts IH]; intros s; unfold len in *; cbn [foldl].
  - simpl. lia.
  - rewrite IH, global_step_session_after. simpl length. lia.
Qed.

Lemma length_train_batch (st : train_state T) (t : batch) :
  length (move_avg_loss (train_batch st t)) = length (move_avg_loss st).
Proof. unfold train_batch. simpl. apply length_insert. Qed.

Lemma length_foldl_train_batch (st : train_state T) (ts : list batch) :
  length (move_avg_loss (foldl train_batch st ts)) = length (move_avg_loss st).
Proof.
  revert st. induction ts as [|t ts IH]; intros st; [reflexivity|].
  simpl. now rewrite IH, length_train_batch.
Qed.

Lemma batch_losses_snoc (s : session T) (ts : list batch) (t : batch) :
  batch_losses s (ts ++ [t])
  = batch_losses s ts
    ++ [nce_batch_loss (vars (foldl session_after s ts)) t
          (sampler (foldl session_after s ts))].
Proof.
  revert s. induction ts as [|t0 ts IH]; intros s; [reflexivity|].
  cbn [batch_losses foldl app]. now rewrite IH.
Qed.

Lemma length_batch_losses (s : session T) (ts : list batch) :
  length (batch_losses s ts) = length ts.
Proof. revert s. induction ts; intros; simpl; auto. Qed.




(** After the batches [ts], the slot of each of the last twenty batches
    holds the loss of that batch. *)
Lemma buffer_slots (st : train_state T) (ts : list batch) :
  length (move_avg_loss st) = 20%nat ->
  forall k : nat,
    (k < length ts)%nat -> (length ts <= k + 20)%nat ->
    move_avg_loss (foldl train_batch st ts) !! slot (global_step (sess st) + 1) k
    = batch_losses (sess st) ts !! k.
Proof.
  intros Hlen. induction ts as [|t ts IH] using rev_ind; intros k Hk Hlast.
  - simpl in Hk. lia.
  - rewrite length_app in Hk, Hlast. simpl in Hk, Hlast.
    rewrite foldl_snoc, batch_losses_snoc.
    unfold train_batch at 1. cbn [train_step record_step move_avg_loss].
    rewrite sess_foldl_train_batch, global_step_foldl_session_after.
    replace (global_step (sess st) + len ts + 1)
      with (global_step (sess st) + 1 + Z.of_nat (length ts)) by (unfold len; lia).
    destruct (decide (k = length ts)) as [->|Hne].
    + rewrite list_lookup_insert_eq
        by (rewrite length_foldl_train_batch, Hlen; apply slot_lt).
      rewrite lookup_app_r by (rewrite length_batch_losses; lia).
      now rewrite length_batch_losses, Nat.sub_diag.
    + rewrite list_lookup_insert_ne
        by (apply not_eq_sym, slot_ne; lia).
      rewrite lookup_app_l by (rewrite length_batch_losses; lia).
      apply IH; lia.
Qed.

Lemma buffer_last_losses (st : train_state T) (ts : list batch) :
  length (move_avg_loss st) = 20%nat ->
  (20 <= length ts)%nat ->
  move_avg_loss (foldl train_batch st ts)
  ≡ₚ drop (length ts - 20) (batch_losses (sess st) ts).
Proof.
  intros Hlen Hts. symmetry. apply Permutation_inj. split.
  - rewrite length_drop, length_batch_losses, length_foldl_train_batch. lia.
  - exists (fun i : nat =>
              if decide (i < 20)%nat
              then slot (global_step (sess st) + 1) (length ts - 20 + i)
              else i).
    split.
    + intros i j Hij.
      pose proof (slot_lt (global_step (sess st) + 1) (length ts - 20 + i)) as Hi.
      pose proof (slot_lt (global_step (sess st) + 1) (length ts - 20 + j)) as Hj.
      repeat case_decide; try lia.
      destruct (decide (i = j)) as [|Hne]; [assumption|exfalso].
      destruct (decide (i < j)%nat).
      * apply (slot_ne (global_step (sess st) + 1) (length ts - 20 + i)
                 (length ts - 20 + j)); [lia|lia|exact Hij].
      * apply (slot_ne (global_step (sess st) + 1) (length ts - 20 + j)
                 (length ts - 20 + i)); [lia|lia|now symmetry].
    + intros i. rewrite lookup_drop. case_decide as Hi.
      * symmetry. apply buffer_slots; [assumption|lia|lia].
      * rewrite !(proj2 (lookup_ge_None _ _)); [reflexivity| |].
        -- rewrite length_foldl_train_batch. lia.
        -- rewrite length_batch_losses. lia.
Qed.


End BufferFacts.

Section BufferClaims.
Import Trainer Scalars Scenarios MoreScenarios.
Local Open Scope Z_scope.



(** Three batches of the tiny model from a fresh session: the runs fetch the
    steps 1, 2 and 3, and the losses 5, 6 and 7 are in the slots 1, 2 and 3;
    slot 0 still holds its initial zero. *)
Example three_batches_buffer :
  take 5 (move_avg_loss
            (train_batches (BT := offset_backend) tiny_config
               (train_init tiny_session)
               [([[1; 2]], [[0]]); ([[2; 0]], [[1]]); ([[0; 1]], [[2]])]).1)
  = [Const 0; Const 5; Const 6; Const 7; Const 0].
Proof. reflexivity. Qed.

End BufferClaims.

(** ** Greedy generation depends on the variables and the seed alone *)

Section GeneratorFacts.
Import Trainer Generator.
Context {T : Type} {ST : Scalar T}.
Variable encoder : varstore T -> Config -> list (list Z) -> result (list (list T)).
Local Open Scope Z_scope.

Lemma run_y_hat_vars (s1 s2 : session T) (config : Config) (x : list (list Z)) :
  vars s1 = vars s2 ->
  run_y_hat encoder s1 config x = run_y_hat encoder s2 config x.
Proof. intros Hv. unfold run_y_hat. now rewrite Hv. Qed.

Lemma generate_from_vars (s1 s2 : session T) (config : Config) (n : nat)
    (i : Z) (input : list Z) :
  vars s1 = vars s2 ->
  generate_from encoder s1 config n i input
  = generate_from encoder s2 config n i input.
Proof.
  intros Hv. revert i input. induction n as [|n IH]; intros i input; [reflexivity|].
  simpl. destruct (reshape _ 1 (-1)) as [x|e]; [|reflexivity]. simpl.
  rewrite (run_y_hat_vars s1 s2 config x Hv).
  destruct (run_y_hat encoder s2 config x) as [pred|e]; [|reflexivity].
  simpl. apply IH.
Qed.

(** The last turn of the loop: the output of [n + 1] turns is the output of
    [n] turns followed by the prediction for its window at offset [n]. *)
Lemma generate_from_snoc (s : session T) (config : Config) (n : nat) (i : Z)
    (input : list Z) :
  generate_from encoder s config (S n) i input
  = (out <- generate_from encoder s config n i input ;;
     x <- reshape (slice out (i + Z.of_nat n)
                     (i + Z.of_nat n + num_rnn_steps config)) 1 (-1) ;;
     pred <- run_y_hat encoder s config x ;;
     Ok (out ++ pred)).
Proof.
  revert i input. induction n as [|n IH]; intros i input.
  - cbn [generate_from bind Z.of_nat]. rewrite Z.add_0_r.
    destruct (reshape _ 1 (-1)) as [x|e]; [|reflexivity]. simpl.
    destruct (run_y_hat encoder s config x) as [pred|e]; reflexivity.
  - change (generate_from encoder s config (S (S n)) i input)
      with (x <- reshape (slice input i (i + num_rnn_steps config)) 1 (-1) ;;
            pred <- run_y_hat encoder s config x ;;
            generate_from encoder s config (S n) (i + 1) (input ++ pred)).
    change (generate_from encoder s config (S n) i input)
      with (x <- reshape (slice input i (i + num_rnn_steps config)) 1 (-1) ;;
            pred <- run_y_hat encoder s config x ;;
            generate_from encoder s config n (i + 1) (input ++ pred)).
    destruct (reshape (slice input i (i + num_rnn_steps config)) 1 (-1))
      as [x|e]; [|reflexivity]. cbn [bind].
    destruct (run_y_hat encoder s config x) as [pred|e]; [|reflexivity].
    cbn [bind]. rewrite IH.
    replace (i + 1 + Z.of_nat n) with (i + Z.of_nat (S n)) by lia.
    reflexivity.
Qed.

End GeneratorFacts.

(** ** The predictor picks a largest score *)

Section ArgmaxFacts.
Import Loss.
Context {T : Type} {ST : Scalar T}.

Lemma spec_sum_products_foldl (acc : T) (u v : list T) :
  spec_sum_products acc u v = foldl s_add acc (zip_with s_mul u v).
Proof.
  revert acc v. induction u as [|a u IH]; intros acc [|c v]; simpl; auto.
Qed.

(** The scores the graph computes are the scores of the design document. *)
Lemma dense_scores_spec (representation : list T) (w : list (list T)) (b : list T) :
  zip_with s_add (dot representation <$> w) b = spec_dense_scores representation w b.
Proof.
  revert b. induction w as [|w_j w IH]; intros [|b_j b]; simpl; try reflexivity.
  rewrite IH. unfold dot. now rewrite spec_sum_products_foldl.
Qed.

Lemma length_spec_dense_scores (representation : list T) (w : list (list T))
    (b : list T) :
  length (spec_dense_scores representation w b) = Nat.min (length w) (length b).
Proof.
  rewrite <- dense_scores_spec. now rewrite length_zip_with, length_fmap.
Qed.

Lemma ordered_spec (l : list T) (a b c : T) :
  ordered l = true -> a ∈ l -> b ∈ l -> c ∈ l ->
  s_ltb a a = false
  /\ (s_ltb a b = true -> s_ltb b c = true -> s_ltb a c = true)
  /\ (s_ltb a b = false -> s_ltb b c = false -> s_ltb a c = false).
Proof.
  unfold ordered. intros H Ha Hb Hc.
  apply list_elem_of_In in Ha, Hb, Hc.
  rewrite forallb_forall in H. specialize (H a Ha).
  apply andb_prop in H as [Hirr H].
  rewrite forallb_forall in H. specialize (H b Hb).
  rewrite forallb_forall in H. specialize (H c Hc).
  apply andb_prop in H as [Htrans Hneg].
  split; [now apply negb_true_iff in Hirr|]. split.
  - intros Hab Hbc. rewrite Hab, Hbc in Htrans. exact Htrans.
  - intros Hab Hbc. rewrite Hab, Hbc in Hneg. simpl in Hneg.
    now apply negb_true_iff in Hneg.
Qed.

(** The scan of [argmax]: its winner is not below any value it has seen, and
    every value seen before the winner is strictly below it. *)
Lemma argmax_from_ordered (all l : list T) (best_i : nat) (best : T) (i k : nat) :
  ordered all = true ->
  best ∈ all ->
  Forall (fun u => u ∈ all) l ->
  (best_i < i)%nat ->
  argmax_from best_i best i l = k ->
  exists v : T,
    ((k = best_i /\ v = best) \/ ((i <= k)%nat /\ l !! (k - i)%nat = Some v))
    /\ v ∈ all
    /\ s_ltb v best = false
    /\ Forall (fun u => s_ltb v u = false) l
    /\ (forall (j : nat) (u : T), (i + j < k)%nat -> l !! j = Some u -> s_ltb u v = true)
    /\ ((i <= k)%nat -> s_ltb best v = true).
Proof.
  intros Hord. revert best_i best i.
  induction l as [|a l IH]; intros best_i best i Hbest Hall Hlt Hk.
  - simpl in Hk. subst k. exists best.
    split; [now left|]. split; [exact Hbest|].
    split; [exact (proj1 (ordered_spec all best best best Hord Hbest Hbest Hbest))|].
    split; [constructor|]. split; [intros j u _ Hj; discriminate|lia].
  - pose proof (Forall_inv Hall) as Ha. pose proof (Forall_inv_tail Hall) as Hl.
    simpl in Hk. destruct (s_ltb best a) eqn:Hba.
    + destruct (IH i a (S i) Ha Hl ltac:(lia) Hk) as (v & HA & Hv & HB & HC & HD & HE).
      destruct (ordered_spec all v best a Hord Hv Hbest Ha) as (_ & Hvba & _).
      destruct (ordered_spec all best v a Hord Hbest Hv Ha) as (_ & _ & Hbva).
      exists v. split.
      { right. destruct HA as [[-> ->]|[Hge Hat]].
        - split; [lia|]. now rewrite Nat.sub_diag.
        - split; [lia|]. replace (k - i)%nat with (S (k - S i)) by lia. exact Hat. }
      split; [exact Hv|]. split.
      { destruct (s_ltb v best) eqn:Hvb; [|reflexivity].
        rewrite (Hvba eq_refl Hba) in HB. discriminate. }
      split; [constructor; assumption|]. split.
      * intros j u Hj Hu. destruct j as [|j].
        -- simpl in Hu. injection Hu as <-. apply HE. lia.
        -- simpl in Hu. apply (HD j u); [lia|assumption].
      * intros _. destruct (s_ltb best v) eqn:Hbv; [reflexivity|].
        rewrite (Hbva eq_refl HB) in Hba. discriminate.
    + destruct (IH best_i best (S i) Hbest Hl ltac:(lia) Hk)
        as (v & HA & Hv & HB & HC & HD & HE).
      destruct (ordered_spec all v best a Hord Hv Hbest Ha) as (_ & _ & Hvba).
      destruct (ordered_spec all best a v Hord Hbest Ha Hv) as (_ & _ & Hbav).
      assert ((i <= k)%nat -> (S i <= k)%nat) as Hin.
      { intros Hik. destruct HA as [[-> _]|[Hge _]]; lia. }
      exists v. split.
      { destruct HA as [[-> ->]|[Hge Hat]]; [now left|right].
        split; [lia|]. replace (k - i)%nat with (S (k - S i)) by lia. exact Hat. }
      split; [exact Hv|]. split; [exact HB|].
      split; [constructor; [now apply Hvba|assumption]|]. split.
      * intros j u Hj Hu. destruct j as [|j].
        -- simpl in Hu. injection Hu as <-.
           assert (s_ltb best v = true) as Hbv by (apply HE, Hin; lia).
           destruct (s_ltb a v) eqn:Hav; [reflexivity|].
           rewrite (Hbav Hba eq_refl) in Hbv. discriminate.
        -- simpl in Hu. apply (HD j u); [lia|assumption].
      * intros Hik. apply HE, Hin, Hik.
Qed.

(** The winner holds a largest value, and every value before it is strictly
    smaller: ties go to the first index. *)
Lemma argmax_first_max (l : list T) :
  l <> [] ->
  ordered l = true ->
  exists v : T,
    l !! argmax l = Some v
    /\ (forall (j : nat) (u : T), l !! j = Some u -> s_ltb v u = false)
    /\ (forall (j : nat) (u : T), (j < argmax l)%nat -> l !! j = Some u ->
          s_ltb u v = true).
Proof.
  destruct l as [|a l]; [congruence|]. intros _ Hord. unfold argmax.
  destruct (argmax_from_ordered (a :: l) l O a 1 (argmax_from O a 1 l) Hord
              ltac:(constructor)
              ltac:(apply Forall_forall; intros u Hu; now constructor)
              ltac:(lia) eq_refl)
    as (v & HA & _ & HB & HC & HD & HE).
  exists v. split; [|split].
  - destruct HA as [[-> ->]|[Hge Hat]]; [reflexivity|].
    replace (argmax_from O a 1 l) with (S (argmax_from O a 1 l - 1)) at 1 by lia.
    exact Hat.
  - intros j u Hu. destruct j as [|j].
    + simpl in Hu. now injection Hu as <-.
    + simpl in Hu. rewrite Forall_forall in HC. apply HC.
      apply list_elem_of_lookup. eauto.
  - intros j u Hj Hu. destruct j as [|j].
    + simpl in Hu. injection Hu as <-. apply HE. lia.
    + simpl in Hu. apply (HD j u); [lia|assumption].
Qed.

Lemma y_hat_run (vs : varstore T) (hid_out w : list (list T)) (b : list T) :
  get_mat vs "output" "w" = Ok w ->
  get_vec vs "output" "b" = Ok b ->
  y_hat vs hid_out
  = Ok ((fun representation : list T =>
           Z.of_nat (argmax (zip_with s_add (dot representation <$> w) b)))
        <$> hid_out).
Proof.
  intros Hw Hb. unfold y_hat. rewrite Hw. cbn [bind]. rewrite Hb. cbn [bind].
  unfold argmax1, add_bias, matmul_transpose_b.
  now rewrite <- !list_fmap_compose.
Qed.

(** The prediction for one lane: the first index of a largest score, when
    the scores can be compared. *)
Lemma y_hat_lane (vs : varstore T) (hid_out w : list (list T)) (b : list T)
    (preds : list Z) (r : nat) (representation : list T) :
  get_mat vs "output" "w" = Ok w ->
  get_vec vs "output" "b" = Ok b ->
  w <> [] -> b <> [] ->
  y_hat vs hid_out = Ok preds ->
  hid_out !! r = Some representation ->
  exists tok : Z,
    preds !! r = Some tok
    /\ (0 <= tok)%Z
    /\ (ordered (spec_dense_scores representation w b) = true ->
        exists v : T,
          spec_dense_scores representation w b !! Z.to_nat tok = Some v
          /\ (forall (j : nat) (u : T),
                spec_dense_scores representation w b !! j = Some u ->
                s_ltb v u = false)
          /\ (forall (j : nat) (u : T),
                (j < Z.to_nat tok)%nat ->
                spec_dense_scores representation w b !! j = Some u ->
                s_ltb u v = true)).
Proof.
  intros Hw Hb Hwne Hbne Hrun Hr.
  rewrite (y_hat_run vs hid_out w b Hw Hb) in Hrun. injection Hrun as <-.
  set (scores := spec_dense_scores representation w b).
  exists (Z.of_nat (argmax scores)).
  split.
  { rewrite list_lookup_fmap, Hr. simpl. now rewrite dense_scores_spec. }
  split; [lia|]. intros Hord. rewrite Nat2Z.id.
  apply argmax_first_max; [|exact Hord].
  intros E. apply (f_equal length) in E. subst scores.
  rewrite length_spec_dense_scores in E. destruct w, b; simpl in E; congruence.
Qed.

End ArgmaxFacts.

(** Over the reals every list of scores can be compared. *)
Lemma R_ordered (l : list R) : ordered (ST := Scalars.R_Scalar) l = true.
Proof.
  unfold ordered. apply forallb_forall. intros a _.
  apply andb_true_intro. split.
  { cbn [s_ltb Scalars.R_Scalar]. destruct (Rlt_dec a a); [lra|reflexivity]. }
  apply forallb_forall. intros b _. apply forallb_forall. intros c _.
  cbn [s_ltb Scalars.R_Scalar].
  destruct (Rlt_dec a b), (Rlt_dec b c), (Rlt_dec a c); try reflexivity; lra.
Qed.

(** ** The model on a fed window *)

Section ModelFacts.
Import GRU Encoder.
Context {T : Type} {ST : Scalar T}.
Local Open Scope Z_scope.

Lemma mapR_Raise {A B : Type} (f : A -> result B) (e : exn) (l : list A) :
  (forall a, a ∈ l -> (exists b, f a = Ok b) \/ f a = Raise e) ->
  (exists a, a ∈ l /\ f a = Raise e) ->
  mapR f l = Raise e.
Proof.
  induction l as [|a l IH]; intros Hall (a0 & Hin & Ha0).
  - now apply elem_of_nil in Hin.
  - simpl. destruct (Hall a ltac:(constructor)) as [[b Hb]|Hb]; rewrite Hb;
      [|reflexivity].
    rewrite IH; [reflexivity| |].
    + intros a' Ha'. apply Hall. now constructor.
    + apply elem_of_cons in Hin as [->|Hin]; [congruence|]. now exists a0.
Qed.

Lemma int32_small (z : Z) : -2147483648 <= z < 2147483648 -> int32 z = z.
Proof. intros Hz. unfold int32. rewrite Z.mod_small by lia. lia. Qed.

Lemma as_int32_small (n : Z) (x : list (list Z)) :
  n <= 2147483648 -> tokens_in n x -> as_int32 x = x.
Proof.
  intros Hn Htok. unfold as_int32, tokens_in in *.
  induction Htok as [|row x Hrow _ IH]; [reflexivity|].
  cbn [fmap list_fmap]. f_equal; [|exact IH].
  induction Hrow as [|id row Hid _ IHrow]; [reflexivity|].
  cbn [fmap list_fmap]. f_equal; [|exact IHrow]. apply int32_small. lia.
Qed.

Lemma feed_int32_accepts (rows cols : Z) (x : list (list Z)) :
  len x = rows -> Forall (fun row => len row = cols) x ->
  feed_int32 rows cols x = Ok (as_int32 x).
Proof.
  intros Hlen Hrows. unfold feed_int32.
  rewrite bool_decide_eq_true_2 by assumption. simpl.
  assert (forallb (fun row => bool_decide (len row = cols)) x = true)
    as ->; [|reflexivity].
  apply forallb_forall. intros row Hrow. apply bool_decide_eq_true_2.
  rewrite Forall_forall in Hrows. apply Hrows. now apply list_elem_of_In.
Qed.

Lemma feed_int32_rejects (rows cols : Z) (x : list (list Z)) :
  ~ (len x = rows /\ Forall (fun row => len row = cols) x) ->
  feed_int32 rows cols x = Raise ValueError.
Proof.
  intros Hno. unfold feed_int32.
  destruct (bool_decide (len x = rows)) eqn:Hlen; [|reflexivity].
  destruct (forallb _ x) eqn:Hrows; [|reflexivity].
  exfalso. apply Hno. split.
  - now apply bool_decide_eq_true_1 in Hlen.
  - apply Forall_forall. intros row Hrow.
    rewrite forallb_forall in Hrows.
    apply list_elem_of_In in Hrow. specialize (Hrows row Hrow).
    now apply bool_decide_eq_true_1 in Hrows.
Qed.

Lemma placeholder_x_accepts (config : Config) (x : list (list Z)) :
  window_shape config x -> placeholder_x config x = Ok (as_int32 x).
Proof. intros [Hlen Hrows]. now apply feed_int32_accepts. Qed.

Lemma placeholder_x_rejects (config : Config) (x : list (list Z)) :
  ~ window_shape config x -> placeholder_x config x = Raise ValueError.
Proof. apply feed_int32_rejects. Qed.

Lemma window_shape_as_int32 (config : Config) (x : list (list Z)) :
  window_shape config x -> window_shape config (as_int32 x).
Proof.
  intros [Hlen Hrows]. unfold as_int32. split.
  - unfold len in *. now rewrite length_fmap.
  - apply Forall_fmap. eapply Forall_impl; [exact Hrows|].
    intros row Hrow. simpl. unfold len in *. now rewrite length_fmap.
Qed.

Lemma well_sized_model_graph (config : Config) :
  well_sized config -> model_graph config = Ok tt.
Proof.
  intros (Hbs & Hns & Hv & He & Hr & Hh & Hn & Hd). unfold model_graph.
  repeat match goal with
         | |- context [(?a <=? ?b)] =>
             destruct (Z.leb_spec a b); [|lia]
         end.
  reflexivity.
Qed.


(** What cannot be built: a graph without a first step, or with more
    embeddings to show than there are. *)
Lemma model_graph_rejects (config : Config) :
  num_rnn_steps config < 1 \/ vocab_size config < embed_vis_depth config ->
  model_graph config = Raise ValueError.
Proof.
  intros Hbad. unfold model_graph.
  destruct (Z.leb_spec 1 (num_rnn_steps config));
    destruct (Z.leb_spec (embed_vis_depth config) (vocab_size config));
    try lia; rewrite ?andb_false_r; cbn [andb];
    rewrite ?andb_false_r; reflexivity.
Qed.

Lemma embedding_lookup_Ok (embed_w : list (list T)) (x : list (list Z)) :
  tokens_in (len embed_w) x ->
  embedding_lookup embed_w x = Ok (spec_embed embed_w <$> x).
Proof.
  intros Htok. unfold embedding_lookup.
  apply (mapR_Ok _ (spec_embed embed_w)). intros row Hrow.
  apply (mapR_Ok _ (fun id : Z => nth (Z.to_nat id) embed_w [])).
  intros id Hid. unfold tokens_in in Htok. rewrite Forall_forall in Htok.
  specialize (Htok row Hrow). rewrite Forall_forall in Htok.
  specialize (Htok id Hid). unfold len in Htok.
  destruct (Z.ltb_spec id 0) as [|_]; [lia|].
  destruct (lookup_lt_is_Some_2 embed_w (Z.to_nat id) ltac:(lia)) as [v Hv].
  rewrite Hv. f_equal. symmetry. now apply nth_lookup_Some.
Qed.

Lemma embedding_lookup_bad (embed_w : list (list T)) (x : list (list Z)) :
  ~ tokens_in (len embed_w) x ->
  embedding_lookup embed_w x = Raise InvalidArgumentError.
Proof.
  intros Hbad. unfold tokens_in in Hbad.
  assert (forall id : Z,
            (exists v : list T,
               (if id <? 0 then Raise InvalidArgumentError
                else match embed_w !! Z.to_nat id with
                     | Some v => Ok v
                     | None => Raise InvalidArgumentError
                     end) = Ok v)
            \/ (if id <? 0 then Raise InvalidArgumentError
                else match embed_w !! Z.to_nat id with
                     | Some v => Ok v
                     | None => Raise InvalidArgumentError
                     end) = Raise InvalidArgumentError) as Hcell.
  { intros id. destruct (id <? 0); [now right|].
    destruct (embed_w !! Z.to_nat id) as [v|]; [left; now exists v|now right]. }
  apply not_Forall_Exists in Hbad; [|intros row; apply Forall_dec; intros id;
    destruct (decide (0 <= id < len embed_w)); [now left|now right]].
  apply Exists_exists in Hbad as (row & Hrow & Hrowbad).
  apply not_Forall_Exists in Hrowbad; [|intros id;
    destruct (decide (0 <= id < len embed_w)); [now left|now right]].
  apply Exists_exists in Hrowbad as (id & Hid & Hidbad).
  unfold embedding_lookup. apply mapR_Raise.
  - intros row' _.
    destruct (mapR _ row') as [vs|e] eqn:Hm; [left; now exists vs|right].
    f_equal. revert e Hm. induction row' as [|id' row' IH]; intros e Hm;
      [discriminate|].
    simpl in Hm. destruct (Hcell id') as [[v Hv]|Hv]; rewrite Hv in Hm.
    + destruct (mapR _ row') as [vs|e'] eqn:Hm'; [discriminate|].
      injection Hm as <-. now apply IH.
    + now injection Hm as <-.
  - exists row. split; [assumption|].
    apply mapR_Raise; [intros id' _; apply Hcell|].
    exists id. split; [assumption|].
    destruct (Z.ltb_spec id 0) as [|Hge]; [reflexivity|].
    rewrite (proj2 (lookup_ge_None embed_w (Z.to_nat id))); [reflexivity|].
    unfold compose, len in Hidbad. lia.
Qed.

End ModelFacts.

Section ModelRuns.
Import GRU Encoder.
Context {T : Type} {ST : Scalar T}.
Local Open Scope Z_scope.

Lemma spec_lane_states_last (p : gru_params T) (h : list T) (lane : list (list T)) :
  spec_lane_states p h lane !! length lane = Some (spec_final_state p h lane).
Proof.
  revert h. induction lane as [|x lane IH]; intros h; [reflexivity|].
  simpl. apply IH.
Qed.

Lemma rnn_loop_rows (vs : varstore T) (p : gru_params T)
    (embed_out : list (list (list T))) (h0 : list (list T)) (k : nat)
    (s : list (list (list T))) :
  gru_params_of vs = Ok p ->
  length embed_out = length h0 ->
  foldl (rnn_step vs embed_out) (Ok [h0]) (seq 0 k) = Ok s ->
  Forall (fun m => length m = length h0) s.
Proof.
  intros Hp Hlen. revert s. induction k as [|k IH]; intros s Hs.
  - simpl in Hs. injection Hs as <-. repeat constructor.
  - rewrite seq_S, foldl_app in Hs. cbn [foldl] in Hs.
    destruct (foldl (rnn_step vs embed_out) (Ok [h0]) (seq 0 k)) as [s'|e];
      [|discriminate].
    specialize (IH s' eq_refl). cbn [rnn_step bind] in Hs.
    destruct (last s') as [s_1|] eqn:Hlast; [|discriminate].
    rewrite cell_lanes, Hp in Hs. cbn [bind] in Hs. injection Hs as <-.
    apply Forall_app. split; [assumption|]. constructor; [|constructor].
    rewrite length_zip_with. unfold step_input. rewrite length_fmap.
    rewrite last_lookup in Hlast.
    pose proof (Forall_lookup_1 _ _ _ _ IH Hlast) as Hs1. simpl in Hs1. lia.
Qed.

(** The model on an accepted window of known tokens: the state it feeds
    the dense layer holds, lane by lane, the final state of that lane. *)
Lemma model_run (vs : varstore T) (config : Config) (x : list (list Z))
    (embed_w : list (list T)) (p : gru_params T) (h0 hid_w : list (list T))
    (hid_b : list T) :
  get_mat vs "embedding" "w" = Ok embed_w ->
  gru_params_of vs = Ok p ->
  h_init vs = Ok h0 ->
  get_mat vs "hidden" "w" = Ok hid_w ->
  get_vec vs "hidden" "b" = Ok hid_b ->
  model_graph config = Ok tt ->
  len embed_w <= 2147483648 ->
  window_shape config x ->
  tokens_in (len embed_w) x ->
  exists m : list (list T),
    model vs config x = Ok (tanh2 (add_bias (matmul m hid_w) hid_b))
    /\ (forall (r : nat) tokens h0r,
          x !! r = Some tokens -> h0 !! r = Some h0r ->
          m !! r = Some (spec_final_state p h0r (spec_embed embed_w tokens)))
    /\ (length h0 = length x -> length m = length x).
Proof.
  intros HE Hp Hh0 Hw Hb Hgraph Hfit Hshape Htok.
  unfold model. rewrite Hgraph. cbn [bind].
  rewrite placeholder_x_accepts by assumption. cbn [bind].
  rewrite (as_int32_small (len embed_w)) by assumption.
  rewrite HE. cbn [bind]. rewrite embedding_lookup_Ok by assumption. cbn [bind].
  unfold rnn_states. rewrite Hh0. cbn [bind].
  set (embed_out := spec_embed embed_w <$> x).
  set (k := Z.to_nat (num_rnn_steps config)).
  destruct (rnn_loop_lanes vs p embed_out h0 k Hp) as (s & Hs & Hlen & _ & Hlanes).
  rewrite Hs. cbn [bind].
  rewrite last_lookup, Hlen. cbn [pred].
  destruct (lookup_lt_is_Some_2 s k ltac:(lia)) as [m Hm].
  rewrite Hm, Hw. cbn [bind]. rewrite Hb. cbn [bind].
  exists m. split; [reflexivity|]. split.
  - intros r tokens h0r Hx Hr.
    assert (length tokens = k) as Htl.
    { destruct Hshape as [_ Hrows].
      pose proof (Forall_lookup_1 _ _ _ _ Hrows Hx) as Hrow. simpl in Hrow.
      unfold len in Hrow. subst k. lia. }
    rewrite (Hlanes r (spec_embed embed_w tokens) h0r k m); trivial.
    + replace k with (length (spec_embed embed_w tokens))
        by (unfold spec_embed; now rewrite length_fmap).
      apply spec_lane_states_last.
    + subst embed_out. now rewrite list_lookup_fmap, Hx.
    + unfold spec_embed. rewrite length_fmap. lia.
  - intros Hrows.
    assert (length embed_out = length h0) as Hlen'
      by (subst embed_out; rewrite length_fmap; lia).
    pose proof (rnn_loop_rows vs p embed_out h0 k s Hp Hlen' Hs) as Hall.
    pose proof (Forall_lookup_1 _ _ _ _ Hall Hm) as Hmlen. simpl in Hmlen. lia.
Qed.

Lemma lookup_dense (m hid_w : list (list T)) (hid_b : list T) (r : nat) (h : list T) :
  m !! r = Some h ->
  tanh2 (add_bias (matmul m hid_w) hid_b) !! r
  = Some (s_tanh <$> spec_affine h hid_w hid_b).
Proof.
  intros Hm. unfold tanh2, add_bias, matmul.
  rewrite !list_lookup_fmap, Hm. simpl. now rewrite spec_affine_matmul.
Qed.

End ModelRuns.

Section ModelRows.
Import Trainer Generator GRU Encoder.
Context {T : Type} {ST : Scalar T}.
Local Open Scope Z_scope.

Lemma mapR_length {A B : Type} (f : A -> result B) (l : list A) (l' : list B) :
  mapR f l = Ok l' -> length l' = length l.
Proof.
  revert l'. induction l as [|a l IH]; intros l' Hl; simpl in Hl.
  - now injection Hl as <-.
  - destruct (f a); [|discriminate]. destruct (mapR f l); [|discriminate].
    injection Hl as <-. simpl. f_equal. now apply IH.
Qed.


(** When [model] returns, it returns one row per lane. *)
Lemma model_rows (vs : varstore T) (config : Config) (x : list (list Z))
    (h : list (list T)) (embed_w : list (list T)) (p : gru_params T)
    (h0 hid_w : list (list T)) (hid_b : list T) :
  get_mat vs "embedding" "w" = Ok embed_w ->
  gru_params_of vs = Ok p ->
  h_init vs = Ok h0 ->
  get_mat vs "hidden" "w" = Ok hid_w ->
  get_vec vs "hidden" "b" = Ok hid_b ->
  len h0 = batch_size config ->
  model vs config x = Ok h ->
  len h = batch_size config.
Proof.
  intros HE Hp Hh0 Hw Hb Hrows Hrun. unfold model in Hrun.
  destruct (model_graph config); [|discriminate]. cbn [bind] in Hrun.
  destruct (decide (window_shape config x)) as [Hshape|Hshape].
  2: { rewrite placeholder_x_rejects in Hrun by exact Hshape. discriminate. }
  rewrite placeholder_x_accepts in Hrun by exact Hshape. cbn [bind] in Hrun.
  rewrite HE in Hrun. cbn [bind] in Hrun.
  destruct (embedding_lookup embed_w (as_int32 x)) as [embed_out|e] eqn:Hlook;
    [|discriminate].
  cbn [bind] in Hrun. unfold rnn_states in Hrun.
  rewrite Hh0 in Hrun. cbn [bind] in Hrun.
  apply mapR_length in Hlook.
  assert (length embed_out = length h0) as Hlanes.
  { destruct Hshape as [Hl _]. unfold as_int32, len in *.
    rewrite length_fmap in Hlook. lia. }
  destruct (foldl (rnn_step vs embed_out) (Ok [h0])
              (seq 0 (Z.to_nat (num_rnn_steps config)))) as [s|e] eqn:Hs;
    [|discriminate].
  cbn [bind] in Hrun.
  pose proof (rnn_loop_rows vs p embed_out h0 _ s Hp Hlanes Hs) as Hall.
  destruct (last s) as [m|] eqn:Hlast; [|discriminate].
  rewrite Hw in Hrun. cbn [bind] in Hrun. rewrite Hb in Hrun. cbn [bind] in Hrun.
  injection Hrun as <-. rewrite last_lookup in Hlast.
  pose proof (Forall_lookup_1 _ _ _ _ Hall Hlast) as Hm. simpl in Hm.
  unfold len, tanh2, add_bias, matmul in *. rewrite !length_fmap. lia.
Qed.

End ModelRows.

Section GenerationWindows.
Import Trainer Generator GRU Encoder.
Context {T : Type} {ST : Scalar T}.
Local Open Scope Z_scope.

Lemma reshape_row {A : Type} (a : list A) : reshape a 1 (-1) = Ok [a].
Proof.
  unfold reshape. cbn [Z.ltb Z.eqb Z.compare andb orb].
  rewrite Z.mod_1_r. cbn [Z.eqb negb]. rewrite Z.div_1_r.
  unfold len. rewrite Nat2Z.id. simpl. now rewrite take_ge.
Qed.


Lemma run_y_hat_length
    (encoder : varstore T -> Config -> list (list Z) -> result (list (list T)))
    (s : session T) (config : Config) (x : list (list Z)) (preds : list Z) :
  run_y_hat encoder s config x = Ok preds ->
  exists hid_out, encoder (vars s) config x = Ok hid_out
                  /\ length preds = length hid_out.
Proof.
  unfold run_y_hat, Loss.y_hat.
  destruct (encoder (vars s) config x) as [hid_out|e]; [|discriminate].
  cbn [bind]. destruct (get_mat _ _ _); [|discriminate]. cbn [bind].
  destruct (get_vec _ _ _); [|discriminate]. cbn [bind].
  intros Hp. injection Hp as <-. exists hid_out. split; [reflexivity|].
  unfold argmax1, add_bias, matmul_transpose_b. now rewrite !length_fmap.
Qed.

(** The sequence after [n] turns when every prediction is a single token. *)
Lemma generate_from_windows
    (encoder : varstore T -> Config -> list (list Z) -> result (list (list T)))
    (s : session T) (config : Config) (seed : list Z) (n : nat) (out : list Z) :
  (forall x h, encoder (vars s) config x = Ok h -> length h = 1%nat) ->
  0 <= num_rnn_steps config ->
  len seed = num_rnn_steps config ->
  generate_from encoder s config n 0 seed = Ok out ->
  length out = (length seed + n)%nat
  /\ take (length seed) out = seed
  /\ forall k : nat, (k < n)%nat ->
       exists tok : Z,
         run_y_hat encoder s config
           [take (Z.to_nat (num_rnn_steps config)) (drop k out)] = Ok [tok]
         /\ out !! (length seed + k)%nat = Some tok.
Proof.
  intros Hone Hns Hseed. revert out. induction n as [|n IH]; intros out Hout.
  - simpl in Hout. injection Hout as <-.
    split; [lia|]. split; [apply take_ge; lia|]. intros k Hk. lia.
  - rewrite generate_from_snoc in Hout.
    destruct (generate_from encoder s config n 0 seed) as [out_n|e];
      [|discriminate].
    destruct (IH out_n eq_refl) as (Hlen & Hpre & Hks). cbn [bind] in Hout.
    rewrite reshape_row in Hout. cbn [bind] in Hout.
    destruct (run_y_hat encoder s config _) as [pred|e] eqn:Hpred;
      [|discriminate].
    cbn [bind] in Hout. injection Hout as <-.
    destruct (run_y_hat_length encoder s config _ pred Hpred) as (h & Hh & Hpl).
    apply Hone in Hh. destruct pred as [|tok [|? ?]]; simpl in Hpl; try lia.
    unfold len in Hseed.
    assert (slice out_n (0 + Z.of_nat n) (0 + Z.of_nat n + num_rnn_steps config)
            = take (Z.to_nat (num_rnn_steps config)) (drop n out_n)) as Hwin.
    { rewrite slice_inside by (unfold len; lia). f_equal; [f_equal; lia|].
      f_equal. lia. }
    rewrite Hwin in Hpred.
    split; [rewrite length_app; simpl; lia|]. split.
    + rewrite take_app_le by lia. exact Hpre.
    + intros k Hk. destruct (decide (k = n)) as [->|Hne].
      * exists tok. split.
        -- rewrite drop_app_le by lia. rewrite take_app_le
             by (rewrite length_drop; lia). exact Hpred.
        -- rewrite lookup_app_r by lia.
           now replace (length seed + n - length out_n)%nat with O by lia.
      * destruct (Hks k ltac:(lia)) as (tok_k & Hrun & Hat).
        exists tok_k. split.
        -- rewrite drop_app_le by lia. rewrite take_app_le
             by (rewrite length_drop; lia). exact Hrun.
        -- now apply lookup_app_l_Some.
Qed.

End GenerationWindows.

Section GeneratorClaims.
Import Trainer Generator Loss Scalars Scenarios MoreScenarios.
Local Open Scope Z_scope.

(** C7.  Generation is a function of the variables and the seed: two runs
    in sessions that hold the same variables, whatever their sampler state
    and step counter, end alike, with the same tokens or the same exception.
    When the seed holds [num_steps] tokens, the encoder returns one
    representation per window and the output layer is not empty, a run of
    [n] turns that returns holds the seed followed by [n] tokens; the token
    at position [num_steps + k] is computed from the [num_steps] tokens
    before it: it is the argmax of the dense scores
    [representation . W^T + b] of that window over the whole vocabulary,
    which is, when the scores can be compared, the first word whose score no
    other score exceeds. *)
Theorem generator_deterministic (T : Type) (ST : Scalar T)
    (encoder : varstore T -> Config -> list (list Z) -> result (list (list T)))
    (s1 s2 : session T) (config : Config) (word_array : list Z) (start : Z)
    (w : list (list T)) (b : list T) :
  vars s1 = vars s2 ->
  (forall n : nat,
     generate encoder s1 config word_array start n
     = generate encoder s2 config word_array start n)
  /\ (forall (n : nat) (out : list Z),
        0 <= num_rnn_steps config ->
        len (slice word_array start (start + num_rnn_steps config))
        = num_rnn_steps config ->
        (forall x h, encoder (vars s1) (with_batch_size config 1) x = Ok h ->
                     length h = 1%nat) ->
        get_mat (vars s1) "output" "w" = Ok w ->
        get_vec (vars s1) "output" "b" = Ok b ->
        w <> [] -> b <> [] ->
        generate encoder s1 config word_array start n = Ok out ->
        let num_steps := Z.to_nat (num_rnn_steps config) in
        generate encoder s2 config word_array start n = Ok out
        /\ length out = (num_steps + n)%nat
        /\ take num_steps out = slice word_array start (start + num_rnn_steps config)
        /\ forall k : nat, (k < n)%nat ->
             exists (representation : list T) (tok : Z),
               encoder (vars s1) (with_batch_size config 1)
                 [take num_steps (drop k out)] = Ok [representation]
               /\ out !! (num_steps + k)%nat = Some tok
               /\ 0 <= tok
               /\ (ordered (spec_dense_scores representation w b) = true ->
                   exists v : T,
                     spec_dense_scores representation w b !! Z.to_nat tok = Some v
                     /\ (forall (j : nat) (u : T),
                           spec_dense_scores representation w b !! j = Some u ->
                           s_ltb v u = false)
                     /\ (forall (j : nat) (u : T),
                           (j < Z.to_nat tok)%nat ->
                           spec_dense_scores representation w b !! j = Some u ->
                           s_ltb u v = true))).
Proof.
  intros Hv. split.
  - intros n. unfold generate. now apply generate_from_vars.
  - intros n out Hns Hseed Hone Hw Hb Hwne Hbne Hout num_steps.
    split.
    { rewrite <- Hout. symmetry. unfold generate. now apply generate_from_vars. }
    unfold generate in Hout. cbn [num_rnn_steps with_batch_size] in Hout.
    destruct (generate_from_windows encoder s1 (with_batch_size config 1) _ n out
                Hone Hns Hseed Hout) as (Hlen & Hpre & Hks).
    assert (length (slice word_array start (start + num_rnn_steps config)) = num_steps)
      as Hsl by (unfold len in Hseed; subst num_steps; lia).
    rewrite Hsl in *. split; [exact Hlen|]. split; [exact Hpre|].
    intros k Hk. destruct (Hks k Hk) as (tok & Hrun & Hat).
    cbn [num_rnn_steps with_batch_size] in Hrun. fold num_steps in Hrun.
    unfold run_y_hat in Hrun.
    destruct (encoder (vars s1) (with_batch_size config 1)
                [take num_steps (drop k out)]) as [hid_out|e] eqn:Henc;
      [|discriminate].
    cbn [bind] in Hrun.
    pose proof (Hone _ _ Henc) as Hrows.
    destruct hid_out as [|representation [|? ?]]; try discriminate.
    destruct (y_hat_lane (vars s1) [representation] w b [tok] O representation
                Hw Hb Hwne Hbne Hrun eq_refl) as (tok' & Htok & Hpos & Hmax).
    injection Htok as <-.
    exists representation, tok. repeat split; assumption.
Qed.

Lemma generator_deterministic_witness :
  generate GRU.model (mk_session f32_tiny_store 7 3%nat) tiny_config [1; 2; 0] 0 3
  = Ok [1; 2; 2; 2; 2]
  /\ exists (representation : list float32) (v : float32),
       GRU.model f32_tiny_store (with_batch_size tiny_config 1) [[1; 2]]
       = Ok [representation]
       /\ spec_dense_scores representation
            [[f32_of_Z (-1)]; [f32_of_Z 0]; [f32_of_Z 1]]
            [f32_zero; f32_zero; f32_zero] !! 2%nat = Some v
       /\ forall (j : nat) (u : float32),
            (j < 2)%nat ->
            spec_dense_scores representation
              [[f32_of_Z (-1)]; [f32_of_Z 0]; [f32_of_Z 1]]
              [f32_zero; f32_zero; f32_zero] !! j = Some u ->
            f32_ltb u v = true.
Proof.
  destruct (generator_deterministic float32 f32_Scalar GRU.model
              (mk_session f32_tiny_store 0 O) (mk_session f32_tiny_store 7 3%nat)
              tiny_config [1; 2; 0] 0
              [[f32_of_Z (-1)]; [f32_of_Z 0]; [f32_of_Z 1]]
              [f32_zero; f32_zero; f32_zero] eq_refl) as [_ Hruns].
  assert (forall x h,
            GRU.model f32_tiny_store (with_batch_size tiny_config 1) x = Ok h ->
            length h = 1%nat) as Hone.
  { intros x h Hrun.
    pose proof (model_rows f32_tiny_store (with_batch_size tiny_config 1) x h
                  _ _ _ _ _ eq_refl eq_refl eq_refl eq_refl eq_refl eq_refl Hrun)
      as Hl.
    unfold len in Hl. simpl in Hl. lia. }
  destruct (Hruns 3%nat [1; 2; 2; 2; 2] ltac:(discriminate) eq_refl Hone eq_refl eq_refl
              ltac:(discriminate) ltac:(discriminate) ltac:(vm_compute; reflexivity))
    as (Hsame & _ & _ & Htokens).
  split; [exact Hsame|].
  destruct (Htokens O ltac:(lia)) as (representation & tok & Henc & Htok & _ & Hmax).
  injection Htok as <-.
  vm_compute in Henc. injection Henc as <-.
  destruct (Hmax ltac:(vm_compute; reflexivity)) as (v & Hv & _ & Hlt).
  eexists _, v. split; [vm_compute; reflexivity|]. split; [exact Hv|exact Hlt].
Defined.

End GeneratorClaims.

(* ===================================================================== *)
(** * Part III: further properties of the notebook code                   *)
(* ===================================================================== *)

(** ** The feeder over epochs *)

Section FeederEpochs.
Import Scenarios MoreScenarios.
Local Open Scope Z_scope.

Lemma shuffle_from_rng {A : Type} (i : nat) (x : list A) (g : rng) :
  (shuffle_from i x g).2 = mk_rng (draws g) (consumed g + i).
Proof.
  revert x g. induction i as [|i IH]; intros x g.
  - simpl. destruct g as [d c]. simpl. f_equal. lia.
  - cbn [shuffle_from randbelow]. rewrite IH. simpl. f_equal. lia.
Qed.

(** X1.  For every configuration with a positive batch size the number of
    batches of a pass is [epoch_len] when that is positive and zero
    otherwise: [epoch_len] is negative exactly when the rows are shorter than
    a window and its target. *)
Theorem feeder_count_is_clamped_epoch_len (config : Config) (word_array : list Z)
    (g : rng) :
  0 < batch_size config ->
  0 <= num_rnn_steps config ->
  exists n : Z,
    epoch_len config word_array = Ok n
    /\ n = len word_array / batch_size config - num_rnn_steps config - 1
    /\ len (yielded (feeder config word_array g).1) = Z.max 0 n
    /\ raised (feeder config word_array g).1 = None.
Proof.
  intros Hbs Hns.
  exists (len word_array / batch_size config - num_rnn_steps config - 1).
  split.
  { unfold epoch_len. now rewrite batch_width_pos. }
  split; [reflexivity|].
  rewrite feeder_spec by assumption. simpl.
  split; [|reflexivity].
  unfold len at 1. rewrite length_fmap, length_shuffle_index. lia.
Qed.

Lemma feeder_count_is_clamped_epoch_len_witness :
  exists n : Z,
    epoch_len narrow_config narrow_stream = Ok n
    /\ n = -4
    /\ len (yielded (feeder narrow_config narrow_stream rng0).1) = 0.
Proof.
  destruct (feeder_count_is_clamped_epoch_len narrow_config narrow_stream rng0)
    as (n & Hn & Hval & Hlen & _).
  - reflexivity.
  - discriminate.
  - exists n. split; [exact Hn|]. split; [exact Hval|].
    rewrite Hlen, Hval. reflexivity.
Defined.

(** X2.  Two passes of the feeder, whatever the states of the random generator,
    yield the same batches up to their order; a pass over [n >= 1] start
    columns consumes [n - 1] random draws and leaves the rest of the
    generator as it was. *)
Theorem feeder_restartable (config : Config) (word_array : list Z) (g1 g2 : rng) :
  0 < batch_size config ->
  0 <= num_rnn_steps config ->
  yielded (feeder config word_array g1).1 ≡ₚ yielded (feeder config word_array g2).1
  /\ raised (feeder config word_array g1).1 = None
  /\ (feeder config word_array g1).2
     = mk_rng (draws g1)
         (consumed g1
          + (Z.to_nat (len word_array / batch_size config
                       - num_rnn_steps config - 1) - 1)).
Proof.
  intros Hbs Hns. rewrite !feeder_spec by assumption. simpl.
  split; [|split; [reflexivity|]].
  - apply fmap_Permutation.
    now rewrite !shuffle_index_Permutation.
  - unfold shuffle_index, shuffle. rewrite shuffle_from_rng.
    unfold range. now rewrite length_seqZ.
Qed.

Lemma feeder_restartable_witness :
  yielded (feeder scenario_A_config twelve_stream rng0).1
  ≡ₚ yielded (feeder scenario_A_config twelve_stream rng_up).1
  /\ consumed (feeder scenario_A_config twelve_stream rng_up).2 = 2%nat.
Proof.
  destruct (feeder_restartable scenario_A_config twelve_stream rng0 rng_up)
    as (Hperm & _ & _).
  - reflexivity.
  - discriminate.
  - split; [exact Hperm|].
    destruct (feeder_restartable scenario_A_config twelve_stream rng_up rng0)
      as (_ & _ & Hrng).
    + reflexivity.
    + discriminate.
    + rewrite Hrng. reflexivity.
Defined.

(** The two passes of the witness do differ in order. *)
Example feeder_orders_differ :
  (shuffle_index scenario_A_config 6 rng0).1 = [1; 2; 0]
  /\ (shuffle_index scenario_A_config 6 rng_up).1 = [2; 0; 1].
Proof. split; reflexivity. Qed.

End FeederEpochs.

(** ** What the model accepts and refuses *)



Section FedBatches.
Import GRU Encoder.
Local Open Scope Z_scope.

(** The batches of the feeder have the shapes of the two placeholders and
    hold tokens of the stream only. *)
Lemma feeder_batches_fed (config : Config) (word_array : list Z) (g : rng) :
  0 < batch_size config ->
  0 <= num_rnn_steps config ->
  forall b : batch,
    b ∈ yielded (feeder config word_array g).1 ->
    window_shape config b.1
    /\ Forall (Forall (fun id => id ∈ word_array)) b.1
    /\ len b.2 = batch_size config
    /\ Forall (fun row => len row = 1) b.2
    /\ Forall (Forall (fun id => id ∈ word_array)) b.2.
Proof.
  intros Hbs Hns b Hin.
  rewrite feeder_spec in Hin by assumption. simpl in Hin.
  apply list_elem_of_fmap in Hin as (i & -> & Hi).
  apply elem_of_shuffle_index in Hi. cbn [spec_batch fst snd].
  set (rw := len word_array / batch_size config) in *.
  set (grid := spec_grid word_array (batch_size config) rw).
  assert (forall row, row ∈ grid -> len row = rw /\ row ⊆ word_array) as Hgrid.
  { intros row Hrow. apply list_elem_of_lookup in Hrow as [r Hr].
    apply (spec_grid_row config word_array Hbs) in Hr as (_ & -> & Hlen).
    split; [exact Hlen|].
    etransitivity; [apply subseteq_take|apply subseteq_drop]. }
  assert (length grid = Z.to_nat (batch_size config)) as Hrows.
  { subst grid. unfold spec_grid. now rewrite length_fmap, length_seq. }
  split; [|split; [|split; [|split]]].
  - split.
    + unfold len, spec_input_window. rewrite length_fmap. lia.
    + unfold spec_input_window. apply Forall_fmap, Forall_forall.
      intros row Hrow. destruct (Hgrid row Hrow) as [Hlen _]. simpl.
      unfold len in *. rewrite length_take_le; [lia|]. rewrite length_drop. lia.
  - unfold spec_input_window. apply Forall_fmap, Forall_forall.
    intros row Hrow. destruct (Hgrid row Hrow) as [_ Hsub]. simpl.
    apply Forall_forall. intros id Hid. apply Hsub.
    apply (subseteq_drop (Z.to_nat i)), (subseteq_take (Z.to_nat (num_rnn_steps config))).
    exact Hid.
  - unfold len, spec_target. rewrite length_fmap. lia.
  - unfold spec_target. apply Forall_fmap, Forall_forall. now intros row _.
  - unfold spec_target. apply Forall_fmap, Forall_forall.
    intros row Hrow. destruct (Hgrid row Hrow) as [Hlen Hsub]. simpl.
    constructor; [|constructor]. apply Hsub.
    destruct (lookup_lt_is_Some_2 row (Z.to_nat (i + num_rnn_steps config))
                ltac:(unfold len in Hlen; lia)) as [v Hv].
    rewrite (nth_lookup_Some _ _ 0 _ Hv).
    apply list_elem_of_lookup. eauto.
Qed.

End FedBatches.

Section ModelProperties.
Import GRU Encoder Scalars Scenarios MoreScenarios.
Local Open Scope Z_scope.

(** X3.  The sequence encoder works lane by lane.  For a configuration of
    sizes the notebook is run with, on a window of the declared shape whose
    tokens are rows of the embedding table, with one row of [h_init] per
    lane, [model] returns one representation per lane: the dense [tanh]
    layer applied to the state reached from that lane's row of [h_init] by
    one gated update per token of the lane, in order.  The other lanes have
    no part in it. *)
Theorem model_lane_by_lane (T : Type) (ST : Scalar T) (vs : varstore T)
    (config : Config) (x : list (list Z)) (embed_w : list (list T))
    (p : gru_params T) (h0 hid_w : list (list T)) (hid_b : list T) :
  well_sized config ->
  get_mat vs "embedding" "w" = Ok embed_w ->
  len embed_w = vocab_size config ->
  gru_params_of vs = Ok p ->
  h_init vs = Ok h0 ->
  get_mat vs "hidden" "w" = Ok hid_w ->
  get_vec vs "hidden" "b" = Ok hid_b ->
  window_shape config x ->
  tokens_in (len embed_w) x ->
  length h0 = length x ->
  exists out : list (list T),
    model vs config x = Ok out
    /\ length out = length x
    /\ forall (r : nat) tokens h0r,
         x !! r = Some tokens -> h0 !! r = Some h0r ->
         out !! r
         = Some (spec_lane_hidden p hid_w hid_b h0r (spec_embed embed_w tokens)).
Proof.
  intros Hsized HE Hvocab Hp Hh0 Hw Hb Hshape Htok Hrows.
  assert (len embed_w <= 2147483648) as Hfit
    by (rewrite Hvocab; unfold well_sized in Hsized; lia).
  destruct (model_run vs config x embed_w p h0 hid_w hid_b HE Hp Hh0 Hw Hb
              (well_sized_model_graph config Hsized) Hfit Hshape Htok)
    as (m & Hm & Hlanes & Hlen).
  exists (tanh2 (add_bias (matmul m hid_w) hid_b)).
  split; [exact Hm|]. split.
  - unfold tanh2, add_bias, matmul. rewrite !length_fmap. now apply Hlen.
  - intros r tokens h0r Hx Hr. unfold spec_lane_hidden.
    apply lookup_dense. now apply (Hlanes r tokens h0r).
Qed.

Lemma model_lane_by_lane_witness :
  exists out : list (list expr),
    model tiny_store tiny_config [[1; 2]] = Ok out /\ length out = 1%nat.
Proof.
  destruct (model_lane_by_lane expr expr_Scalar tiny_store tiny_config [[1; 2]]
              [[Var "e0"]; [Var "e1"]; [Var "e2"]]
              (mk_gru_params [[Var "wr0"]; [Var "wr1"]] [[Var "wz0"]; [Var "wz1"]]
                 [[Var "w0"]; [Var "w1"]] [Const 1] [Const 1] [Const 0])
              [[Const 0]] [[Var "hw"]] [Const 0])
    as (out & Hout & Hlen & _).
  - unfold well_sized. simpl. lia.
  - reflexivity.
  - reflexivity.
  - reflexivity.
  - reflexivity.
  - reflexivity.
  - reflexivity.
  - split; [reflexivity|]. constructor; [reflexivity|constructor].
  - unfold tokens_in, len. simpl. repeat (constructor; try lia).
  - reflexivity.
  - exists out. split; [exact Hout | exact Hlen].
Defined.

(** X4.  What [model] refuses.  A graph without a first step
    ([num_rnn_steps < 1]) or with more embeddings to show than the table has
    ([embed_vis_depth > vocab_size]) cannot be built: a [ValueError],
    whatever is fed.  For a configuration of sizes the notebook is run with,
    a fed window that has not the shape [(batch_size, num_rnn_steps)] is a
    [ValueError], whatever the variables; and a window of that shape is an
    [InvalidArgumentError] when one of its tokens, as the [int32]
    placeholder holds it, is negative or not below the number of rows of
    the embedding table. *)
Theorem model_rejects (T : Type) (ST : Scalar T) (vs : varstore T)
    (config : Config) (x : list (list Z)) :
  (num_rnn_steps config < 1 \/ vocab_size config < embed_vis_depth config ->
     model vs config x = Raise ValueError)
  /\ (well_sized config -> ~ window_shape config x ->
      model vs config x = Raise ValueError)
  /\ (forall embed_w : list (list T),
        well_sized config ->
        window_shape config x ->
        get_mat vs "embedding" "w" = Ok embed_w ->
        ~ tokens_in (len embed_w) (as_int32 x) ->
        model vs config x = Raise InvalidArgumentError).
Proof.
  split; [|split].
  - intros Hbad. unfold model. now rewrite model_graph_rejects.
  - intros Hsized Hno. unfold model.
    rewrite well_sized_model_graph by assumption. cbn [bind].
    now rewrite placeholder_x_rejects.
  - intros embed_w Hsized Hshape HE Hbad. unfold model.
    rewrite well_sized_model_graph by assumption. cbn [bind].
    rewrite placeholder_x_accepts by assumption. cbn [bind].
    rewrite HE. cbn [bind]. now rewrite embedding_lookup_bad.
Qed.

Lemma model_rejects_witness :
  model tiny_store (mk_Config 3 1 0 1 1 1 1 1 3) [[]] = Raise ValueError
  /\ model tiny_store tiny_config [[1; 2; 0]] = Raise ValueError
  /\ model tiny_store tiny_config [[1; 3]] = Raise InvalidArgumentError.
Proof.
  split; [|split].
  - apply (proj1 (model_rejects expr expr_Scalar tiny_store
                    (mk_Config 3 1 0 1 1 1 1 1 3) [[]])).
    left. reflexivity.
  - apply (proj1 (proj2 (model_rejects expr expr_Scalar tiny_store tiny_config
                           [[1; 2; 0]]))).
    + unfold well_sized. simpl. lia.
    + intros [_ Hrows]. apply Forall_inv in Hrows. discriminate.
  - apply (proj2 (proj2 (model_rejects expr expr_Scalar tiny_store tiny_config
                           [[1; 3]]))
             [[Var "e0"]; [Var "e1"]; [Var "e2"]]).
    + unfold well_sized. simpl. lia.
    + split; [reflexivity|]. constructor; [reflexivity|constructor].
    + reflexivity.
    + intros Htok. apply Forall_inv in Htok. apply Forall_inv_tail in Htok.
      apply Forall_inv in Htok. vm_compute in Htok.
      destruct Htok as [_ Htok]. discriminate.
Defined.

(** The placeholder keeps the low 32 bits of a token: the token
    [2^32 + 2] is looked up as the token 2, without an error. *)
Example model_wraps_tokens :
  model tiny_store tiny_config [[1; 4294967298]]
  = model tiny_store tiny_config [[1; 2]]
  /\ exists out, model tiny_store tiny_config [[1; 4294967298]] = Ok out.
Proof. split; [reflexivity|]. eexists. vm_compute. reflexivity. Qed.

(** X5.  Every window the feeder yields is one [model] accepts.  For a
    configuration of sizes the notebook is run with, each window has the
    shape of the placeholder and holds tokens of the stream only; and with
    the variables in place, one row of [h_init] per lane, and every token of
    the stream a row of the embedding table, the forward pass returns a
    representation for each lane. *)
Theorem feeder_windows_run (T : Type) (ST : Scalar T) (vs : varstore T)
    (config : Config) (word_array : list Z) (g : rng)
    (embed_w : list (list T)) (p : gru_params T) (h0 hid_w : list (list T))
    (hid_b : list T) :
  well_sized config ->
  get_mat vs "embedding" "w" = Ok embed_w ->
  len embed_w = vocab_size config ->
  gru_params_of vs = Ok p ->
  h_init vs = Ok h0 ->
  get_mat vs "hidden" "w" = Ok hid_w ->
  get_vec vs "hidden" "b" = Ok hid_b ->
  len h0 = batch_size config ->
  Forall (fun id => 0 <= id < vocab_size config) word_array ->
  forall b : batch,
    b ∈ yielded (feeder config word_array g).1 ->
    window_shape config b.1
    /\ Forall (Forall (fun id => id ∈ word_array)) b.1
    /\ exists out : list (list T),
         model vs config b.1 = Ok out /\ len out = batch_size config.
Proof.
  intros Hsized HE Hrows_w Hp Hh0 Hw Hb Hrows Hvocab b Hin.
  assert (0 < batch_size config /\ 0 <= num_rnn_steps config) as [Hbs Hns]
    by (unfold well_sized in Hsized; lia).
  destruct (feeder_batches_fed config word_array g Hbs Hns b Hin)
    as (Hshape & Hfrom & _).
  split; [exact Hshape|]. split; [exact Hfrom|].
  assert (tokens_in (len embed_w) b.1) as Htok.
  { unfold tokens_in. eapply Forall_impl; [exact Hfrom|].
    intros row Hrow. eapply Forall_impl; [exact Hrow|].
    intros id Hid. rewrite Forall_forall in Hvocab. rewrite Hrows_w.
    now apply Hvocab. }
  assert (length h0 = length b.1) as Hlanes.
  { destruct Hshape as [Hl _]. unfold len in *. lia. }
  assert (len embed_w <= 2147483648) as Hfit
    by (rewrite Hrows_w; unfold well_sized in Hsized; lia).
  destruct (model_run vs config _ embed_w p h0 hid_w hid_b HE Hp Hh0 Hw Hb
              (well_sized_model_graph config Hsized) Hfit Hshape Htok)
    as (m & Hm & _ & Hlen).
  eexists. split; [exact Hm|].
  unfold len, tanh2, add_bias, matmul. rewrite !length_fmap.
  rewrite (Hlen Hlanes). destruct Hshape as [Hl _]. exact Hl.
Qed.

Lemma feeder_windows_run_witness :
  exists out : list (list expr),
    model two_lane_store two_lane_config [[0; 1]; [1; 2]] = Ok out /\ len out = 2.
Proof.
  destruct (feeder_windows_run expr expr_Scalar two_lane_store two_lane_config
              three_word_stream rng0
              [[Var "e0"]; [Var "e1"]; [Var "e2"]]
              (mk_gru_params [[Var "wr0"]; [Var "wr1"]] [[Var "wz0"]; [Var "wz1"]]
                 [[Var "w0"]; [Var "w1"]] [Const 1] [Const 1] [Const 0])
              [[Const 0]; [Const 0]] [[Var "hw"]] [Const 0]
              ltac:(unfold well_sized; simpl; lia) eq_refl eq_refl eq_refl eq_refl
              eq_refl eq_refl eq_refl
              ltac:(unfold len; simpl; repeat (constructor; try lia))
              ([[0; 1]; [1; 2]], [[2]; [0]]))
    as (_ & _ & Hout).
  - constructor.
  - exact Hout.
Defined.

End ModelProperties.

(** ** The predictor of the loss head *)

Section PredictorProperties.
Import Loss Scalars Scenarios MoreScenarios.

Lemma argmax_from_range {T : Type} {ST : Scalar T} (l : list T) (best_i : nat)
    (best : T) (i : nat) :
  argmax_from best_i best i l = best_i
  \/ (i <= argmax_from best_i best i l < i + length l)%nat.
Proof.
  revert best_i best i. induction l as [|a l IH]; intros best_i best i; simpl.
  - now left.
  - destruct (s_ltb best a).
    + right. destruct (IH i a (S i)) as [->|Hr]; lia.
    + destruct (IH best_i best (S i)) as [->|Hr]; [now left|right; lia].
Qed.

Lemma argmax_lt {T : Type} {ST : Scalar T} (l : list T) :
  l <> [] -> (argmax l < length l)%nat.
Proof.
  destruct l as [|a l]; [congruence|]. intros _. unfold argmax. simpl.
  destruct (argmax_from_range l O a 1) as [->|Hr]; lia.
Qed.

Lemma y_hat_tokens {T : Type} {ST : Scalar T} (vs : varstore T)
    (hid_out w : list (list T)) (b : list T) :
  get_mat vs "output" "w" = Ok w ->
  get_vec vs "output" "b" = Ok b ->
  w <> [] -> b <> [] ->
  exists preds : list Z,
    y_hat vs hid_out = Ok preds
    /\ length preds = length hid_out
    /\ Forall (fun t => (0 <= t < len w)%Z /\ (t < len b)%Z) preds.
Proof.
  intros Hw Hb Hwne Hbne. rewrite (y_hat_run vs hid_out w b Hw Hb).
  eexists. split; [reflexivity|]. split; [now rewrite length_fmap|].
  apply Forall_fmap, Forall_forall. intros rep _. simpl.
  set (scores := zip_with s_add (dot rep <$> w) b).
  assert (length scores = Nat.min (length w) (length b)) as Hlen
    by (subst scores; now rewrite length_zip_with, length_fmap).
  assert (scores <> []) as Hne.
  { intros E. rewrite E in Hlen. simpl in Hlen.
    destruct w, b; simpl in Hlen; congruence. }
  pose proof (argmax_lt scores Hne) as Hlt. unfold len. lia.
Qed.

(** X6.  The predictor never leaves the vocabulary: with an output layer of at
    least one word it returns one token per lane, and each token is an index
    of a row of the output weights and of an entry of the output bias. *)
Theorem y_hat_in_vocabulary (T : Type) (ST : Scalar T) (vs : varstore T)
    (hid_out w : list (list T)) (b : list T) :
  get_mat vs "output" "w" = Ok w ->
  get_vec vs "output" "b" = Ok b ->
  w <> [] -> b <> [] ->
  exists preds : list Z,
    y_hat vs hid_out = Ok preds
    /\ length preds = length hid_out
    /\ Forall (fun t => (0 <= t < len w)%Z /\ (t < len b)%Z) preds.
Proof. apply y_hat_tokens. Qed.

Lemma y_hat_in_vocabulary_witness :
  exists preds : list Z,
    y_hat tiny_store [[Var "h"]] = Ok preds
    /\ Forall (fun t => (0 <= t < 3)%Z /\ (t < 3)%Z) preds.
Proof.
  destruct (y_hat_in_vocabulary expr expr_Scalar tiny_store [[Var "h"]]
              [[Var "o0"]; [Var "o1"]; [Var "o2"]] [Const 0; Const 0; Const 0]
              eq_refl eq_refl ltac:(discriminate) ltac:(discriminate))
    as (preds & Hp & _ & Hall).
  exists preds. split; [exact Hp | exact Hall].
Defined.

(** X7.  The predicted token of a lane holds a largest dense score
    [representation . w^T + b] of that lane, as the graph computes the
    scores: when the scores of the lane can be compared, no word has a score
    above that of the predicted token, and every word before it has a score
    strictly below, so that ties go to the first word. *)
Theorem y_hat_picks_largest_score (T : Type) (ST : Scalar T) (vs : varstore T)
    (hid_out w : list (list T)) (b : list T) :
  get_mat vs "output" "w" = Ok w ->
  get_vec vs "output" "b" = Ok b ->
  w <> [] -> b <> [] ->
  exists preds : list Z,
    y_hat vs hid_out = Ok preds
    /\ forall (r : nat) (representation : list T),
         hid_out !! r = Some representation ->
         ordered (spec_dense_scores representation w b) = true ->
         exists (pred : Z) (v : T),
           preds !! r = Some pred
           /\ (0 <= pred)%Z
           /\ spec_dense_scores representation w b !! Z.to_nat pred = Some v
           /\ (forall (j : nat) (u : T),
                 spec_dense_scores representation w b !! j = Some u ->
                 s_ltb v u = false)
           /\ (forall (j : nat) (u : T),
                 (j < Z.to_nat pred)%nat ->
                 spec_dense_scores representation w b !! j = Some u ->
                 s_ltb u v = true).
Proof.
  intros Hw Hb Hwne Hbne.
  destruct (y_hat_tokens vs hid_out w b Hw Hb Hwne Hbne) as (preds & Hrun & _).
  exists preds. split; [exact Hrun|].
  intros r representation Hr Hord.
  destruct (y_hat_lane vs hid_out w b preds r representation Hw Hb Hwne Hbne Hrun Hr)
    as (tok & Htok & Hpos & Hmax).
  destruct (Hmax Hord) as (v & Hv & Hle & Hlt).
  exists tok, v. repeat split; assumption.
Qed.

Lemma y_hat_picks_largest_score_witness :
  y_hat f32_head_store [[f32_one]] = Ok [1%Z]
  /\ forall (j : nat) (u : float32),
       [f32_of_Z 1; f32_of_Z 3; f32_of_Z 2] !! j = Some u ->
       f32_ltb (f32_of_Z 3) u = false.
Proof.
  destruct (y_hat_picks_largest_score float32 f32_Scalar f32_head_store [[f32_one]]
              [[f32_of_Z 1]; [f32_of_Z 3]; [f32_of_Z 2]]
              [f32_zero; f32_zero; f32_zero]
              eq_refl eq_refl ltac:(discriminate) ltac:(discriminate))
    as (preds & Hrun & Hlanes).
  assert (preds = [1%Z]) as -> by (vm_compute in Hrun; congruence).
  split; [exact Hrun|].
  destruct (Hlanes O [f32_one] eq_refl eq_refl) as (pred & v & Hpred & _ & Hv & Hle & _).
  injection Hpred as <-. vm_compute in Hv. injection Hv as <-.
  intros j u Hu. apply (Hle j u). vm_compute. vm_compute in Hu. exact Hu.
Defined.

(** In float32 the sum [10^8 + 1] is [10^8]: two words whose exact scores
    differ by one get the same computed score, and the predictor answers
    the first of them. *)
Example y_hat_float32_tie :
  f32_add (f32_of_Z 100000000) f32_one = f32_of_Z 100000000
  /\ spec_dense_scores [f32_of_Z 100000000] [[f32_one]; [f32_one]]
       [f32_zero; f32_one]
     = [f32_of_Z 100000000; f32_of_Z 100000000]
  /\ argmax [f32_of_Z 100000000; f32_of_Z 100000000] = O.
Proof. vm_compute. repeat split. Qed.

End PredictorProperties.

(** ** Sessions of the graph *)

(** A declaration is among the declared ones. *)
Ltac in_declarations :=
  unfold Cells.declarations;
  repeat first [apply list_elem_of_here | apply list_elem_of_further].

Section GraphStores.
Import GRU Encoder Trainer Checkpoints Cells.
Context {T : Type} {ST : Scalar T}.
Local Open Scope Z_scope.

(** The store a graph is given when it is built holds the declared
    variables and nothing else. *)
Lemma built_store_lookup (rand : string -> tensor T) (config : Config)
    (name : string) (v : variable T) :
  Loss.loss_variables rand config (model_variables rand config ∅) !! name = Some v
  <-> exists (shape : list Z) (init : initializer),
        v = mk_variable shape init true (initial_value rand name shape init)
        /\ (name, shape, init) ∈ declarations config.
Proof.
  unfold Loss.loss_variables, model_variables, init_rnn_cell, new_variable,
    declarations.
  cbn [String.app].
  split.
  - intros Hlook.
    repeat (apply lookup_insert_Some in Hlook as [[<- <-]|[_ Hlook]];
            [eexists _, _; split; [reflexivity|]; set_solver|]).
    now rewrite lookup_empty in Hlook.
  - intros (shape & init & -> & Hin).
    repeat (apply elem_of_cons in Hin as [[= -> -> ->]|Hin];
            [repeat (rewrite lookup_insert_ne by discriminate);
             now rewrite lookup_insert_eq|]).
    now apply elem_of_nil in Hin.
Qed.

Lemma session_of_variable (config : Config) (vs : varstore T) (name : string)
    (shape : list Z) (init : initializer) :
  session_of config vs ->
  (name, shape, init) ∈ declarations config ->
  exists v : variable T,
    vs !! name = Some v /\ var_shape v = shape /\ has_shape (var_value v) shape.
Proof.
  intros Hs Hin.
  apply (Hs name (mk_variable shape init true
                    (initial_value (fun _ => Vec []) name shape init))).
  apply built_store_lookup. now exists shape, init.
Qed.

Lemma session_of_mat (config : Config) (vs : varstore T) (scope name : string)
    (r c : Z) (init : initializer) :
  session_of config vs ->
  (scope +:+ "/" +:+ name, [r; c], init) ∈ declarations config ->
  exists m : list (list T),
    get_mat vs scope name = Ok m /\ len m = r /\ Forall (fun row => len row = c) m.
Proof.
  intros Hs Hin.
  destruct (session_of_variable config vs _ _ _ Hs Hin) as (v & Hv & _ & Hshape).
  unfold get_mat, get_variable. rewrite Hv. cbn [bind].
  destruct (var_value v) as [|m]; [contradiction|]. now exists m.
Qed.

Lemma session_of_vec (config : Config) (vs : varstore T) (scope name : string)
    (n : Z) (init : initializer) :
  session_of config vs ->
  (scope +:+ "/" +:+ name, [n], init) ∈ declarations config ->
  exists v : list T, get_vec vs scope name = Ok v /\ len v = n.
Proof.
  intros Hs Hin.
  destruct (session_of_variable config vs _ _ _ Hs Hin) as (v & Hv & _ & Hshape).
  unfold get_vec, get_variable. rewrite Hv. cbn [bind].
  destruct (var_value v) as [u|]; [|contradiction]. now exists u.
Qed.

(** What the forward pass and the predictor read from a session of the
    graph. *)
Lemma session_of_lookups (config : Config) (vs : varstore T) :
  session_of config vs ->
  exists (embed_w : list (list T)) (p : gru_params T) (h0 hid_w : list (list T))
         (hid_b : list T) (out_w : list (list T)) (out_b : list T),
    get_mat vs "embedding" "w" = Ok embed_w /\ len embed_w = vocab_size config
    /\ gru_params_of vs = Ok p
    /\ h_init vs = Ok h0 /\ len h0 = batch_size config
    /\ get_mat vs "hidden" "w" = Ok hid_w
    /\ get_vec vs "hidden" "b" = Ok hid_b
    /\ get_mat vs "output" "w" = Ok out_w /\ len out_w = vocab_size config
    /\ get_vec vs "output" "b" = Ok out_b /\ len out_b = vocab_size config.
Proof.
  intros Hs.
  destruct (session_of_mat config vs "embedding" "w" _ _ rui_initializer Hs
              ltac:(in_declarations)) as (embed_w & HE & HEl & _).
  destruct (session_of_mat config vs "GRU" "Wr" _ _ vsi_initializer Hs
              ltac:(in_declarations)) as (Wr & HWr & _).
  destruct (session_of_mat config vs "GRU" "Wz" _ _ vsi_initializer Hs
              ltac:(in_declarations)) as (Wz & HWz & _).
  destruct (session_of_mat config vs "GRU" "W" _ _ vsi_initializer Hs
              ltac:(in_declarations)) as (W & HW & _).
  destruct (session_of_vec config vs "GRU" "br" _ one_initializer Hs
              ltac:(in_declarations)) as (br & Hbr & _).
  destruct (session_of_vec config vs "GRU" "bz" _ one_initializer Hs
              ltac:(in_declarations)) as (bz & Hbz & _).
  destruct (session_of_vec config vs "GRU" "b" _ zero_initializer Hs
              ltac:(in_declarations)) as (b & Hb & _).
  destruct (session_of_mat config vs "GRU" "h_init" _ _ zero_initializer Hs
              ltac:(in_declarations)) as (h0 & Hh0 & Hh0l & _).
  destruct (session_of_mat config vs "hidden" "w" _ _ vsi_initializer Hs
              ltac:(in_declarations)) as (hid_w & Hhw & _).
  destruct (session_of_vec config vs "hidden" "b" _ zero_initializer Hs
              ltac:(in_declarations)) as (hid_b & Hhb & _).
  destruct (session_of_mat config vs "output" "w" _ _ vsi_initializer Hs
              ltac:(in_declarations)) as (out_w & How & Howl & _).
  destruct (session_of_vec config vs "output" "b" _ zero_initializer Hs
              ltac:(in_declarations)) as (out_b & Hob & Hobl).
  exists embed_w, (mk_gru_params Wr Wz W br bz b), h0, hid_w, hid_b, out_w, out_b.
  unfold gru_params_of, h_init.
  rewrite HWr, HWz, HW, Hbr, Hbz, Hb. cbn [bind].
  repeat split; assumption.
Qed.


Lemma well_sized_build_graph (config : Config) :
  well_sized config -> build_graph config = Ok tt.
Proof.
  intros (Hbs & Hns & Hv & He & Hr & Hh & Hn & Hd). unfold build_graph.
  repeat match goal with
         | |- context [(?a <=? ?b)] => destruct (Z.leb_spec a b); [|lia]
         | |- context [(?a =? ?b)] => destruct (Z.eqb_spec a b); [lia|]
         end.
  reflexivity.
Qed.

(** A graph that was built passed the checks of [model] and of [loss]. *)
Lemma build_graph_checks (config : Config) :
  build_graph config = Ok tt ->
  GRU.model_graph config = Ok tt /\ Loss.loss_graph config = Ok tt.
Proof.
  unfold build_graph, GRU.model_graph, Loss.loss_graph.
  repeat match goal with
         | |- context [(?a <=? ?b)] => destruct (Z.leb_spec a b)
         | |- context [(?a =? ?b)] => destruct (Z.eqb_spec a b)
         end; cbn; try discriminate; try lia; intros _; split; reflexivity.
Qed.


End GraphStores.

Section TrainingSessions.
Import GRU Encoder Trainer Checkpoints Cells.
Context {T : Type} {ST : Scalar T} {BT : Backend T}.
Local Open Scope Z_scope.



(** A batch as the placeholders and the lookups need it. *)
Local Abbreviation fed config t :=
  (window_shape config t.1 /\ tokens_in (vocab_size config) t.1
   /\ len t.2 = batch_size config /\ Forall (fun row => len row = 1) t.2
   /\ tokens_in (vocab_size config) t.2).





End TrainingSessions.

(** ** Whole training runs *)

Section TrainingRunFacts.
Import GRU Encoder Trainer Checkpoints Cells.
Context {T : Type} {ST : Scalar T} {BT : Backend T}.
Local Open Scope Z_scope.





End TrainingRunFacts.

Section TrainingRuns.
Import GRU Encoder Trainer Checkpoints Cells Scalars Scenarios MoreScenarios.
Local Open Scope Z_scope.




(** X9.  A run that cannot start.  With no epoch to run nothing happens and
    nothing is reported; with at least one epoch and a batch size of zero the
    run ends with [ZeroDivisionError], with a negative batch size with
    [ValueError], in both cases before any batch is processed: the session,
    the buffer and the random generator are as they were. *)
Theorem train_invalid_run (T : Type) (ST : Scalar T) (BT : Backend T)
    (config : Config) (word_array : list Z) (s : session T) (g : rng) :
  (epochs config <= 0 ->
     train config word_array s g = (train_init s, g, Ok []))
  /\ (0 < epochs config -> batch_size config = 0 ->
     train config word_array s g = (train_init s, g, Raise ZeroDivisionError))
  /\ (0 < epochs config -> batch_size config < 0 ->
     train config word_array s g = (train_init s, g, Raise ValueError)).
Proof.
  unfold train. split; [|split].
  - intros He. now replace (Z.to_nat (epochs config)) with O by lia.
  - intros He Hbs.
    destruct (Z.to_nat (epochs config)) as [|n] eqn:En; [lia|].
    cbn [train_epochs]. unfold train_epoch, epoch_len, batch_width, floordiv.
    now rewrite Hbs.
  - intros He Hbs.
    destruct (Z.to_nat (epochs config)) as [|n] eqn:En; [lia|].
    cbn [train_epochs]. unfold train_epoch, epoch_len, batch_width, floordiv.
    destruct (Z.eqb_spec (batch_size config) 0) as [|_]; [lia|]. cbn [bind].
    now rewrite feeder_negative_rows.
Qed.

Lemma train_invalid_run_witness :
  train (BT := counting_backend) zero_rows_config scenario_A_stream fresh_session rng0
  = (train_init fresh_session, rng0, Raise ZeroDivisionError)
  /\ train (BT := counting_backend) negative_rows_config scenario_A_stream
       fresh_session rng0
     = (train_init fresh_session, rng0, Raise ValueError).
Proof.
  split.
  - apply (proj1 (proj2 (train_invalid_run expr expr_Scalar counting_backend
                           zero_rows_config scenario_A_stream fresh_session rng0)));
      reflexivity.
  - apply (proj2 (proj2 (train_invalid_run expr expr_Scalar counting_backend
                           negative_rows_config scenario_A_stream fresh_session rng0)));
      reflexivity.
Defined.



(** Runs that are not set up well end as the code ends them: a token
    outside the embedding table is an [InvalidArgumentError] of the first
    run that is fed it, before any variable is updated or any checkpoint
    written; a graph with more embeddings to show than the table has, or
    without a first step, is a [ValueError] when it is built, and a graph
    without recurrent units a [ZeroDivisionError]. *)
Example training_cell_failures :
  (exists (vs : varstore expr) (g' : rng),
     MyGraph tiny_weights tiny_three_epochs = Ok vs
     /\ training_cell (BT := counting_backend) tiny_weights tiny_three_epochs
          [0; 1; 3; 0; 1; 2; 0; 1] rng0
        = Ok (train_init (mk_session vs 0 O), g', Raise InvalidArgumentError, []))
  /\ training_cell (BT := counting_backend) tiny_weights (mk_Config 3 1 2 1 1 1 1 3 4)
       three_word_stream rng0
     = Raise ValueError
  /\ training_cell (BT := counting_backend) tiny_weights (mk_Config 3 1 0 1 1 1 1 3 3)
       three_word_stream rng0
     = Raise ValueError
  /\ training_cell (BT := counting_backend) tiny_weights (mk_Config 3 1 2 1 0 1 1 3 3)
       three_word_stream rng0
     = Raise ZeroDivisionError.
Proof.
  split; [|repeat split; reflexivity].
  eexists _, _. split; [reflexivity|]. vm_compute. reflexivity.
Qed.

End TrainingRuns.

(** ** The reported mean, over the reals *)

Section ReportedMean.
Import Trainer Scalars Scenarios MoreScenarios.
Local Open Scope R_scope.

Lemma foldl_Rplus_shift (a : R) (l : list R) :
  foldl Rplus a l = (a + foldl Rplus 0 l)%R.
Proof.
  revert a. induction l as [|x l IH]; intros a; simpl; [lra|].
  rewrite (IH (a + x)%R), (IH (0 + x)%R). lra.
Qed.

Lemma foldl_Rplus_Permutation (l k : list R) :
  l ≡ₚ k -> foldl Rplus 0 l = foldl Rplus 0 k.
Proof.
  induction 1 as [|x l k _ IH|x y l|l k m _ IH1 _ IH2]; simpl.
  - reflexivity.
  - rewrite (foldl_Rplus_shift (0 + x) l), (foldl_Rplus_shift (0 + x) k). lra.
  - rewrite (foldl_Rplus_shift (0 + y + x) l), (foldl_Rplus_shift (0 + x + y) l). lra.
  - congruence.
Qed.

Lemma foldl_Rplus_insert (l : list R) (i : nat) (old v : R) :
  l !! i = Some old ->
  foldl Rplus 0 (<[i:=v]> l) = (foldl Rplus 0 l - old + v)%R.
Proof.
  revert i. induction l as [|x l IH]; intros i Hi; [discriminate|].
  destruct i as [|i]; simpl in *.
  - injection Hi as ->.
    rewrite (foldl_Rplus_shift (0 + v) l), (foldl_Rplus_shift (0 + old) l). lra.
  - rewrite (foldl_Rplus_shift (0 + x) (<[i:=v]> l)), (foldl_Rplus_shift (0 + x) l).
    rewrite (IH i Hi). lra.
Qed.

(** A slot that no batch of [ts] writes keeps its value. *)
Lemma buffer_unwritten {T : Type} {ST : Scalar T} {BT : Backend T}
    (st : train_state T) (ts : list batch) (j : nat) :
  (forall k : nat, (k < length ts)%nat ->
     Z.to_nat ((global_step (sess st) + 1 + Z.of_nat k) `mod` move_avg_len) <> j) ->
  move_avg_loss (foldl train_batch st ts) !! j = move_avg_loss st !! j.
Proof.
  induction ts as [|t ts IH] using rev_ind; intros Hfree; [reflexivity|].
  rewrite foldl_snoc. unfold train_batch at 1.
  cbn [train_step record_step move_avg_loss].
  rewrite sess_foldl_train_batch, global_step_foldl_session_after.
  replace (global_step (sess st) + len ts + 1)%Z
    with (global_step (sess st) + 1 + Z.of_nat (length ts))%Z by (unfold len; lia).
  rewrite list_lookup_insert_ne.
  - apply IH. intros k Hk. apply Hfree. rewrite length_app. simpl. lia.
  - apply Hfree. rewrite length_app. simpl. lia.
Qed.

(** X10.  Once twenty batches have run, the value an epoch reports is the
    arithmetic mean of the losses of the last twenty batches. *)
Theorem report_is_mean_of_last_twenty (BT : Backend R) (st : train_state R)
    (ts : list batch) :
  length (move_avg_loss st) = 20%nat ->
  (20 <= length ts)%nat ->
  np_mean (move_avg_loss (foldl train_batch st ts))
  = (foldl Rplus 0 (drop (length ts - 20)%nat (batch_losses (sess st) ts)) / 20)%R.
Proof.
  intros Hlen Hts. unfold np_mean. cbn [s_div s_add s_zero s_of_Z R_Scalar].
  rewrite (foldl_Rplus_Permutation _ _ (buffer_last_losses st ts Hlen Hts)).
  unfold len. now rewrite length_foldl_train_batch, Hlen.
Qed.

Lemma report_is_mean_of_last_twenty_witness :
  np_mean (move_avg_loss
             (foldl (train_batch (BT := constant_backend)) (train_init unit_session)
                (replicate 20%nat one_batch)))
  = (foldl Rplus 0
       (drop (length (replicate 20%nat one_batch) - 20)%nat
          (batch_losses (BT := constant_backend) (sess (train_init unit_session))
             (replicate 20%nat one_batch))) / 20)%R.
Proof.
  apply (report_is_mean_of_last_twenty constant_backend (train_init unit_session)
           (replicate 20%nat one_batch)).
  - reflexivity.
  - simpl. lia.
Defined.

(** X11.  Before twenty batches have run the unwritten slots still hold the
    zeros the buffer started with, and the divisor stays twenty: from a fresh
    buffer, after [n <= 20] batches the reported value is the sum of the [n]
    losses divided by twenty, not by [n]. *)
Theorem report_before_twenty_batches (BT : Backend R) (s : session R)
    (ts : list batch) :
  (length ts <= 20)%nat ->
  np_mean (move_avg_loss (foldl train_batch (train_init s) ts))
  = (foldl Rplus 0 (batch_losses s ts) / 20)%R.
Proof.
  intros Hts. unfold np_mean. cbn [s_div s_add s_zero s_of_Z R_Scalar].
  unfold len. rewrite length_foldl_train_batch.
  change (length (move_avg_loss (train_init s))) with 20%nat.
  f_equal. induction ts as [|t ts IH] using rev_ind.
  - simpl. lra.
  - rewrite length_app in Hts. simpl in Hts.
    rewrite foldl_snoc, batch_losses_snoc, foldl_app. cbn [foldl].
    rewrite <- IH by lia.
    unfold train_batch at 1. cbn [train_step record_step move_avg_loss].
    rewrite sess_foldl_train_batch, global_step_foldl_session_after.
    cbn [sess train_init].
    replace (global_step s + len ts + 1)%Z
      with (global_step s + 1 + Z.of_nat (length ts))%Z by (unfold len; lia).
    rewrite (foldl_Rplus_insert _ _ 0%R).
    + lra.
    + rewrite buffer_unwritten.
      * cbn [move_avg_loss train_init]. unfold np_zeros.
        apply lookup_replicate_2. cbn [s_zero R_Scalar].
        change (Z.to_nat move_avg_len) with 20%nat.
        apply (slot_lt (global_step s + 1) (length ts)).
      * intros k Hk. cbn [sess train_init].
        apply slot_ne; lia.
Qed.

Lemma report_before_twenty_batches_witness :
  np_mean (move_avg_loss
             (foldl (train_batch (BT := constant_backend)) (train_init unit_session)
                [one_batch; one_batch]))
  = ((0 + 2 + 2) / 20)%R.
Proof.
  apply (report_before_twenty_batches constant_backend unit_session
           [one_batch; one_batch]).
  simpl. lia.
Defined.

End ReportedMean.

(** ** The generation loop *)


Section GenerationModel.
Import Trainer Generator GRU Encoder Checkpoints Cells.
Context {T : Type} {ST : Scalar T}.
Local Open Scope Z_scope.

(** Generation with the hand-coded model, turn by turn: the sequence so far
    has the seed and [n] tokens, all of them rows of the embedding table. *)
Lemma generate_from_model_safe (s : session T) (config : Config) (seed : list Z)
    (embed_w : list (list T)) (p : gru_params T) (h0 hid_w : list (list T))
    (hid_b : list T) (out_w : list (list T)) (out_b : list T) (n : nat) :
  batch_size config = 1 ->
  0 <= num_rnn_steps config ->
  model_graph config = Ok tt ->
  get_mat (vars s) "embedding" "w" = Ok embed_w ->
  len embed_w <= 2147483648 ->
  gru_params_of (vars s) = Ok p ->
  h_init (vars s) = Ok h0 ->
  get_mat (vars s) "hidden" "w" = Ok hid_w ->
  get_vec (vars s) "hidden" "b" = Ok hid_b ->
  get_mat (vars s) "output" "w" = Ok out_w ->
  get_vec (vars s) "output" "b" = Ok out_b ->
  len h0 = 1 ->
  out_w <> [] -> out_b <> [] ->
  len out_w <= len embed_w ->
  len seed = num_rnn_steps config ->
  Forall (fun id => 0 <= id < len embed_w) seed ->
  exists out : list Z,
    generate_from model s config n 0 seed = Ok out
    /\ length out = (length seed + n)%nat
    /\ Forall (fun id => 0 <= id < len embed_w) out.
Proof.
  intros Hbs Hns Hgraph HE Hfit Hp Hh0 Hw Hb How Hob Hrows Hwne Hbne Hvocab Hseed
    Hvalid.
  induction n as [|n IH].
  - exists seed. simpl. split; [reflexivity|]. split; [lia|exact Hvalid].
  - destruct IH as (out & Hout & Hlen & Hall).
    rewrite generate_from_snoc, Hout. cbn [bind].
    rewrite reshape_row. cbn [bind]. unfold len in Hseed.
    rewrite slice_inside by (unfold len; lia).
    set (window := take _ (drop _ out)).
    assert (window_shape config [window]) as Hshape.
    { split; [now rewrite Hbs|]. constructor; [|constructor].
      subst window. unfold len. rewrite length_take_le; [lia|].
      rewrite length_drop. lia. }
    assert (tokens_in (len embed_w) [window]) as Htok.
    { constructor; [|constructor]. subst window.
      now apply Forall_take, Forall_drop. }
    destruct (model_run (vars s) config [window] embed_w p h0 hid_w hid_b
                HE Hp Hh0 Hw Hb Hgraph Hfit Hshape Htok) as (m & Hm & _ & Hmlen).
    unfold run_y_hat. rewrite Hm. cbn [bind].
    destruct (y_hat_tokens (vars s) (tanh2 (add_bias (matmul m hid_w) hid_b))
                out_w out_b How Hob Hwne Hbne) as (preds & -> & Hpl & Hpr).
    cbn [bind]. exists (out ++ preds). split; [reflexivity|].
    unfold tanh2, add_bias, matmul in Hpl. rewrite !length_fmap in Hpl.
    rewrite Hmlen in Hpl by (unfold len in Hrows; simpl; lia). simpl in Hpl.
    split; [rewrite length_app; lia|].
    apply Forall_app. split; [exact Hall|].
    eapply Forall_impl; [exact Hpr|]. intros t [Ht _]. simpl in Ht. lia.
Qed.

(** Restoring a checkpoint saved from a session of the same graph gives a
    session of that graph again. *)
Lemma saver_restore_session_of (rand : string -> tensor T) (config : Config)
    (c : checkpoint T) :
  session_of config (ck_vars c) ->
  exists vs : varstore T,
    saver_restore (Loss.loss_variables rand config (model_variables rand config ∅)) c
    = Ok (mk_session vs (ck_step c) O)
    /\ session_of config vs.
Proof.
  intros Hs. unfold saver_restore.
  set (declared := Loss.loss_variables rand config (model_variables rand config ∅)).
  assert (forall name v, declared !! name = Some v ->
            exists saved : variable T,
              ck_vars c !! name = Some saved
              /\ var_shape saved = var_shape v
              /\ has_shape (var_value saved) (var_shape v)) as Hheld.
  { intros name v Hv. apply built_store_lookup in Hv as (shape & init & -> & Hin).
    exact (session_of_variable config (ck_vars c) name shape init Hs Hin). }
  rewrite bool_decide_eq_true_2.
  2: { intros name v Hv. destruct (Hheld name v Hv) as (saved & -> & _). eauto. }
  rewrite bool_decide_eq_true_2.
  2: { intros name v Hv. destruct (Hheld name v Hv) as (saved & -> & <- & _).
       reflexivity. }
  eexists. split; [reflexivity|].
  intros name v0 Hv0. apply built_store_lookup in Hv0 as (shape & init & -> & Hin).
  assert (declared !! name
          = Some (mk_variable shape init true (initial_value rand name shape init)))
    as Hd by (apply built_store_lookup; now exists shape, init).
  destruct (Hheld name _ Hd) as (saved & Hsaved & _ & Hval).
  rewrite map_lookup_imap, Hd. cbn. rewrite Hsaved. cbn.
  eexists. split; [reflexivity|]. split; [reflexivity|exact Hval].
Qed.

(** Restoring into a graph of one lane a checkpoint saved from a graph of
    another number of lanes fails: [h_init] has another shape. *)
Lemma saver_restore_mismatch (rand : string -> tensor T) (config : Config)
    (c : checkpoint T) :
  session_of config (ck_vars c) ->
  batch_size config <> 1 ->
  saver_restore
    (Loss.loss_variables rand (with_batch_size config 1)
       (model_variables rand (with_batch_size config 1) ∅)) c
  = Raise InvalidArgumentError.
Proof.
  intros Hs Hbs. unfold saver_restore.
  set (declared := Loss.loss_variables rand (with_batch_size config 1)
                     (model_variables rand (with_batch_size config 1) ∅)).
  rewrite bool_decide_eq_true_2.
  2: { intros name v Hv. apply built_store_lookup in Hv as (shape & init & -> & Hin).
       assert (exists shape', (name, shape', init) ∈ declarations config)
         as [shape' Hin'].
       { unfold declarations in *. cbn [with_batch_size vocab_size embed_size
           rnn_size hidden_size batch_size] in Hin.
         repeat (apply elem_of_cons in Hin as [[= -> -> ->]|Hin];
                 [eexists; in_declarations|]).
         now apply elem_of_nil in Hin. }
       destruct (session_of_variable config (ck_vars c) name shape' init Hs Hin')
         as (saved & -> & _). eauto. }
  rewrite bool_decide_eq_false_2; [reflexivity|].
  intros Hall.
  assert (declared !! "GRU/h_init"
          = Some (mk_variable [1; rnn_size config] zero_initializer true
                    (initial_value rand "GRU/h_init" [1; rnn_size config]
                       zero_initializer))) as Hd.
  { apply built_store_lookup. eexists _, _. split; [reflexivity|]. in_declarations. }
  specialize (Hall _ _ Hd). cbn in Hall.
  destruct (session_of_variable config (ck_vars c) "GRU/h_init"
              [batch_size config; rnn_size config] zero_initializer Hs
              ltac:(in_declarations)) as (saved & Hsaved & Hshape & _).
  rewrite Hsaved in Hall. cbn in Hall. congruence.
Qed.

End GenerationModel.

Section GenerationProperties.
Import Trainer Generator GRU Encoder Checkpoints Cells Scalars Scenarios MoreScenarios.
Local Open Scope Z_scope.

(** X12.  The generator slides its window one token at a time.  When the seed has
    [num_rnn_steps] tokens and the encoder returns one representation per fed
    window, a run of [n] turns that returns holds the seed followed by [n]
    tokens, and the token at position [num_rnn_steps + k] is the prediction
    for the [num_rnn_steps] tokens just before it: earlier tokens are never
    rewritten. *)
Theorem generator_slides_window (T : Type) (ST : Scalar T)
    (encoder : varstore T -> Config -> list (list Z) -> result (list (list T)))
    (s : session T) (config : Config) (word_array : list Z) (start : Z)
    (n : nat) (out : list Z) :
  (forall x h, encoder (vars s) (with_batch_size config 1) x = Ok h ->
               length h = 1%nat) ->
  0 <= num_rnn_steps config ->
  len (slice word_array start (start + num_rnn_steps config))
  = num_rnn_steps config ->
  generate encoder s config word_array start n = Ok out ->
  let num_steps := Z.to_nat (num_rnn_steps config) in
  length out = (num_steps + n)%nat
  /\ take num_steps out = slice word_array start (start + num_rnn_steps config)
  /\ forall k : nat, (k < n)%nat ->
       exists tok : Z,
         run_y_hat encoder s (with_batch_size config 1)
           [take num_steps (drop k out)] = Ok [tok]
         /\ out !! (num_steps + k)%nat = Some tok.
Proof.
  intros Hone Hns Hseed Hout num_steps. unfold generate in Hout.
  cbn [num_rnn_steps with_batch_size] in Hout.
  destruct (generate_from_windows encoder s (with_batch_size config 1) _ n out
              Hone Hns Hseed Hout) as (Hlen & Hpre & Hks).
  assert (length (slice word_array start (start + num_rnn_steps config)) = num_steps)
    as Hsl by (unfold len in Hseed; subst num_steps; lia).
  rewrite Hsl in *. split; [exact Hlen|]. split; [exact Hpre|]. exact Hks.
Qed.

Lemma generator_slides_window_witness :
  length [1; 2; 0; 0; 0] = (2 + 3)%nat
  /\ take 2 [1; 2; 0; 0; 0] = [1; 2].
Proof.
  destruct (generator_slides_window expr expr_Scalar model
              (mk_session tiny_store 0 O) tiny_config [1; 2; 0] 0 3 [1; 2; 0; 0; 0])
    as (Hlen & Hpre & _).
  - intros x h Hrun.
    pose proof (model_rows tiny_store (with_batch_size tiny_config 1) x h
                  [[Var "e0"]; [Var "e1"]; [Var "e2"]]
                  (mk_gru_params [[Var "wr0"]; [Var "wr1"]] [[Var "wz0"]; [Var "wz1"]]
                     [[Var "w0"]; [Var "w1"]] [Const 1] [Const 1] [Const 0])
                  [[Const 0]] [[Var "hw"]] [Const 0]
                  eq_refl eq_refl eq_refl eq_refl eq_refl eq_refl Hrun) as Hl.
    unfold len in Hl. simpl in Hl. lia.
  - discriminate.
  - reflexivity.
  - vm_compute. reflexivity.
  - split; [exact Hlen | exact Hpre].
Defined.

(** X13.  The prediction cell on the graph of the hand-coded model.  For a
    configuration of sizes the notebook is run with, when the checkpoint was
    saved from a session of the graph of one lane and the seed holds
    [num_rnn_steps] tokens below the vocabulary size, the cell builds the
    graph, restores the checkpoint, and never fails: every run returns the
    seed followed by [n] tokens, each below the vocabulary size, so that it
    can be fed back.  When the checkpoint was saved from a session of the
    graph of another batch size, the cell ends with an
    [InvalidArgumentError] when it restores: [h_init] has one row per lane
    of the graph it was trained in. *)
Theorem generator_stays_in_vocabulary (T : Type) (ST : Scalar T)
    (rand : string -> tensor T) (last_saved : checkpoint T) (config : Config)
    (word_array : list Z) (start : Z) (n : nat) :
  well_sized config ->
  (session_of (with_batch_size config 1) (ck_vars last_saved) ->
   len (slice word_array start (start + num_rnn_steps config))
   = num_rnn_steps config ->
   Forall (fun id => 0 <= id < vocab_size config)
     (slice word_array start (start + num_rnn_steps config)) ->
   exists out : list Z,
     prediction_cell rand last_saved config word_array start n = Ok out
     /\ len out = num_rnn_steps config + Z.of_nat n
     /\ Forall (fun id => 0 <= id < vocab_size config) out)
  /\ (session_of config (ck_vars last_saved) ->
      batch_size config <> 1 ->
      prediction_cell rand last_saved config word_array start n
      = Raise InvalidArgumentError).
Proof.
  intros Hsized.
  assert (well_sized (with_batch_size config 1)) as Hsized1.
  { unfold well_sized in *. cbn [with_batch_size batch_size num_rnn_steps vocab_size
      embed_size rnn_size hidden_size neg_samples embed_vis_depth]. lia. }
  unfold prediction_cell, MyGraph.
  rewrite well_sized_build_graph by assumption.
  cbn [bind]. split.
  - intros Hs Hseed Hvalid.
    destruct (saver_restore_session_of rand (with_batch_size config 1) last_saved Hs)
      as (vs & -> & Hvs).
    cbn [bind].
    destruct (session_of_lookups (with_batch_size config 1) vs Hvs)
      as (embed_w & p & h0 & hid_w & hid_b & out_w & out_b
          & HE & HEl & Hp & Hh0 & Hh0l & Hhw & Hhb & How & Howl & Hob & Hobl).
    cbn [with_batch_size vocab_size batch_size] in HEl, Hh0l, Howl, Hobl.
    assert (1 <= vocab_size config <= 2147483648 /\ 0 <= num_rnn_steps config)
      as [Hv Hns] by (unfold well_sized in Hsized; lia).
    unfold generate. cbn [num_rnn_steps with_batch_size].
    destruct (generate_from_model_safe
                (mk_session vs (ck_step last_saved) O) (with_batch_size config 1)
                (slice word_array start (start + num_rnn_steps config))
                embed_w p h0 hid_w hid_b out_w out_b n
                eq_refl Hns (well_sized_model_graph _ Hsized1) HE ltac:(lia)
                Hp Hh0 Hhw Hhb How Hob Hh0l
                ltac:(intros ->; unfold len in Howl; simpl in Howl; lia)
                ltac:(intros ->; unfold len in Hobl; simpl in Hobl; lia)
                ltac:(lia) Hseed ltac:(now rewrite HEl))
      as (out & Hout & Hlen & Hall).
    exists out. split; [exact Hout|]. split; [unfold len in *; lia|].
    now rewrite HEl in Hall.
  - intros Hs Hbs. now rewrite saver_restore_mismatch.
Qed.

Lemma generator_stays_in_vocabulary_witness :
  exists out : list Z,
    prediction_cell tiny_weights (mk_checkpoint 0 tiny_store 5) tiny_config
      [1; 2; 0] 0 3 = Ok out
    /\ len out = 2 + 3
    /\ Forall (fun id => 0 <= id < 3) out.
Proof.
  destruct (generator_stays_in_vocabulary expr expr_Scalar tiny_weights
              (mk_checkpoint 0 tiny_store 5) tiny_config [1; 2; 0] 0 3)
    as [Hrun _].
  - unfold well_sized. simpl. lia.
  - apply Hrun.
    + intros name v Hv. apply built_store_lookup in Hv as (shape & init & -> & Hin).
      unfold declarations in Hin. cbn in Hin.
      repeat (apply elem_of_cons in Hin as [[= -> -> ->]|Hin];
              [eexists; split; [vm_compute; reflexivity|];
               split; [reflexivity|vm_compute; repeat constructor]|]).
      now apply elem_of_nil in Hin.
    + reflexivity.
    + unfold len. simpl. repeat (constructor; try lia).
Defined.




End GenerationProperties.

(** ** The word table and the files written from it *)

Section WordTable.
Import Notebook Scenarios MoreScenarios.
Local Open Scope Z_scope.

Lemma reverse_dict_snoc (items : list (string * Z)) (k : string) (v : Z) :
  reverse_dict (items ++ [(k, v)]) = <[v := k]> (reverse_dict items).
Proof. unfold reverse_dict. now rewrite foldl_snoc. Qed.

Lemma reverse_dict_lookup_inv (items : list (string * Z)) (k : string) (v : Z) :
  reverse_dict items !! v = Some k -> (k, v) ∈ items.
Proof.
  induction items as [|[k' v'] items IH] using rev_ind; intros Hl.
  - discriminate.
  - rewrite reverse_dict_snoc in Hl. apply elem_of_app.
    destruct (decide (v' = v)) as [->|Hne].
    + rewrite lookup_insert_eq in Hl. injection Hl as ->. right. constructor.
    + rewrite lookup_insert_ne in Hl by assumption. left. now apply IH.
Qed.

Lemma reverse_dict_last (l1 l2 : list (string * Z)) (k : string) (v : Z) :
  v ∉ l2.*2 -> reverse_dict (l1 ++ (k, v) :: l2) !! v = Some k.
Proof.
  induction l2 as [|[k' v'] l2 IH] using rev_ind; intros Hv.
  - rewrite reverse_dict_snoc. apply lookup_insert_eq.
  - rewrite fmap_app in Hv. simpl in Hv.
    rewrite app_comm_cons, app_assoc, reverse_dict_snoc.
    rewrite lookup_insert_ne.
    + apply IH. intros Hin. apply Hv, elem_of_app. now left.
    + intros ->. apply Hv, elem_of_app. right. constructor.
Qed.

(** X15.  Turning the dictionary round.  Every entry of [reverse_dict] comes from
    an entry of the dictionary; for an index that several words share, the
    word visited last wins; and when all indices are different, looking up
    the index of a word gives the word back. *)
Theorem reverse_dict_round_trip (items : list (string * Z)) :
  (forall (k : string) (v : Z), reverse_dict items !! v = Some k -> (k, v) ∈ items)
  /\ (forall l1 l2 (k : string) (v : Z),
        items = l1 ++ (k, v) :: l2 -> v ∉ l2.*2 ->
        reverse_dict items !! v = Some k)
  /\ (NoDup items.*2 ->
      forall (k : string) (v : Z), (k, v) ∈ items -> reverse_dict items !! v = Some k).
Proof.
  split; [apply reverse_dict_lookup_inv|]. split.
  - intros l1 l2 k v -> Hv. now apply reverse_dict_last.
  - intros Hnd k v Hin.
    apply list_elem_of_split in Hin as (l1 & l2 & ->).
    apply reverse_dict_last.
    rewrite fmap_app in Hnd. apply NoDup_app in Hnd as (_ & _ & Hnd).
    simpl in Hnd. now apply NoDup_cons in Hnd as [Hv _].
Qed.

Lemma reverse_dict_round_trip_witness :
  reverse_dict three_words !! 1 = Some "holmes".
Proof.
  apply (proj2 (proj2 (reverse_dict_round_trip three_words))).
  - repeat constructor; intros Hin;
      repeat (apply elem_of_cons in Hin as [Hin|Hin]; [discriminate|]);
      now apply elem_of_nil in Hin.
  - right. left.
Defined.

(** A word shared by two indices keeps both entries; an index shared by
    two words keeps the later word only. *)
Example reverse_dict_shared_index :
  reverse_dict [("a", 0); ("b", 0)] !! 0 = Some "b"
  /\ reverse_dict [("a", 0); ("a", 1)] !! 0 = Some "a"
  /\ reverse_dict [("a", 0); ("a", 1)] !! 1 = Some "a".
Proof. repeat split. Qed.

Lemma write_words_seq (rd : gmap Z string) (words : list string) (a n : nat) :
  (forall i : nat, rd !! Z.of_nat i = words !! i) ->
  (a <= length words)%nat ->
  write_words rd ((fun i : nat => Z.of_nat i + 0) <$> seq a n)
  = if decide (a + n <= length words)%nat
    then mk_written ((fun w => w +:+ newline) <$> take n (drop a words)) None
    else mk_written ((fun w => w +:+ newline) <$> drop a words)
           (Some (Z.of_nat (length words))).
Proof.
  intros Hrd. revert a. induction n as [|n IH]; intros a Ha.
  - simpl. rewrite decide_True by lia. reflexivity.
  - cbn [seq fmap list_fmap write_words]. rewrite Z.add_0_r, Hrd.
    destruct (words !! a) as [w|] eqn:Hw.
    + pose proof (lookup_lt_Some _ _ _ Hw) as Hlt.
      rewrite (IH (S a)) by lia.
      rewrite (drop_S _ _ _ Hw).
      destruct (decide (S a + n <= length words)%nat);
        [rewrite decide_True by lia|rewrite decide_False by lia]; reflexivity.
    + apply lookup_ge_None in Hw. assert (a = length words) as -> by lia.
      rewrite decide_False by lia. now rewrite drop_all.
Qed.

(** X16.  The metadata file holds one line per word, for the first
    [embed_vis_depth] indices; when the vocabulary has fewer words than
    that, the loop writes a line for every word and then ends with a
    [KeyError] for the first index that has no word. *)
Theorem metadata_lines (rd : gmap Z string) (words : list string)
    (embed_vis_depth : Z) :
  (forall i : nat, rd !! Z.of_nat i = words !! i) ->
  (embed_vis_depth <= len words ->
     write_metadata rd embed_vis_depth
     = mk_written ((fun w => w +:+ newline) <$> take (Z.to_nat embed_vis_depth) words)
         None)
  /\ (len words < embed_vis_depth ->
     write_metadata rd embed_vis_depth
     = mk_written ((fun w => w +:+ newline) <$> words) (Some (len words))).
Proof.
  intros Hrd. unfold write_metadata, range, seqZ, len.
  rewrite (write_words_seq rd words 0 (Z.to_nat embed_vis_depth) Hrd) by lia.
  rewrite drop_0. split; intros Hd.
  - now rewrite decide_True by lia.
  - now rewrite decide_False by lia.
Qed.

Lemma metadata_lines_witness :
  write_metadata (reverse_dict three_words) 2
  = mk_written ["the" +:+ newline; "holmes" +:+ newline] None
  /\ write_metadata (reverse_dict three_words) 2048
     = mk_written ["the" +:+ newline; "holmes" +:+ newline; "," +:+ newline]
         (Some 3).
Proof.
  assert (forall i : nat,
            reverse_dict three_words !! Z.of_nat i = ["the"; "holmes"; ","] !! i)
    as Hrd.
  { intros [|[|[|i]]]; try reflexivity.
    unfold three_words, reverse_dict. simpl.
    rewrite !lookup_insert_ne by lia. reflexivity. }
  split.
  - apply (proj1 (metadata_lines (reverse_dict three_words) ["the"; "holmes"; ","]
                    2 Hrd)). discriminate.
  - apply (proj2 (metadata_lines (reverse_dict three_words) ["the"; "holmes"; ","]
                    2048 Hrd)). reflexivity.
Defined.

End WordTable.

(** ** The readable text *)

Section ReadableText.
Import Notebook.

Lemma string_length_app (a b : string) :
  String.length (a +:+ b) = (String.length a + String.length b)%nat.
Proof. induction a as [|c a IH]; simpl; [reflexivity|now rewrite IH]. Qed.

Lemma string_app_cons (c : Ascii.ascii) (a b : string) :
  String c a +:+ b = String c (a +:+ b).
Proof. reflexivity. Qed.

Lemma prefix_spec (w s : string) :
  String.prefix w s = true <-> exists post : string, s = w +:+ post.
Proof.
  revert s. induction w as [|c w IH]; intros s.
  - split; [intros _; now exists s|intros _; now destruct s].
  - destruct s as [|d s]; simpl.
    + split; [discriminate|intros [post Hp]; discriminate].
    + destruct (Ascii.ascii_dec c d) as [->|Hne].
      * rewrite IH. split; intros [post Hp]; exists post;
          rewrite string_app_cons in *; congruence.
      * split; [discriminate|].
        intros [post Hp]. rewrite string_app_cons in Hp. congruence.
Qed.

Lemma contains_spec (s w : string) :
  contains s w = true <-> exists pre post : string, s = pre +:+ w +:+ post.
Proof.
  split.
  - induction s as [|c s IH]; cbn [contains]; intros Hc.
    + rewrite orb_false_r in Hc. apply prefix_spec in Hc as [post ->].
      now exists EmptyString, post.
    + apply orb_true_iff in Hc as [Hc|Hc].
      * apply prefix_spec in Hc as [post ->]. now exists EmptyString, post.
      * destruct (IH Hc) as (pre & post & ->). now exists (String c pre), post.
  - intros (pre & post & ->). induction pre as [|c pre IH].
    + assert (String.prefix w (w +:+ post) = true) as Hp
        by (apply prefix_spec; now exists post).
      change (EmptyString +:+ w +:+ post) with (w +:+ post).
      destruct (w +:+ post); cbn [contains]; now rewrite Hp.
    + rewrite string_app_cons. cbn [contains]. rewrite IH. apply orb_true_r.
Qed.

Lemma length_readable_from (acc : string) (ws : list string) :
  String.length
    (foldl (fun acc word =>
              if contains punctuation word then acc +:+ word
              else acc +:+ " " +:+ word) acc ws)
  = (String.length acc + sum_list (String.length <$> ws)
     + length (filter (fun w => contains punctuation w = false) ws))%nat.
Proof.
  revert acc. induction ws as [|w ws IH]; intros acc.
  - cbn [foldl fmap list_fmap filter list_filter length]. simpl sum_list. lia.
  - cbn [foldl]. rewrite IH, fmap_cons.
    change (sum_list (String.length w :: (String.length <$> ws)))
      with (String.length w + sum_list (String.length <$> ws))%nat.
    destruct (contains punctuation w) eqn:Hw.
    + rewrite filter_cons_False by (cbv beta; congruence).
      rewrite string_length_app. lia.
    + rewrite filter_cons_True by exact Hw.
      rewrite !string_length_app.
      change (String.length " ") with 1%nat. cbn [length]. lia.
Qed.

(** X17.  The readable text.  A word is appended without a space exactly when it
    occurs as a run of characters in the punctuation string, which holds for
    each punctuation mark but also for the empty word and for runs of marks
    that stand next to each other there; every other word is preceded by one
    space.  So the text is as long as the words together plus one for each
    word that is no such run. *)
Theorem readable_text (words : list string) :
  String.length (readable words)
  = (sum_list (String.length <$> words)
     + length (filter (fun w => contains punctuation w = false) words))%nat
  /\ (forall w : string,
        readable (words ++ [w])
        = if contains punctuation w then readable words +:+ w
          else readable words +:+ " " +:+ w)
  /\ (forall w : string,
        contains punctuation w = true
        <-> exists pre post : string, punctuation = pre +:+ w +:+ post).
Proof.
  split; [|split].
  - unfold readable. rewrite length_readable_from.
    change (String.length EmptyString) with O. lia.
  - intros w. unfold readable. now rewrite foldl_snoc.
  - intros w. apply contains_spec.
Qed.

(** A passage as the notebook prints it, and words the test takes for
    punctuation. *)
Example readable_passage :
  readable ["holmes"; ","; "said"; "he"; "."] = " holmes, said he."
  /\ contains punctuation "" = true
  /\ contains punctuation ",." = true
  /\ contains punctuation ".," = false
  /\ contains punctuation "he" = false.
Proof. repeat split. Qed.

End ReadableText.

